(** * Leaderboard aggregation of the DJ tipping canister

    A shallow embedding of [src/dfinity_js_backend/src/index.ts].  The file
    holds two revisions of the canister:

    - the revision whose [LeaderboardEntry] has [avg_rating : nat64]
      (first document of [index.ts]).  It is embedded in module [V1].  The
      unnamed copy [part_001] has the same [createRating] and
      [searchDJsByRating] text; its [createTip] and [getLeaderboard] start
      with guards on properties of [ic.caller()] that the source does not
      define, and are not embedded;
    - the revision whose [LeaderboardEntry] has [total_rating_points] and
      [avg_rating : float64] (second document of [index.ts]).  It is embedded
      in module [V2].

    The calls outside the tip and rating flow (profiles, song requests,
    events and playlists) are embedded in [V1Full] and [V2Full], whose
    states hold the stores of [V1.State] and [V2.State] together with the
    stores that only those calls touch.

    Conventions.
    - A [nat64] field is a JavaScript [BigInt] at run time; the source adds,
      multiplies, divides and subtracts these values with BigInt arithmetic,
      which never wraps, so they are integers of [Z].  The range of the
      Candid type [nat64] is checked by the azle library when a record is
      encoded, outside the source: an insert of a record with a counter
      outside the range throws, and the call traps.  Modules [V1] and [V2]
      embed the text of the source, and a call that they accept is a call
      that passes the guards of the source; module [V2Nat64] adds the range
      check to the calls of [V2], so that a call whose leaderboard entry
      leaves the range changes nothing.
    - A [float64] is an IEEE-754 binary64 number, modelled by [spec_float]
      with precision 53 and maximal exponent 1024.
    - [uuidv4()] and [ic.time()] are inputs of the environment: every update
      call receives the fresh identifier and the time as arguments.
    - The canister processes one call at a time; a call is a function from
      the stores to a result and the new stores.
    - The message text carried by an error variant is not modelled; an error
      is identified by its variant. *)

From Stdlib Require Import ZArith Zpower List String Ascii Bool Lia.
From Stdlib Require Import Sorted Permutation.
From Stdlib Require Import Floats.SpecFloat.
Import ListNotations.

Local Open Scope string_scope.
Local Open Scope list_scope.
Local Open Scope Z_scope.

(** ** JavaScript built-ins used by the source *)

(** [String.prototype.trim] and [String.prototype.toLowerCase] are
    Unicode-aware built-ins of the JavaScript engine.  The embedding is
    parametric in them. *)
Class JsString := {
  trim : string -> string;
  toLowerCase : string -> string
}.

(** An implementation of the two built-ins on ASCII text, used to evaluate
    the embedding on concrete calls. *)
Module AsciiText.

Definition is_space (c : ascii) : bool :=
  let n := nat_of_ascii c in
  Nat.eqb n 32 || (Nat.leb 9 n && Nat.leb n 13).

Fixpoint trimStart (s : string) : string :=
  match s with
  | EmptyString => EmptyString
  | String c s' => if is_space c then trimStart s' else s
  end.

Fixpoint trimEnd (s : string) : string :=
  match s with
  | EmptyString => EmptyString
  | String c s' =>
      match trimEnd s' with
      | EmptyString => if is_space c then EmptyString else String c EmptyString
      | t => String c t
      end
  end.

Definition lower_char (c : ascii) : ascii :=
  let n := nat_of_ascii c in
  if Nat.leb 65 n && Nat.leb n 90 then ascii_of_nat (n + 32) else c.

Fixpoint lower (s : string) : string :=
  match s with
  | EmptyString => EmptyString
  | String c s' => String (lower_char c) (lower s')
  end.

Definition builtins : JsString :=
  {| trim := fun s => trimEnd (trimStart s); toLowerCase := lower |}.

End AsciiText.

(** [!s] for a string [s]: the empty string is the only falsy string. *)
Definition falsy (s : string) : bool := (s =? "")%string.

(** ** binary64 numbers *)

Definition float64 := spec_float.

(** [Number(b)] for a BigInt [b]: the binary64 number nearest to [b]. *)
Definition Number (b : Z) : float64 := binary_normalize 53 1024 b 0 false.

(** [x / y] on Numbers. *)
Definition f64_div (x y : float64) : float64 := SFdiv 53 1024 x y.

(** [x >= y] on Numbers; false as soon as one side is NaN. *)
Definition f64_ge (x y : float64) : bool :=
  match SFcompare x y with
  | Some Gt | Some Eq => true
  | _ => false
  end.

(** The fraction [a / b], with [0 <= a < b], lies where the location says:
    at zero, below the middle, at the middle or above it. *)
Definition located (a b : Z) (l : location) : Prop :=
  match l with
  | loc_Exact => a = 0
  | loc_Inexact Lt => 0 < a /\ 2 * a < b
  | loc_Inexact Eq => 0 < a /\ 2 * a = b
  | loc_Inexact Gt => b < 2 * a
  end.

(** [x] is a normal positive binary64 number [m * 2^e], [e < 0], within half
    a unit in the last place of the exact quotient [S / N]:
    [|m * 2^e - S / N| <= 2^e / 2], which bounds the relative error by
    [2^-53]. *)
Definition f64_within_half_ulp (S N : Z) (x : float64) : Prop :=
  exists m e,
    x = S754_finite false m e
    /\ 2 ^ 52 <= Z.pos m < 2 ^ 53
    /\ e < 0
    /\ 2 * Z.abs (N * Z.pos m - S * 2 ^ (- e)) <= N.

(** ** The entity store *)

(** Modelled from the spec: [StableBTreeMap] belongs to the azle library and
    is not part of the source.  The spec gives its contract: get and insert
    by key, and a listing of the values in ascending key order.  Keys are
    strings; the embedding compares them lexicographically, and the
    properties below use only that the key order is a strict total order. *)
Module StableBTreeMap.

Definition t (V : Type) : Type := list (string * V).

Definition empty {V : Type} : t V := [].

Fixpoint get {V : Type} (m : t V) (k : string) : option V :=
  match m with
  | [] => None
  | (k', v) :: m' => if (k =? k')%string then Some v else get m' k
  end.

Fixpoint insert {V : Type} (m : t V) (k : string) (v : V) : t V :=
  match m with
  | [] => [(k, v)]
  | (k', v') :: m' =>
      match String.compare k k' with
      | Eq => (k, v) :: m'
      | Lt => (k, v) :: m
      | Gt => (k', v') :: insert m' k v
      end
  end.

Definition keys {V : Type} (m : t V) : list string := map fst m.

Definition values {V : Type} (m : t V) : list V := map snd m.

End StableBTreeMap.

Import StableBTreeMap.

(** [k1] comes strictly before [k2] in key order. *)
Definition key_lt (k1 k2 : string) : Prop := String.compare k1 k2 = Lt.

(** The representation invariant of a store: keys strictly ascending. *)
Definition ascending {V : Type} (m : t V) : Prop :=
  StronglySorted key_lt (keys m).

(** ** Records and variants shared by the two revisions *)

Inductive UserRole := RegularUser | Admin | DJ.
Inductive UserStatus := Active | Deactivated.
Inductive TipStatus := Pending | Completed.

(** ["DJ" in role] *)
Definition is_DJ (r : UserRole) : bool :=
  match r with DJ => true | _ => false end.

Module User.
Record t := mk {
  id : string;
  name : string;
  contact : string;
  created_at : Z;
  status : UserStatus;
  role : UserRole;
  points : Z
}.
End User.

Module Tip.
Record t := mk {
  id : string;
  user_id : string;
  dj_name : string;
  amount : Z;
  tip_status : TipStatus;
  created_at : Z
}.
End Tip.

Module Rating.
Record t := mk {
  id : string;
  user_id : string;
  dj_name : string;
  rating : Z;
  review : string;
  created_at : Z
}.
End Rating.

Inductive Result (A E : Type) :=
| Ok (a : A)
| Err (e : E).
Arguments Ok {A E} a.
Arguments Err {A E} e.

Definition isOk {A E : Type} (r : Result A E) : bool :=
  match r with
  | Ok _ => true
  | Err _ => false
  end.

(** The sum of a list of BigInts. *)
Definition sumZ (l : list Z) : Z := fold_right Z.add 0 l.

(** ** [Array.prototype.sort] *)

(** [v > 0] for the Number [v] returned by a comparator; a NaN result counts
    as zero. *)
Definition f64_positive (v : float64) : bool :=
  match SFcompare v (S754_zero false) with
  | Some Gt => true
  | _ => false
  end.

(** ECMAScript requires [Array.prototype.sort] to be stable: [a] ends up
    after [b] exactly when the comparator is positive on [(a, b)] or it is
    zero and [a] was after [b] already.  With a comparator that is a
    consistent ordering, every stable sort returns the same array; the
    embedding inserts the elements one by one, from the last to the first,
    each before the first element that need not precede it. *)
Fixpoint sort_insert {A : Type} (compareFn : A -> A -> float64) (x : A) (l : list A)
  : list A :=
  match l with
  | [] => [x]
  | y :: l' =>
      if f64_positive (compareFn x y)
      then y :: sort_insert compareFn x l'
      else x :: l
  end.

Definition sort {A : Type} (compareFn : A -> A -> float64) (l : list A) : list A :=
  fold_right (sort_insert compareFn) [] l.

(** [array.slice(0, n)] *)
Definition slice0 {A : Type} (n : nat) (l : list A) : list A := firstn n l.


(** ** Revision with [avg_rating : nat64] (first document of [index.ts]) *)

Module V1.

Module Error.
Inductive t := Success | Error | NotFound | InvalidPayload.
End Error.

Module LeaderboardEntry.
Record t := mk {
  dj_name : string;
  total_tips : Z;
  total_ratings : Z;
  avg_rating : Z
}.
End LeaderboardEntry.

(** [TipPayload] and [RatingPayload] are declared in [part_001]. *)
Module TipPayload.
Record t := mk {
  dj_name : string;
  amount : Z;
  user_id : string
}.
End TipPayload.

Module RatingPayload.
Record t := mk {
  dj_name : string;
  rating : Z;
  review : string;
  user_id : string
}.
End RatingPayload.

Record State := mkState {
  usersStorage : StableBTreeMap.t User.t;
  tipsStorage : StableBTreeMap.t Tip.t;
  ratingsStorage : StableBTreeMap.t Rating.t;
  leaderboardStorage : StableBTreeMap.t LeaderboardEntry.t
}.

Section Calls.
Context {js : JsString}.

Definition createTip (st : State) (payload : TipPayload.t) (tipId : string) (time : Z)
  : Result Tip.t Error.t * State :=
  if falsy (TipPayload.dj_name payload) || (TipPayload.amount payload <=? 0)%Z
     || falsy (TipPayload.user_id payload)
  then (Err Error.InvalidPayload, st)
  else
    match get (usersStorage st) (TipPayload.user_id payload) with
    | None => (Err Error.NotFound, st)
    | Some user =>
        if is_DJ (User.role user)
        then (Err Error.InvalidPayload, st)
        else
          match find (fun dj =>
                        (toLowerCase (User.name dj)
                         =? toLowerCase (TipPayload.dj_name payload))%string)
                     (values (usersStorage st)) with
          | None => (Err Error.NotFound, st)
          | Some _ =>
              let tip :=
                {| Tip.id := tipId;
                   Tip.user_id := TipPayload.user_id payload;
                   Tip.dj_name := TipPayload.dj_name payload;
                   Tip.amount := TipPayload.amount payload;
                   Tip.tip_status := Pending;
                   Tip.created_at := time |} in
              let tips := insert (tipsStorage st) tipId tip in
              let leaderboard :=
                match get (leaderboardStorage st) (TipPayload.dj_name payload) with
                | Some leaderboardEntry =>
                    insert (leaderboardStorage st) (TipPayload.dj_name payload)
                      {| LeaderboardEntry.dj_name :=
                           LeaderboardEntry.dj_name leaderboardEntry;
                         LeaderboardEntry.total_tips :=
                           LeaderboardEntry.total_tips leaderboardEntry
                           + TipPayload.amount payload;
                         LeaderboardEntry.total_ratings :=
                           LeaderboardEntry.total_ratings leaderboardEntry;
                         LeaderboardEntry.avg_rating :=
                           LeaderboardEntry.avg_rating leaderboardEntry |}
                | None =>
                    insert (leaderboardStorage st) (TipPayload.dj_name payload)
                      {| LeaderboardEntry.dj_name := TipPayload.dj_name payload;
                         LeaderboardEntry.total_tips := TipPayload.amount payload;
                         LeaderboardEntry.total_ratings := 0;
                         LeaderboardEntry.avg_rating := 0 |}
                end in
              (Ok tip,
               {| usersStorage := usersStorage st;
                  tipsStorage := tips;
                  ratingsStorage := ratingsStorage st;
                  leaderboardStorage := leaderboard |})
          end
    end.

(** The BigInt quotient [/] truncates towards zero ([Z.quot]).  Its divisor
    here is [total_ratings + 1n], at least [1n] on every stored entry. *)
Definition createRating (st : State) (payload : RatingPayload.t) (ratingId : string)
  (time : Z) : Result Rating.t Error.t * State :=
  if falsy (RatingPayload.dj_name payload) || falsy (RatingPayload.user_id payload)
  then (Err Error.InvalidPayload, st)
  else
    match get (usersStorage st) (RatingPayload.user_id payload) with
    | None => (Err Error.NotFound, st)
    | Some _ =>
        let newRating :=
          {| Rating.id := ratingId;
             Rating.user_id := RatingPayload.user_id payload;
             Rating.dj_name := RatingPayload.dj_name payload;
             Rating.rating := RatingPayload.rating payload;
             Rating.review := RatingPayload.review payload;
             Rating.created_at := time |} in
        let ratings := insert (ratingsStorage st) ratingId newRating in
        let leaderboard :=
          match get (leaderboardStorage st) (RatingPayload.dj_name payload) with
          | Some leaderboardEntry =>
              let total_ratings :=
                LeaderboardEntry.total_ratings leaderboardEntry + 1 in
              let avg_rating :=
                Z.quot (LeaderboardEntry.avg_rating leaderboardEntry
                        * LeaderboardEntry.total_ratings leaderboardEntry)
                       total_ratings in
              insert (leaderboardStorage st) (RatingPayload.dj_name payload)
                {| LeaderboardEntry.dj_name :=
                     LeaderboardEntry.dj_name leaderboardEntry;
                   LeaderboardEntry.total_tips :=
                     LeaderboardEntry.total_tips leaderboardEntry;
                   LeaderboardEntry.total_ratings := total_ratings;
                   LeaderboardEntry.avg_rating := avg_rating |}
          | None =>
              insert (leaderboardStorage st) (RatingPayload.dj_name payload)
                {| LeaderboardEntry.dj_name := RatingPayload.dj_name payload;
                   LeaderboardEntry.total_tips := 0;
                   LeaderboardEntry.total_ratings := 1;
                   LeaderboardEntry.avg_rating := RatingPayload.rating payload |}
          end in
        (Ok newRating,
         {| usersStorage := usersStorage st;
            tipsStorage := tipsStorage st;
            ratingsStorage := ratings;
            leaderboardStorage := leaderboard |})
    end.

Inductive Call :=
| CreateTip (payload : TipPayload.t) (tipId : string) (time : Z)
| CreateRating (payload : RatingPayload.t) (ratingId : string) (time : Z).

Definition step (st : State) (c : Call) : State :=
  match c with
  | CreateTip payload tipId time => snd (createTip st payload tipId time)
  | CreateRating payload ratingId time => snd (createRating st payload ratingId time)
  end.

Definition run (st : State) (calls : list Call) : State :=
  fold_left step calls st.

End Calls.

(** The comparator of [getLeaderboardForTopDJs]. *)
Definition compareTopDJs (a b : LeaderboardEntry.t) : float64 :=
  if (LeaderboardEntry.total_tips b =? LeaderboardEntry.total_tips a)%Z
  then Number (LeaderboardEntry.avg_rating b - LeaderboardEntry.avg_rating a)
  else Number (LeaderboardEntry.total_tips b - LeaderboardEntry.total_tips a).

Definition getLeaderboardForTopDJs (st : State)
  : Result (list LeaderboardEntry.t) Error.t :=
  let leaderboard := values (leaderboardStorage st) in
  let topDJs := sort compareTopDJs leaderboard in
  Ok (slice0 5 topDJs).

(** [usersStorage.get(entry.dj_name).Some] is the stored user when the key
    is present and [undefined] otherwise; an element of the returned array
    is [Some user] or [None] for [undefined]. *)
Definition searchDJsByRating (st : State) (rating : Z)
  : Result (list (option User.t)) Error.t :=
  let leaderboardEntries := values (leaderboardStorage st) in
  let djs :=
    map (fun entry => get (usersStorage st) (LeaderboardEntry.dj_name entry))
      (filter (fun entry => (LeaderboardEntry.avg_rating entry >=? rating)%Z)
         leaderboardEntries) in
  if (Z.of_nat (List.length djs) =? 0)%Z
  then Err Error.NotFound
  else Ok djs.

Definition getLeaderboard (st : State)
  : Result (list LeaderboardEntry.t) Error.t :=
  let entries := values (leaderboardStorage st) in
  if (Z.of_nat (List.length entries) =? 0)%Z
  then Err Error.NotFound
  else Ok entries.

Definition init (users : StableBTreeMap.t User.t) : State :=
  {| usersStorage := users;
     tipsStorage := empty;
     ratingsStorage := empty;
     leaderboardStorage := empty |}.

(** *** Vocabulary of the statements *)

(** [total_tips] of the entry stored under [key], [0] when there is none. *)
Definition totalTipsOf (st : State) (key : string) : Z :=
  match get (leaderboardStorage st) key with
  | Some entry => LeaderboardEntry.total_tips entry
  | None => 0
  end.

(** Whether a call answers [Ok], and whether every call of a sequence does
    in the state it is made in. *)
Definition accepted {js : JsString} (st : State) (c : Call) : bool :=
  match c with
  | CreateTip payload tipId time => isOk (fst (createTip st payload tipId time))
  | CreateRating payload ratingId time =>
      isOk (fst (createRating st payload ratingId time))
  end.

Fixpoint allAccepted {js : JsString} (st : State) (calls : list Call) : Prop :=
  match calls with
  | [] => True
  | c :: calls' => accepted st c = true /\ allAccepted (step st c) calls'
  end.

Definition tipCall (x : TipPayload.t * string * Z) : Call :=
  CreateTip (fst (fst x)) (snd (fst x)) (snd x).

Definition tipKey (x : TipPayload.t * string * Z) : string :=
  TipPayload.dj_name (fst (fst x)).

Definition tipAmount (x : TipPayload.t * string * Z) : Z :=
  TipPayload.amount (fst (fst x)).

(** The order of the ranking: more tips first, then the higher average,
    then the smaller name. *)
Definition ranksBefore (a b : LeaderboardEntry.t) : Prop :=
  LeaderboardEntry.total_tips b < LeaderboardEntry.total_tips a
  \/ (LeaderboardEntry.total_tips a = LeaderboardEntry.total_tips b
      /\ (LeaderboardEntry.avg_rating b < LeaderboardEntry.avg_rating a
          \/ (LeaderboardEntry.avg_rating a = LeaderboardEntry.avg_rating b
              /\ key_lt (LeaderboardEntry.dj_name a) (LeaderboardEntry.dj_name b)))).

(** Every entry is stored under its own [dj_name], and the keys ascend. *)
Definition wellKeyed (m : StableBTreeMap.t LeaderboardEntry.t) : Prop :=
  ascending m /\ Forall (fun p => LeaderboardEntry.dj_name (snd p) = fst p) m.

End V1.


(** ** Revision with [avg_rating : float64] (second document of [index.ts]) *)

Module V2.

Module Error.
Inductive t := Error | NotFound | InvalidPayload | PaymentFailed | PaymentCompleted.
End Error.

Module LeaderboardEntry.
Record t := mk {
  dj_name : string;
  total_tips : Z;
  total_ratings : Z;
  total_rating_points : Z;
  avg_rating : float64
}.
End LeaderboardEntry.

(** The stores that the tip, rating and leaderboard calls read or write. *)
Record State := mkState {
  usersStorage : StableBTreeMap.t User.t;
  tipsStorage : StableBTreeMap.t Tip.t;
  ratingsStorage : StableBTreeMap.t Rating.t;
  leaderboardStorage : StableBTreeMap.t LeaderboardEntry.t
}.

(** [createError(errorType, message)] returns [Err({ [errorType]: message })]. *)
Definition createError {T : Type} (errorType : Error.t) : Result T Error.t :=
  Err errorType.

Section Calls.
Context {js : JsString}.

(** [usersStorage.values().find((dj) => dj.name.toLowerCase() ===
    dj_name.trim().toLowerCase() && "DJ" in dj.role)] *)
Definition findDJ (users : StableBTreeMap.t User.t) (dj_name : string) : option User.t :=
  find (fun dj =>
          (toLowerCase (User.name dj) =? toLowerCase (trim dj_name))%string
          && is_DJ (User.role dj))
       (values users).

Definition createTip (st : State) (payload : Tip.t) (tipId : string) (time : Z)
  : Result Tip.t Error.t * State :=
  let user_id := Tip.user_id payload in
  let dj_name := Tip.dj_name payload in
  let amount := Tip.amount payload in
  if falsy dj_name || falsy user_id || (trim dj_name =? "")%string || (amount <=? 0)%Z
  then (createError Error.InvalidPayload, st)
  else
    match get (usersStorage st) user_id with
    | None => (createError Error.NotFound, st)
    | Some user =>
        if is_DJ (User.role user)
        then (createError Error.InvalidPayload, st)
        else
          match findDJ (usersStorage st) dj_name with
          | None => (createError Error.NotFound, st)
          | Some _ =>
              let tip :=
                {| Tip.id := tipId;
                   Tip.user_id := user_id;
                   Tip.dj_name := trim dj_name;
                   Tip.amount := amount;
                   Tip.tip_status := Pending;
                   Tip.created_at := time |} in
              let tips := insert (tipsStorage st) tipId tip in
              let leaderboard :=
                match get (leaderboardStorage st) (trim dj_name) with
                | Some leaderboardEntry =>
                    insert (leaderboardStorage st) (trim dj_name)
                      {| LeaderboardEntry.dj_name :=
                           LeaderboardEntry.dj_name leaderboardEntry;
                         LeaderboardEntry.total_tips :=
                           LeaderboardEntry.total_tips leaderboardEntry + amount;
                         LeaderboardEntry.total_ratings :=
                           LeaderboardEntry.total_ratings leaderboardEntry;
                         LeaderboardEntry.total_rating_points :=
                           LeaderboardEntry.total_rating_points leaderboardEntry;
                         LeaderboardEntry.avg_rating :=
                           LeaderboardEntry.avg_rating leaderboardEntry |}
                | None =>
                    insert (leaderboardStorage st) (trim dj_name)
                      {| LeaderboardEntry.dj_name := trim dj_name;
                         LeaderboardEntry.total_tips := amount;
                         LeaderboardEntry.total_ratings := 0;
                         LeaderboardEntry.total_rating_points := 0;
                         LeaderboardEntry.avg_rating := S754_zero false |}
                end in
              (Ok tip,
               {| usersStorage := usersStorage st;
                  tipsStorage := tips;
                  ratingsStorage := ratingsStorage st;
                  leaderboardStorage := leaderboard |})
          end
    end.

Definition createRating (st : State) (payload : Rating.t) (ratingId : string) (time : Z)
  : Result Rating.t Error.t * State :=
  let dj_name := Rating.dj_name payload in
  let rating := Rating.rating payload in
  let user_id := Rating.user_id payload in
  let review := Rating.review payload in
  if falsy dj_name || falsy user_id || (trim dj_name =? "")%string
     || (rating <? 1)%Z || (rating >? 5)%Z
  then (createError Error.InvalidPayload, st)
  else
    match get (usersStorage st) user_id with
    | None => (createError Error.NotFound, st)
    | Some _ =>
        match findDJ (usersStorage st) dj_name with
        | None => (createError Error.NotFound, st)
        | Some _ =>
            let newRating :=
              {| Rating.id := ratingId;
                 Rating.user_id := user_id;
                 Rating.dj_name := trim dj_name;
                 Rating.rating := rating;
                 Rating.review := if falsy review then "" else review;
                 Rating.created_at := time |} in
            let ratings := insert (ratingsStorage st) ratingId newRating in
            let leaderboard :=
              match get (leaderboardStorage st) (trim dj_name) with
              | Some leaderboardEntry =>
                  let total_ratings :=
                    LeaderboardEntry.total_ratings leaderboardEntry + 1 in
                  let total_rating_points :=
                    LeaderboardEntry.total_rating_points leaderboardEntry + rating in
                  insert (leaderboardStorage st) (trim dj_name)
                    {| LeaderboardEntry.dj_name :=
                         LeaderboardEntry.dj_name leaderboardEntry;
                       LeaderboardEntry.total_tips :=
                         LeaderboardEntry.total_tips leaderboardEntry;
                       LeaderboardEntry.total_ratings := total_ratings;
                       LeaderboardEntry.total_rating_points := total_rating_points;
                       LeaderboardEntry.avg_rating :=
                         f64_div (Number total_rating_points) (Number total_ratings) |}
              | None =>
                  insert (leaderboardStorage st) (trim dj_name)
                    {| LeaderboardEntry.dj_name := trim dj_name;
                       LeaderboardEntry.total_tips := 0;
                       LeaderboardEntry.total_ratings := 1;
                       LeaderboardEntry.total_rating_points := rating;
                       LeaderboardEntry.avg_rating := Number rating |}
              end in
            (Ok newRating,
             {| usersStorage := usersStorage st;
                tipsStorage := tipsStorage st;
                ratingsStorage := ratings;
                leaderboardStorage := leaderboard |})
        end
    end.

(** The [for ... of] loop of [searchDJsByRating]: every name that resolves
    to a DJ profile pushes that profile on [djs]. *)
Definition pushResolved (users : StableBTreeMap.t User.t)
  (djs : list User.t) (djName : string) : list User.t :=
  match find (fun user =>
                (toLowerCase (User.name user) =? toLowerCase djName)%string
                && is_DJ (User.role user))
             (values users) with
  | Some djOpt => djs ++ [djOpt]
  | None => djs
  end.

Definition searchDJsByRating (st : State) (rating : float64)
  : Result (list User.t) Error.t :=
  let leaderboardEntries := values (leaderboardStorage st) in
  let djNames :=
    map LeaderboardEntry.dj_name
      (filter (fun entry => f64_ge (LeaderboardEntry.avg_rating entry) rating)
         leaderboardEntries) in
  let djs := fold_left (pushResolved (usersStorage st)) djNames [] in
  if (Z.of_nat (List.length djs) =? 0)%Z
  then createError Error.NotFound
  else Ok djs.

Definition getLeaderboard (st : State)
  : Result (list LeaderboardEntry.t) Error.t :=
  let entries := values (leaderboardStorage st) in
  if (Z.of_nat (List.length entries) =? 0)%Z
  then createError Error.NotFound
  else Ok entries.

(** A sequence of update calls, each with the identifier and the time the
    environment hands to it. *)
Inductive Call :=
| CreateTip (payload : Tip.t) (tipId : string) (time : Z)
| CreateRating (payload : Rating.t) (ratingId : string) (time : Z).

Definition step (st : State) (c : Call) : State :=
  match c with
  | CreateTip payload tipId time => snd (createTip st payload tipId time)
  | CreateRating payload ratingId time => snd (createRating st payload ratingId time)
  end.

Definition run (st : State) (calls : list Call) : State :=
  fold_left step calls st.

(** *** Vocabulary of the statements *)

(** Whether a call answers [Ok]. *)
Definition accepted (st : State) (c : Call) : bool :=
  match c with
  | CreateTip payload tipId time => isOk (fst (createTip st payload tipId time))
  | CreateRating payload ratingId time =>
      isOk (fst (createRating st payload ratingId time))
  end.

(** Every call of the sequence answers [Ok] in the state it is made in. *)
Fixpoint allAccepted (st : State) (calls : list Call) : Prop :=
  match calls with
  | [] => True
  | c :: calls' => accepted st c = true /\ allAccepted (step st c) calls'
  end.

Definition tipCall (x : Tip.t * string * Z) : Call :=
  CreateTip (fst (fst x)) (snd (fst x)) (snd x).

Definition ratingCall (x : Rating.t * string * Z) : Call :=
  CreateRating (fst (fst x)) (snd (fst x)) (snd x).

(** The leaderboard key a tip or a rating payload is filed under. *)
Definition tipKey (x : Tip.t * string * Z) : string := trim (Tip.dj_name (fst (fst x))).
Definition ratingKey (x : Rating.t * string * Z) : string :=
  trim (Rating.dj_name (fst (fst x))).

Definition tipAmount (x : Tip.t * string * Z) : Z := Tip.amount (fst (fst x)).
Definition ratingValue (x : Rating.t * string * Z) : Z := Rating.rating (fst (fst x)).

(** [total_tips] of the entry stored under [key], [0] when there is none. *)
Definition totalTipsOf (st : State) (key : string) : Z :=
  match get (leaderboardStorage st) key with
  | Some entry => LeaderboardEntry.total_tips entry
  | None => 0
  end.

(** The relation between the three rating fields of an entry. *)
Definition consistent (entry : LeaderboardEntry.t) : Prop :=
  (0 < LeaderboardEntry.total_ratings entry ->
   LeaderboardEntry.avg_rating entry =
   f64_div (Number (LeaderboardEntry.total_rating_points entry))
           (Number (LeaderboardEntry.total_ratings entry)))
  /\ (LeaderboardEntry.total_ratings entry = 0 ->
      LeaderboardEntry.avg_rating entry = S754_zero false
      /\ LeaderboardEntry.total_rating_points entry = 0).

(** The invariant carried along a run: the count of ratings is not
    negative, the rating points lie between the count and five times the
    count, and the rating fields are consistent. *)
Definition sound (entry : LeaderboardEntry.t) : Prop :=
  0 <= LeaderboardEntry.total_ratings entry
  /\ LeaderboardEntry.total_ratings entry
     <= LeaderboardEntry.total_rating_points entry
     <= 5 * LeaderboardEntry.total_ratings entry
  /\ consistent entry.

(** The stored average is the quotient of the two stored counters. *)
Definition averaged (entry : LeaderboardEntry.t) : Prop :=
  LeaderboardEntry.avg_rating entry =
  f64_div (Number (LeaderboardEntry.total_rating_points entry))
          (Number (LeaderboardEntry.total_ratings entry)).

(** The profile a leaderboard name resolves to: the first stored user, in
    key order, with that name up to letter case and the DJ role. *)
Definition resolve (users : StableBTreeMap.t User.t) (djName : string) : option User.t :=
  find (fun user =>
          (toLowerCase (User.name user) =? toLowerCase djName)%string
          && is_DJ (User.role user))
       (values users).

(** The entries at or above a rating floor, each replaced by the profile it
    resolves to and dropped when it resolves to none. *)
Definition resolvedAbove (st : State) (rating : float64) : list User.t :=
  flat_map (fun entry =>
              match resolve (usersStorage st) (LeaderboardEntry.dj_name entry) with
              | Some user => [user]
              | None => []
              end)
    (filter (fun entry => f64_ge (LeaderboardEntry.avg_rating entry) rating)
       (values (leaderboardStorage st))).

End Calls.

(** The canister before any tip or rating: the users registered so far and
    empty tip, rating and leaderboard stores. *)
Definition init (users : StableBTreeMap.t User.t) : State :=
  {| usersStorage := users;
     tipsStorage := empty;
     ratingsStorage := empty;
     leaderboardStorage := empty |}.

End V2.


(** ** A concrete run *)

(** One DJ, "Nova", and one listener; three tips and three ratings. *)
Module Scenario.

Definition nova : User.t :=
  {| User.id := "dj-1"; User.name := "Nova"; User.contact := "nova@example.org";
     User.created_at := 1; User.status := Active; User.role := DJ;
     User.points := 0 |}.

Definition ann : User.t :=
  {| User.id := "fan-1"; User.name := "Ann"; User.contact := "ann@example.org";
     User.created_at := 2; User.status := Active; User.role := RegularUser;
     User.points := 0 |}.

Definition users : StableBTreeMap.t User.t :=
  insert (insert empty "dj-1" nova) "fan-1" ann.

Definition tip (user_id : string) (amount : Z) : Tip.t :=
  {| Tip.id := ""; Tip.user_id := user_id; Tip.dj_name := "Nova";
     Tip.amount := amount; Tip.tip_status := Pending; Tip.created_at := 0 |}.

Definition rating (value : Z) : Rating.t :=
  {| Rating.id := ""; Rating.user_id := "fan-1"; Rating.dj_name := "Nova";
     Rating.rating := value; Rating.review := ""; Rating.created_at := 0 |}.

Definition tips : list (Tip.t * string * Z) :=
  [(tip "fan-1" 10, "t1", 101); (tip "fan-1" 5, "t2", 102); (tip "fan-1" 20, "t3", 103)].

Definition ratings : list (Rating.t * string * Z) :=
  [(rating 5, "r1", 104); (rating 3, "r2", 105); (rating 4, "r3", 106)].

Definition calls : list V2.Call :=
  (map V2.tipCall tips ++ map V2.ratingCall ratings)%list.

Definition final : V2.State :=
  V2.run (js := AsciiText.builtins) (V2.init users) calls.

(** The binary64 numbers [4.0] and [4.1] (the latter is
    [0x4010666666666666]). *)
Definition four : float64 := S754_finite false 4503599627370496 (-50).
Definition four_point_one : float64 := S754_finite false 4616189618054758 (-50).

Definition expected : V2.LeaderboardEntry.t :=
  {| V2.LeaderboardEntry.dj_name := "Nova";
     V2.LeaderboardEntry.total_tips := 35;
     V2.LeaderboardEntry.total_ratings := 3;
     V2.LeaderboardEntry.total_rating_points := 12;
     V2.LeaderboardEntry.avg_rating := four |}.

(** The same calls on the revision with [avg_rating : nat64]. *)
Definition tipPayload (amount : Z) : V1.TipPayload.t :=
  {| V1.TipPayload.dj_name := "Nova"; V1.TipPayload.amount := amount;
     V1.TipPayload.user_id := "fan-1" |}.

Definition ratingPayload (value : Z) : V1.RatingPayload.t :=
  {| V1.RatingPayload.dj_name := "Nova"; V1.RatingPayload.rating := value;
     V1.RatingPayload.review := ""; V1.RatingPayload.user_id := "fan-1" |}.

Definition calls1 : list V1.Call :=
  [V1.CreateTip (tipPayload 10) "t1" 101; V1.CreateTip (tipPayload 5) "t2" 102;
   V1.CreateTip (tipPayload 20) "t3" 103;
   V1.CreateRating (ratingPayload 5) "r1" 104;
   V1.CreateRating (ratingPayload 3) "r2" 105;
   V1.CreateRating (ratingPayload 4) "r3" 106].

Definition final1 : V1.State :=
  V1.run (js := AsciiText.builtins) (V1.init users) calls1.

(** Two ratings, 5 then 3, and nothing else. *)
Definition twoRatings : V1.State :=
  V1.run (js := AsciiText.builtins) (V1.init users)
    [V1.CreateRating (ratingPayload 5) "r1" 104;
     V1.CreateRating (ratingPayload 3) "r2" 105].

(** Single calls of revision [V2] on the store without any entry. *)
Definition firstTip : Result Tip.t V2.Error.t * V2.State :=
  V2.createTip (js := AsciiText.builtins) (V2.init users) (tip "fan-1" 10) "t1" 101.

Definition firstRating : Result Rating.t V2.Error.t * V2.State :=
  V2.createRating (js := AsciiText.builtins) (V2.init users) (rating 5) "r1" 104.

(** A second rating, on the store that holds the first. *)
Definition secondRating : Result Rating.t V2.Error.t * V2.State :=
  V2.createRating (js := AsciiText.builtins) (snd firstRating) (rating 3) "r2" 105.

Definition storedTip : Tip.t :=
  {| Tip.id := "t1"; Tip.user_id := "fan-1"; Tip.dj_name := "Nova";
     Tip.amount := 10; Tip.tip_status := Pending; Tip.created_at := 101 |}.

Definition storedRating (ratingId : string) (value time : Z) : Rating.t :=
  {| Rating.id := ratingId; Rating.user_id := "fan-1"; Rating.dj_name := "Nova";
     Rating.rating := value; Rating.review := ""; Rating.created_at := time |}.

(** Tips of revision [V1] under three names, two of them equal up to letter
    case. *)
Definition namedTip (dj_name : string) (amount : Z) : V1.TipPayload.t :=
  {| V1.TipPayload.dj_name := dj_name; V1.TipPayload.amount := amount;
     V1.TipPayload.user_id := "fan-1" |}.

Definition threeNames : V1.State :=
  V1.run (js := AsciiText.builtins) (V1.init users)
    [V1.CreateTip (namedTip "Nova" 5) "t1" 101;
     V1.CreateTip (namedTip "NOVA" 5) "t2" 102;
     V1.CreateTip (namedTip "Ann" 9) "t3" 103].

(** Two tips of revision [V2] whose names differ in letter case. *)
Definition twoSpellings : V2.State :=
  V2.run (js := AsciiText.builtins) (V2.init users)
    [V2.CreateTip (tip "fan-1" 10) "t1" 101;
     V2.CreateTip
       {| Tip.id := ""; Tip.user_id := "fan-1"; Tip.dj_name := " nova ";
          Tip.amount := 5; Tip.tip_status := Pending; Tip.created_at := 0 |}
       "t2" 102].

End Scenario.

Module E1 := V1.LeaderboardEntry.
Module E2 := V2.LeaderboardEntry.

(** ** The calls outside the tip and rating flow *)

(** [StableBTreeMap.remove(key)] belongs to azle like the rest of the store
    and is not part of the source; the contract that the spec gives for the
    store does not list it.  The embedding takes it to delete the entry
    under the key and to leave every other entry in place. *)
Definition remove {V : Type} (m : StableBTreeMap.t V) (k : string)
  : StableBTreeMap.t V :=
  filter (fun p => negb (fst p =? k)%string) m.

(** [!role] for a value of the variant [UserRole]: a variant value is an
    object, and no object is falsy. *)
Definition falsy_role (role : UserRole) : bool := false.

(** [!n] for a BigInt [n]: [0n] is the only falsy BigInt. *)
Definition falsy_bigint (n : Z) : bool := (n =? 0)%Z.

Module RequestStatus.
Inductive t := Pending | Played.
End RequestStatus.

Module SongRequest.
Record t := mk {
  id : string;
  user_id : string;
  song_name : string;
  request_status : RequestStatus.t;
  created_at : Z
}.
End SongRequest.

Module Event.
Record t := mk {
  id : string;
  event_name : string;
  dj_name : string;
  venue : string;
  capacity : Z;
  scheduled_at : Z;
  created_at : Z
}.
End Event.

Module Playlist.
Record t := mk {
  id : string;
  dj_name : string;
  event_id : string;
  song_list : list string;
  created_at : Z
}.
End Playlist.


(** ** The leaderboard against the records it is built from *)

Module V2Ledger.

(** The stored tips and ratings filed under a leaderboard key. *)
Definition tipsOf (st : V2.State) (key : string) : list Tip.t :=
  filter (fun tip => (Tip.dj_name tip =? key)%string) (values (V2.tipsStorage st)).

Definition ratingsOf (st : V2.State) (key : string) : list Rating.t :=
  filter (fun rating => (Rating.dj_name rating =? key)%string)
    (values (V2.ratingsStorage st)).

(** [total_ratings] and [total_rating_points] of the entry stored under
    [key], [0] when there is none. *)
Definition totalRatingsOf (st : V2.State) (key : string) : Z :=
  match get (V2.leaderboardStorage st) key with
  | Some entry => V2.LeaderboardEntry.total_ratings entry
  | None => 0
  end.

Definition totalPointsOf (st : V2.State) (key : string) : Z :=
  match get (V2.leaderboardStorage st) key with
  | Some entry => V2.LeaderboardEntry.total_rating_points entry
  | None => 0
  end.

(** Every entry is stored under its own [dj_name], and the keys ascend. *)
Definition wellKeyed (m : StableBTreeMap.t V2.LeaderboardEntry.t) : Prop :=
  ascending m /\ Forall (fun p => V2.LeaderboardEntry.dj_name (snd p) = fst p) m.

(** What one accepted call adds to the three counters of its entry. *)
Definition tipShare (c : V2.Call) : Z :=
  match c with
  | V2.CreateTip payload _ _ => Tip.amount payload
  | V2.CreateRating _ _ _ => 0
  end.

Definition countShare (c : V2.Call) : Z :=
  match c with
  | V2.CreateTip _ _ _ => 0
  | V2.CreateRating _ _ _ => 1
  end.

Definition pointShare (c : V2.Call) : Z :=
  match c with
  | V2.CreateTip _ _ _ => 0
  | V2.CreateRating payload _ _ => Rating.rating payload
  end.

Section Ledger.
Context {js : JsString}.

(** The leaderboard key of a call. *)
Definition callKey (c : V2.Call) : string :=
  match c with
  | V2.CreateTip payload _ _ => trim (Tip.dj_name payload)
  | V2.CreateRating payload _ _ => trim (Rating.dj_name payload)
  end.

(** The entry of [key] computed in one pass over a list of calls that were
    all accepted: none when no call has the key, and otherwise the sums of
    the shares with the quotient of the points by the count. *)
Definition recount (key : string) (calls : list V2.Call)
  : option V2.LeaderboardEntry.t :=
  match filter (fun c => (callKey c =? key)%string) calls with
  | [] => None
  | mine =>
      let total_ratings := sumZ (map countShare mine) in
      let total_rating_points := sumZ (map pointShare mine) in
      Some {| V2.LeaderboardEntry.dj_name := key;
              V2.LeaderboardEntry.total_tips := sumZ (map tipShare mine);
              V2.LeaderboardEntry.total_ratings := total_ratings;
              V2.LeaderboardEntry.total_rating_points := total_rating_points;
              V2.LeaderboardEntry.avg_rating :=
                if (total_ratings =? 0)%Z then S754_zero false
                else f64_div (Number total_rating_points) (Number total_ratings) |}
  end.

(** The identifier of a call is not a key of the store the call files its
    record in. *)
Definition freshId (st : V2.State) (c : V2.Call) : Prop :=
  match c with
  | V2.CreateTip _ tipId _ => get (V2.tipsStorage st) tipId = None
  | V2.CreateRating _ ratingId _ => get (V2.ratingsStorage st) ratingId = None
  end.

(** What holds of a tip stored under [tipId] and of a rating stored under
    [ratingId]. *)
Definition tipSound (tipId : string) (tip : Tip.t) : Prop :=
  Tip.id tip = tipId /\ 0 < Tip.amount tip /\ Tip.tip_status tip = Pending.

Definition ratingSound (ratingId : string) (rating : Rating.t) : Prop :=
  Rating.id rating = ratingId /\ 1 <= Rating.rating rating <= 5.

(** The three counters of the entry of [key] agree with the stored tips and
    ratings filed under [key]. *)
Definition agrees (st : V2.State) (key : string) : Prop :=
  V2.totalTipsOf st key = sumZ (map Tip.amount (tipsOf st key))
  /\ totalRatingsOf st key = Z.of_nat (List.length (ratingsOf st key))
  /\ totalPointsOf st key = sumZ (map Rating.rating (ratingsOf st key)).

End Ledger.

End V2Ledger.

(** ** The range of [nat64] *)

(** The three counters of a [LeaderboardEntry] are declared [nat64], while
    the source adds to them as BigInts, without a bound.  An entry is a
    record of the store only once it has been encoded with its declared
    types: [leaderboardStorage.insert] throws on a counter outside the
    range of [nat64], the exception is caught nowhere in the source, and a
    call that ends in an exception is a trap, which leaves every store as it
    was before the call.  The fields of a payload and [ic.time()] arrive as
    [nat64] values; the counters are the only [nat64] values that the calls
    compute.  The calls of [V2] say what a call does when it runs to its
    end; this module adds the trap. *)
Module V2Nat64.

Definition nat64_range (n : Z) : bool := (0 <=? n)%Z && (n <? 2 ^ 64)%Z.

(** Whether the counters of an entry are in the range of their type. *)
Definition encodes (entry : V2.LeaderboardEntry.t) : bool :=
  nat64_range (V2.LeaderboardEntry.total_tips entry)
  && nat64_range (V2.LeaderboardEntry.total_ratings entry)
  && nat64_range (V2.LeaderboardEntry.total_rating_points entry).

Section Trap.
Context {js : JsString}.

(** The entry that a call hands to [leaderboardStorage.insert]: none when
    the call returns from one of its guards. *)
Definition written (st : V2.State) (c : V2.Call) : option V2.LeaderboardEntry.t :=
  if V2.accepted st c
  then get (V2.leaderboardStorage (V2.step st c)) (V2Ledger.callKey c)
  else None.

(** A call traps when the entry it writes does not encode. *)
Definition traps (st : V2.State) (c : V2.Call) : bool :=
  match written st c with
  | Some entry => negb (encodes entry)
  | None => false
  end.

(** A call returns [Ok] when it passes its guards and does not trap. *)
Definition returnsOk (st : V2.State) (c : V2.Call) : bool :=
  V2.accepted st c && negb (traps st c).

Definition step (st : V2.State) (c : V2.Call) : V2.State :=
  if traps st c then st else V2.step st c.

Definition run (st : V2.State) (calls : list V2.Call) : V2.State :=
  fold_left step calls st.

(** The calls of a sequence that return [Ok], each in the state it is made
    in. *)
Fixpoint served (st : V2.State) (calls : list V2.Call) : list V2.Call :=
  match calls with
  | [] => []
  | c :: calls' =>
      if returnsOk st c then c :: served (step st c) calls'
      else served (step st c) calls'
  end.

(** The totals of a sequence of calls fit: for the name of every call, the
    recount of the calls that pass the guards encodes. *)
Definition fits (users : StableBTreeMap.t User.t) (calls : list V2.Call) : bool :=
  let passing := filter (V2.accepted (V2.init users)) calls in
  forallb (fun c =>
             match V2Ledger.recount (V2Ledger.callKey c) passing with
             | Some entry => encodes entry
             | None => true
             end)
    passing.

End Trap.

End V2Nat64.

(** ** The whole canister of the revision with [avg_rating : float64] *)

Module V2Full.

(** The eight stores of the canister: the four of [V2.State], which the tip
    and rating calls work on, and the four that only the other calls
    touch. *)
Record State := mkState {
  core : V2.State;
  contactsStorage : StableBTreeMap.t string;
  songRequestsStorage : StableBTreeMap.t SongRequest.t;
  eventsStorage : StableBTreeMap.t Event.t;
  playlistsStorage : StableBTreeMap.t Playlist.t
}.

Definition usersStorage (st : State) : StableBTreeMap.t User.t :=
  V2.usersStorage (core st).

Definition tipsStorage (st : State) : StableBTreeMap.t Tip.t :=
  V2.tipsStorage (core st).

Definition ratingsStorage (st : State) : StableBTreeMap.t Rating.t :=
  V2.ratingsStorage (core st).

Definition leaderboardStorage (st : State) : StableBTreeMap.t V2.LeaderboardEntry.t :=
  V2.leaderboardStorage (core st).

(** The canister as deployed: every store is empty. *)
Definition init : State :=
  {| core := V2.init empty;
     contactsStorage := empty;
     songRequestsStorage := empty;
     eventsStorage := empty;
     playlistsStorage := empty |}.

Section Calls.
Context {js : JsString}.

Definition createUserProfile (st : State) (payload : User.t) (userId : string) (time : Z)
  : Result User.t V2.Error.t * State :=
  let name := User.name payload in
  let contact := User.contact payload in
  let role := User.role payload in
  if falsy name || falsy contact || falsy_role role
     || (trim name =? "")%string || (trim contact =? "")%string
  then (V2.createError V2.Error.InvalidPayload, st)
  else
    match get (contactsStorage st) (trim contact) with
    | Some _ => (V2.createError V2.Error.InvalidPayload, st)
    | None =>
        let user :=
          {| User.id := userId;
             User.name := trim name;
             User.contact := trim contact;
             User.role := role;
             User.created_at := time;
             User.status := Active;
             User.points := 0 |} in
        (Ok user,
         {| core :=
              {| V2.usersStorage := insert (usersStorage st) userId user;
                 V2.tipsStorage := tipsStorage st;
                 V2.ratingsStorage := ratingsStorage st;
                 V2.leaderboardStorage := leaderboardStorage st |};
            contactsStorage := insert (contactsStorage st) (trim contact) userId;
            songRequestsStorage := songRequestsStorage st;
            eventsStorage := eventsStorage st;
            playlistsStorage := playlistsStorage st |})
    end.

Definition getUserProfile (st : State) (userId : string) : Result User.t V2.Error.t :=
  match get (usersStorage st) userId with
  | None => V2.createError V2.Error.NotFound
  | Some user => Ok user
  end.

(** [{ ...userOpt.Some, name: ..., contact: ..., role: ... }] keeps the other
    four fields of the stored profile. *)
Definition updateUserProfile (st : State) (userId : string) (payload : User.t)
  : Result User.t V2.Error.t * State :=
  let name := User.name payload in
  let contact := User.contact payload in
  let role := User.role payload in
  if falsy name || falsy contact || falsy_role role
     || (trim name =? "")%string || (trim contact =? "")%string
  then (V2.createError V2.Error.InvalidPayload, st)
  else
    match get (usersStorage st) userId with
    | None => (V2.createError V2.Error.NotFound, st)
    | Some user =>
        if match get (contactsStorage st) (trim contact) with
           | Some existingUserId => negb (existingUserId =? userId)%string
           | None => false
           end
        then (V2.createError V2.Error.InvalidPayload, st)
        else
          let updatedUser :=
            {| User.id := User.id user;
               User.name := trim name;
               User.contact := trim contact;
               User.created_at := User.created_at user;
               User.status := User.status user;
               User.role := role;
               User.points := User.points user |} in
          (Ok updatedUser,
           {| core :=
                {| V2.usersStorage := insert (usersStorage st) userId updatedUser;
                   V2.tipsStorage := tipsStorage st;
                   V2.ratingsStorage := ratingsStorage st;
                   V2.leaderboardStorage := leaderboardStorage st |};
              contactsStorage := insert (contactsStorage st) (trim contact) userId;
              songRequestsStorage := songRequestsStorage st;
              eventsStorage := eventsStorage st;
              playlistsStorage := playlistsStorage st |})
    end.

Definition getUserProfiles (st : State) : Result (list User.t) V2.Error.t :=
  let users := values (usersStorage st) in
  if (Z.of_nat (List.length users) =? 0)%Z
  then V2.createError V2.Error.NotFound
  else Ok users.

Definition createSongRequest (st : State) (payload : SongRequest.t)
  (requestId : string) (time : Z)
  : Result SongRequest.t V2.Error.t * State :=
  let song_name := SongRequest.song_name payload in
  let user_id := SongRequest.user_id payload in
  if falsy song_name || falsy user_id || (trim song_name =? "")%string
  then (V2.createError V2.Error.InvalidPayload, st)
  else
    match get (usersStorage st) user_id with
    | None => (V2.createError V2.Error.NotFound, st)
    | Some user =>
        if is_DJ (User.role user)
        then (V2.createError V2.Error.InvalidPayload, st)
        else
          let songRequest :=
            {| SongRequest.id := requestId;
               SongRequest.user_id := user_id;
               SongRequest.song_name := trim song_name;
               SongRequest.request_status := RequestStatus.Pending;
               SongRequest.created_at := time |} in
          (Ok songRequest,
           {| core := core st;
              contactsStorage := contactsStorage st;
              songRequestsStorage :=
                insert (songRequestsStorage st) requestId songRequest;
              eventsStorage := eventsStorage st;
              playlistsStorage := playlistsStorage st |})
    end.

(** The tip and rating calls work on the four stores of [core]. *)
Definition createTip (st : State) (payload : Tip.t) (tipId : string) (time : Z)
  : Result Tip.t V2.Error.t * State :=
  let r := V2.createTip (core st) payload tipId time in
  (fst r,
   {| core := snd r;
      contactsStorage := contactsStorage st;
      songRequestsStorage := songRequestsStorage st;
      eventsStorage := eventsStorage st;
      playlistsStorage := playlistsStorage st |}).

Definition createRating (st : State) (payload : Rating.t) (ratingId : string) (time : Z)
  : Result Rating.t V2.Error.t * State :=
  let r := V2.createRating (core st) payload ratingId time in
  (fst r,
   {| core := snd r;
      contactsStorage := contactsStorage st;
      songRequestsStorage := songRequestsStorage st;
      eventsStorage := eventsStorage st;
      playlistsStorage := playlistsStorage st |}).

(** Both readings of [ic.time()] in one call return the time of that
    call. *)
Definition createEvent (st : State) (payload : Event.t) (eventId : string) (time : Z)
  : Result Event.t V2.Error.t * State :=
  let event_name := Event.event_name payload in
  let dj_name := Event.dj_name payload in
  let venue := Event.venue payload in
  let capacity := Event.capacity payload in
  let scheduled_at := Event.scheduled_at payload in
  if falsy event_name || falsy dj_name || falsy venue
     || (trim event_name =? "")%string
     || (trim dj_name =? "")%string
     || (trim venue =? "")%string
     || (capacity <=? 0)%Z
     || (scheduled_at <=? time)%Z
  then (V2.createError V2.Error.InvalidPayload, st)
  else
    let newEvent :=
      {| Event.id := eventId;
         Event.event_name := trim event_name;
         Event.dj_name := trim dj_name;
         Event.venue := trim venue;
         Event.capacity := capacity;
         Event.scheduled_at := scheduled_at;
         Event.created_at := time |} in
    (Ok newEvent,
     {| core := core st;
        contactsStorage := contactsStorage st;
        songRequestsStorage := songRequestsStorage st;
        eventsStorage := insert (eventsStorage st) eventId newEvent;
        playlistsStorage := playlistsStorage st |}).

Definition getEvent (st : State) (eventId : string) : Result Event.t V2.Error.t :=
  match get (eventsStorage st) eventId with
  | None => V2.createError V2.Error.NotFound
  | Some event => Ok event
  end.

Definition getAllEvents (st : State) : Result (list Event.t) V2.Error.t :=
  let events := values (eventsStorage st) in
  if (Z.of_nat (List.length events) =? 0)%Z
  then V2.createError V2.Error.NotFound
  else Ok events.

Definition createPlaylist (st : State) (payload : Playlist.t)
  (playlistId : string) (time : Z)
  : Result Playlist.t V2.Error.t * State :=
  let dj_name := Playlist.dj_name payload in
  let event_id := Playlist.event_id payload in
  let song_list := Playlist.song_list payload in
  if falsy dj_name || falsy event_id
     || (trim dj_name =? "")%string
     || (trim event_id =? "")%string
     || (Z.of_nat (List.length song_list) =? 0)%Z
  then (V2.createError V2.Error.InvalidPayload, st)
  else
    match get (eventsStorage st) event_id with
    | None => (V2.createError V2.Error.NotFound, st)
    | Some _ =>
        let newPlaylist :=
          {| Playlist.id := playlistId;
             Playlist.dj_name := trim dj_name;
             Playlist.event_id := event_id;
             Playlist.song_list := map (fun song => trim song) song_list;
             Playlist.created_at := time |} in
        (Ok newPlaylist,
         {| core := core st;
            contactsStorage := contactsStorage st;
            songRequestsStorage := songRequestsStorage st;
            eventsStorage := eventsStorage st;
            playlistsStorage := insert (playlistsStorage st) playlistId newPlaylist |})
    end.

Definition getPlaylistByDjName (st : State) (dj_name : string)
  : Result (list Playlist.t) V2.Error.t :=
  let playlists :=
    filter (fun playlist =>
              (toLowerCase (Playlist.dj_name playlist)
               =? toLowerCase (trim dj_name))%string)
      (values (playlistsStorage st)) in
  if (Z.of_nat (List.length playlists) =? 0)%Z
  then V2.createError V2.Error.NotFound
  else Ok playlists.

Definition searchDJsByRating (st : State) (rating : float64)
  : Result (list User.t) V2.Error.t :=
  V2.searchDJsByRating (core st) rating.

Definition getLeaderboard (st : State)
  : Result (list V2.LeaderboardEntry.t) V2.Error.t :=
  V2.getLeaderboard (core st).

(** The update calls of the canister, each with the identifier and the time
    the environment hands to it. *)
Inductive Call :=
| CreateUserProfile (payload : User.t) (userId : string) (time : Z)
| UpdateUserProfile (userId : string) (payload : User.t)
| CreateSongRequest (payload : SongRequest.t) (requestId : string) (time : Z)
| CreateTip (payload : Tip.t) (tipId : string) (time : Z)
| CreateRating (payload : Rating.t) (ratingId : string) (time : Z)
| CreateEvent (payload : Event.t) (eventId : string) (time : Z)
| CreatePlaylist (payload : Playlist.t) (playlistId : string) (time : Z).

Definition step (st : State) (c : Call) : State :=
  match c with
  | CreateUserProfile payload userId time =>
      snd (createUserProfile st payload userId time)
  | UpdateUserProfile userId payload => snd (updateUserProfile st userId payload)
  | CreateSongRequest payload requestId time =>
      snd (createSongRequest st payload requestId time)
  | CreateTip payload tipId time => snd (createTip st payload tipId time)
  | CreateRating payload ratingId time => snd (createRating st payload ratingId time)
  | CreateEvent payload eventId time => snd (createEvent st payload eventId time)
  | CreatePlaylist payload playlistId time =>
      snd (createPlaylist st payload playlistId time)
  end.

Definition run (st : State) (calls : list Call) : State :=
  fold_left step calls st.

(** *** Vocabulary of the statements *)

(** The calls that work on the four stores of [core], as calls of [V2]. *)
Definition coreCall (c : Call) : option V2.Call :=
  match c with
  | CreateTip payload tipId time => Some (V2.CreateTip payload tipId time)
  | CreateRating payload ratingId time => Some (V2.CreateRating payload ratingId time)
  | _ => None
  end.

(** The states the canister can be in: those a sequence of update calls
    leads to from the empty stores. *)
Definition reachable (st : State) : Prop :=
  exists calls, st = run init calls.

(** [contactsStorage] indexes the profiles: the contact of every stored
    profile leads to the key the profile is stored under. *)
Definition contactIndexed (st : State) : Prop :=
  forall userId user,
    get (usersStorage st) userId = Some user ->
    get (contactsStorage st) (User.contact user) = Some userId.

(** What holds of a profile stored under [userId]. *)
Definition profileSound (userId : string) (user : User.t) : Prop :=
  User.id user = userId
  /\ User.status user = Active
  /\ User.points user = 0
  /\ User.name user <> ""
  /\ User.contact user <> "".

(** What holds of an event stored under [eventId]. *)
Definition eventSound (eventId : string) (event : Event.t) : Prop :=
  Event.id event = eventId
  /\ 0 < Event.capacity event
  /\ Event.created_at event < Event.scheduled_at event
  /\ Event.event_name event <> ""
  /\ Event.dj_name event <> ""
  /\ Event.venue event <> "".

(** Every record that names a user or an event names a stored one. *)
Definition references (st : State) : Prop :=
  Forall (fun tip => get (usersStorage st) (Tip.user_id tip) <> None)
    (values (tipsStorage st))
  /\ Forall (fun rating => get (usersStorage st) (Rating.user_id rating) <> None)
       (values (ratingsStorage st))
  /\ Forall (fun request => get (usersStorage st) (SongRequest.user_id request) <> None)
       (values (songRequestsStorage st))
  /\ Forall (fun playlist => get (eventsStorage st) (Playlist.event_id playlist) <> None)
       (values (playlistsStorage st)).

(** The identifier of a tip or rating call is not a key of the store the
    call files its record in, for every call of the sequence. *)
Definition freshId (st : State) (c : Call) : Prop :=
  match coreCall c with
  | Some c2 => V2Ledger.freshId (core st) c2
  | None => True
  end.

Fixpoint freshIds (st : State) (calls : list Call) : Prop :=
  match calls with
  | [] => True
  | c :: calls' => freshId st c /\ freshIds (step st c) calls'
  end.

End Calls.

End V2Full.

(** ** The whole canister of the revision with [avg_rating : nat64] *)

Module V1Full.

Module UserProfilePayload.
Record t := mk {
  name : string;
  contact : string;
  role : UserRole
}.
End UserProfilePayload.

Module EventPayload.
Record t := mk {
  event_name : string;
  dj_name : string;
  venue : string;
  capacity : Z;
  scheduled_at : Z
}.
End EventPayload.

(** [SongRequestPayload] and [PlaylistPayload] are declared in [part_001]. *)
Module SongRequestPayload.
Record t := mk {
  song_name : string;
  user_id : string
}.
End SongRequestPayload.

Module PlaylistPayload.
Record t := mk {
  dj_name : string;
  event_id : string;
  song_list : list string
}.
End PlaylistPayload.

(** The stores of the canister: the four of [V1.State] and the three that
    only the other calls touch. *)
Record State := mkState {
  core : V1.State;
  songRequestsStorage : StableBTreeMap.t SongRequest.t;
  eventsStorage : StableBTreeMap.t Event.t;
  playlistsStorage : StableBTreeMap.t Playlist.t
}.

Definition usersStorage (st : State) : StableBTreeMap.t User.t :=
  V1.usersStorage (core st).

(** The canister as deployed: every store is empty. *)
Definition init : State :=
  {| core := V1.init empty;
     songRequestsStorage := empty;
     eventsStorage := empty;
     playlistsStorage := empty |}.

Definition withUsers (st : State) (users : StableBTreeMap.t User.t) : State :=
  {| core :=
       {| V1.usersStorage := users;
          V1.tipsStorage := V1.tipsStorage (core st);
          V1.ratingsStorage := V1.ratingsStorage (core st);
          V1.leaderboardStorage := V1.leaderboardStorage (core st) |};
     songRequestsStorage := songRequestsStorage st;
     eventsStorage := eventsStorage st;
     playlistsStorage := playlistsStorage st |}.

Definition withEvents (st : State) (events : StableBTreeMap.t Event.t) : State :=
  {| core := core st;
     songRequestsStorage := songRequestsStorage st;
     eventsStorage := events;
     playlistsStorage := playlistsStorage st |}.

Definition createUserProfile (st : State) (payload : UserProfilePayload.t)
  (userId : string) (time : Z)
  : Result User.t V1.Error.t * State :=
  if falsy (UserProfilePayload.name payload)
     || falsy (UserProfilePayload.contact payload)
     || falsy_role (UserProfilePayload.role payload)
  then (Err V1.Error.InvalidPayload, st)
  else
    let users := values (usersStorage st) in
    let contactExists :=
      existsb (fun user =>
                 (User.contact user =? UserProfilePayload.contact payload)%string)
        users in
    if contactExists
    then (Err V1.Error.InvalidPayload, st)
    else
      let user :=
        {| User.id := userId;
           User.name := UserProfilePayload.name payload;
           User.contact := UserProfilePayload.contact payload;
           User.role := UserProfilePayload.role payload;
           User.created_at := time;
           User.status := Active;
           User.points := 0 |} in
      (Ok user, withUsers st (insert (usersStorage st) userId user)).

Definition getUserProfile (st : State) (userId : string) : Result User.t V1.Error.t :=
  match get (usersStorage st) userId with
  | None => Err V1.Error.NotFound
  | Some user => Ok user
  end.

(** [{ ...userOpt.Some, ...payload }] takes the three fields of the payload
    and keeps the other four of the stored profile. *)
Definition updateUserProfile (st : State) (userId : string)
  (payload : UserProfilePayload.t)
  : Result User.t V1.Error.t * State :=
  if falsy (UserProfilePayload.name payload)
     || falsy (UserProfilePayload.contact payload)
     || falsy_role (UserProfilePayload.role payload)
  then (Err V1.Error.InvalidPayload, st)
  else
    match get (usersStorage st) userId with
    | None => (Err V1.Error.NotFound, st)
    | Some user =>
        let updatedUser :=
          {| User.id := User.id user;
             User.name := UserProfilePayload.name payload;
             User.contact := UserProfilePayload.contact payload;
             User.created_at := User.created_at user;
             User.status := User.status user;
             User.role := UserProfilePayload.role payload;
             User.points := User.points user |} in
        (Ok updatedUser, withUsers st (insert (usersStorage st) userId updatedUser))
    end.

Definition deleteUserProfile (st : State) (userId : string)
  : Result bool V1.Error.t * State :=
  match get (usersStorage st) userId with
  | None => (Err V1.Error.NotFound, st)
  | Some _ => (Ok true, withUsers st (remove (usersStorage st) userId))
  end.

Definition getUserProfiles (st : State) : Result (list User.t) V1.Error.t :=
  let users := values (usersStorage st) in
  if (Z.of_nat (List.length users) =? 0)%Z
  then Err V1.Error.NotFound
  else Ok users.

(** The canister object names [createEvent] twice; the later property of an
    object literal is the one in force, and it is the one embedded.  The
    earlier one differs by the missing test of [scheduled_at]. *)
Definition createEvent (st : State) (payload : EventPayload.t)
  (eventId : string) (time : Z)
  : Result Event.t V1.Error.t * State :=
  if falsy (EventPayload.event_name payload)
     || falsy (EventPayload.dj_name payload)
     || falsy (EventPayload.venue payload)
     || (EventPayload.capacity payload <=? 0)%Z
     || falsy_bigint (EventPayload.scheduled_at payload)
  then (Err V1.Error.InvalidPayload, st)
  else
    let event :=
      {| Event.id := eventId;
         Event.event_name := EventPayload.event_name payload;
         Event.dj_name := EventPayload.dj_name payload;
         Event.venue := EventPayload.venue payload;
         Event.capacity := EventPayload.capacity payload;
         Event.scheduled_at := EventPayload.scheduled_at payload;
         Event.created_at := time |} in
    (Ok event, withEvents st (insert (eventsStorage st) eventId event)).

(** [{ ...eventOpt.Some, ...payload }] takes the five fields of the payload
    and keeps [id] and [created_at] of the stored event. *)
Definition updateEvent (st : State) (eventId : string) (payload : EventPayload.t)
  : Result Event.t V1.Error.t * State :=
  if falsy (EventPayload.event_name payload)
     || falsy (EventPayload.dj_name payload)
     || falsy (EventPayload.venue payload)
     || (EventPayload.capacity payload <=? 0)%Z
  then (Err V1.Error.InvalidPayload, st)
  else
    match get (eventsStorage st) eventId with
    | None => (Err V1.Error.NotFound, st)
    | Some event =>
        let updatedEvent :=
          {| Event.id := Event.id event;
             Event.event_name := EventPayload.event_name payload;
             Event.dj_name := EventPayload.dj_name payload;
             Event.venue := EventPayload.venue payload;
             Event.capacity := EventPayload.capacity payload;
             Event.scheduled_at := EventPayload.scheduled_at payload;
             Event.created_at := Event.created_at event |} in
        (Ok updatedEvent, withEvents st (insert (eventsStorage st) eventId updatedEvent))
    end.

Definition deleteEvent (st : State) (eventId : string)
  : Result bool V1.Error.t * State :=
  match get (eventsStorage st) eventId with
  | None => (Err V1.Error.NotFound, st)
  | Some _ => (Ok true, withEvents st (remove (eventsStorage st) eventId))
  end.

(** The error of [getAllEvents] and [getEventByName] is a text, not a
    variant of [Error]. *)
Definition getAllEvents (st : State) : Result (list Event.t) unit :=
  let events := values (eventsStorage st) in
  if (Z.of_nat (List.length events) =? 0)%Z
  then Err tt
  else Ok events.

Definition getEventByName (st : State) (event_name : string) : Result Event.t unit :=
  match find (fun event => (Event.event_name event =? event_name)%string)
          (values (eventsStorage st)) with
  | None => Err tt
  | Some event => Ok event
  end.

Definition createSongRequest (st : State) (payload : SongRequestPayload.t)
  (requestId : string) (time : Z)
  : Result SongRequest.t V1.Error.t * State :=
  if falsy (SongRequestPayload.song_name payload)
     || falsy (SongRequestPayload.user_id payload)
  then (Err V1.Error.InvalidPayload, st)
  else
    match get (usersStorage st) (SongRequestPayload.user_id payload) with
    | None => (Err V1.Error.NotFound, st)
    | Some user =>
        if is_DJ (User.role user)
        then (Err V1.Error.InvalidPayload, st)
        else
          let songRequest :=
            {| SongRequest.id := requestId;
               SongRequest.user_id := SongRequestPayload.user_id payload;
               SongRequest.song_name := SongRequestPayload.song_name payload;
               SongRequest.request_status := RequestStatus.Pending;
               SongRequest.created_at := time |} in
          (Ok songRequest,
           {| core := core st;
              songRequestsStorage :=
                insert (songRequestsStorage st) requestId songRequest;
              eventsStorage := eventsStorage st;
              playlistsStorage := playlistsStorage st |})
    end.

Definition createPlaylist (st : State) (payload : PlaylistPayload.t)
  (playlistId : string) (time : Z)
  : Result Playlist.t V1.Error.t * State :=
  if falsy (PlaylistPayload.dj_name payload)
     || (Z.of_nat (List.length (PlaylistPayload.song_list payload)) =? 0)%Z
     || falsy (PlaylistPayload.event_id payload)
  then (Err V1.Error.InvalidPayload, st)
  else
    match get (eventsStorage st) (PlaylistPayload.event_id payload) with
    | None => (Err V1.Error.NotFound, st)
    | Some _ =>
        let playlist :=
          {| Playlist.id := playlistId;
             Playlist.dj_name := PlaylistPayload.dj_name payload;
             Playlist.event_id := PlaylistPayload.event_id payload;
             Playlist.song_list := PlaylistPayload.song_list payload;
             Playlist.created_at := time |} in
        (Ok playlist,
         {| core := core st;
            songRequestsStorage := songRequestsStorage st;
            eventsStorage := eventsStorage st;
            playlistsStorage := insert (playlistsStorage st) playlistId playlist |})
    end.

Definition getPlaylistByDjName (st : State) (dj_name : string)
  : Result (list Playlist.t) V1.Error.t :=
  let playlists :=
    filter (fun playlist => (Playlist.dj_name playlist =? dj_name)%string)
      (values (playlistsStorage st)) in
  if (Z.of_nat (List.length playlists) =? 0)%Z
  then Err V1.Error.NotFound
  else Ok playlists.

(** [playlist.event_id === event_id] with [event_id] the [nat64] argument
    of [getPlaylistByEventId]: the left side is a string and the right side
    a BigInt, and [===] is false on values of different types. *)
Definition strict_equal_text_nat64 (s : string) (n : Z) : bool := false.

Definition getPlaylistByEventId (st : State) (event_id : Z)
  : Result (list Playlist.t) V1.Error.t :=
  let playlists :=
    filter (fun playlist =>
              strict_equal_text_nat64 (Playlist.event_id playlist) event_id)
      (values (playlistsStorage st)) in
  if (Z.of_nat (List.length playlists) =? 0)%Z
  then Err V1.Error.NotFound
  else Ok playlists.

Section Calls.
Context {js : JsString}.

(** The tip and rating calls work on the four stores of [core]. *)
Definition createTip (st : State) (payload : V1.TipPayload.t) (tipId : string)
  (time : Z) : Result Tip.t V1.Error.t * State :=
  let r := V1.createTip (core st) payload tipId time in
  (fst r,
   {| core := snd r;
      songRequestsStorage := songRequestsStorage st;
      eventsStorage := eventsStorage st;
      playlistsStorage := playlistsStorage st |}).

Definition createRating (st : State) (payload : V1.RatingPayload.t)
  (ratingId : string) (time : Z) : Result Rating.t V1.Error.t * State :=
  let r := V1.createRating (core st) payload ratingId time in
  (fst r,
   {| core := snd r;
      songRequestsStorage := songRequestsStorage st;
      eventsStorage := eventsStorage st;
      playlistsStorage := playlistsStorage st |}).

(** The update calls of the canister. *)
Inductive Call :=
| CreateUserProfile (payload : UserProfilePayload.t) (userId : string) (time : Z)
| UpdateUserProfile (userId : string) (payload : UserProfilePayload.t)
| DeleteUserProfile (userId : string)
| CreateEvent (payload : EventPayload.t) (eventId : string) (time : Z)
| UpdateEvent (eventId : string) (payload : EventPayload.t)
| DeleteEvent (eventId : string)
| CreateSongRequest (payload : SongRequestPayload.t) (requestId : string) (time : Z)
| CreateTip (payload : V1.TipPayload.t) (tipId : string) (time : Z)
| CreateRating (payload : V1.RatingPayload.t) (ratingId : string) (time : Z)
| CreatePlaylist (payload : PlaylistPayload.t) (playlistId : string) (time : Z).

Definition step (st : State) (c : Call) : State :=
  match c with
  | CreateUserProfile payload userId time =>
      snd (createUserProfile st payload userId time)
  | UpdateUserProfile userId payload => snd (updateUserProfile st userId payload)
  | DeleteUserProfile userId => snd (deleteUserProfile st userId)
  | CreateEvent payload eventId time => snd (createEvent st payload eventId time)
  | UpdateEvent eventId payload => snd (updateEvent st eventId payload)
  | DeleteEvent eventId => snd (deleteEvent st eventId)
  | CreateSongRequest payload requestId time =>
      snd (createSongRequest st payload requestId time)
  | CreateTip payload tipId time => snd (createTip st payload tipId time)
  | CreateRating payload ratingId time => snd (createRating st payload ratingId time)
  | CreatePlaylist payload playlistId time =>
      snd (createPlaylist st payload playlistId time)
  end.

Definition run (st : State) (calls : list Call) : State :=
  fold_left step calls st.

End Calls.

(** *** Vocabulary of the statements *)

(** No two stored profiles have the same contact. *)
Definition uniqueContacts (users : StableBTreeMap.t User.t) : Prop :=
  forall userId1 userId2 user1 user2,
    get users userId1 = Some user1 ->
    get users userId2 = Some user2 ->
    User.contact user1 = User.contact user2 ->
    userId1 = userId2.

Definition isUpdateUserProfile (c : Call) : bool :=
  match c with
  | UpdateUserProfile _ _ => true
  | _ => false
  end.

(** What holds of an event stored under [eventId]. *)
Definition eventSound (eventId : string) (event : Event.t) : Prop :=
  Event.id event = eventId
  /\ 0 < Event.capacity event
  /\ Event.event_name event <> ""
  /\ Event.dj_name event <> ""
  /\ Event.venue event <> "".

End V1Full.

(** ** A concrete run of each whole canister *)

(** A DJ and a listener register; an event with a playlist follows, then a
    song request, a tip and two ratings; at the end the listener moves to a
    new contact. *)
Module Journey.

Definition profile (name contact : string) (role : UserRole) : User.t :=
  {| User.id := ""; User.name := name; User.contact := contact;
     User.created_at := 0; User.status := Active; User.role := role;
     User.points := 0 |}.

Definition launch : Event.t :=
  {| Event.id := ""; Event.event_name := "Launch"; Event.dj_name := "Nova";
     Event.venue := " Hall "; Event.capacity := 100; Event.scheduled_at := 500;
     Event.created_at := 0 |}.

Definition opening : Playlist.t :=
  {| Playlist.id := ""; Playlist.dj_name := "Nova"; Playlist.event_id := "e1";
     Playlist.song_list := [" One "; "Two"]; Playlist.created_at := 0 |}.

Definition wish : SongRequest.t :=
  {| SongRequest.id := ""; SongRequest.user_id := "fan-1";
     SongRequest.song_name := "One";
     SongRequest.request_status := RequestStatus.Pending;
     SongRequest.created_at := 0 |}.

Definition registration : V2Full.Call :=
  V2Full.CreateUserProfile (profile " Nova " "nova@example.org" DJ) "dj-1" 1.

Definition later : list V2Full.Call :=
  [V2Full.CreateUserProfile (profile "Ann" "ann@example.org" RegularUser) "fan-1" 2;
   V2Full.CreateEvent launch "e1" 3;
   V2Full.CreatePlaylist opening "p1" 4;
   V2Full.CreateSongRequest wish "s1" 5;
   V2Full.CreateTip (Scenario.tip "fan-1" 10) "t1" 101;
   V2Full.CreateRating (Scenario.rating 5) "r1" 104;
   V2Full.CreateRating (Scenario.rating 3) "r2" 105;
   V2Full.UpdateUserProfile "fan-1" (profile "Ann" "ann@example.net" RegularUser)].

Definition calls : list V2Full.Call := registration :: later.

Definition registered : V2Full.State :=
  V2Full.step (js := AsciiText.builtins) V2Full.init registration.

Definition final : V2Full.State :=
  V2Full.run (js := AsciiText.builtins) V2Full.init calls.

Definition storedNova : User.t :=
  {| User.id := "dj-1"; User.name := "Nova"; User.contact := "nova@example.org";
     User.created_at := 1; User.status := Active; User.role := DJ;
     User.points := 0 |}.

Definition storedAnn : User.t :=
  {| User.id := "fan-1"; User.name := "Ann"; User.contact := "ann@example.net";
     User.created_at := 2; User.status := Active; User.role := RegularUser;
     User.points := 0 |}.

Definition storedLaunch : Event.t :=
  {| Event.id := "e1"; Event.event_name := "Launch"; Event.dj_name := "Nova";
     Event.venue := "Hall"; Event.capacity := 100; Event.scheduled_at := 500;
     Event.created_at := 3 |}.

Definition novaEntry : V2.LeaderboardEntry.t :=
  {| V2.LeaderboardEntry.dj_name := "Nova";
     V2.LeaderboardEntry.total_tips := 10;
     V2.LeaderboardEntry.total_ratings := 2;
     V2.LeaderboardEntry.total_rating_points := 8;
     V2.LeaderboardEntry.avg_rating := Scenario.four |}.

(** A second DJ registers and is tipped. *)
Definition zaraTip : Tip.t :=
  {| Tip.id := ""; Tip.user_id := "fan-1"; Tip.dj_name := "Zara";
     Tip.amount := 7; Tip.tip_status := Pending; Tip.created_at := 0 |}.

Definition calls2 : list V2Full.Call :=
  (calls
   ++ [V2Full.CreateUserProfile (profile "Zara" "zara@example.org" DJ) "dj-2" 106;
       V2Full.CreateTip zaraTip "t2" 107])%list.

Definition final2 : V2Full.State :=
  V2Full.run (js := AsciiText.builtins) V2Full.init calls2.

Definition zaraEntry : V2.LeaderboardEntry.t :=
  {| V2.LeaderboardEntry.dj_name := "Zara";
     V2.LeaderboardEntry.total_tips := 7;
     V2.LeaderboardEntry.total_ratings := 0;
     V2.LeaderboardEntry.total_rating_points := 0;
     V2.LeaderboardEntry.avg_rating := S754_zero false |}.

(** Tips at the upper end of [nat64]. *)
Definition largeTip (amount : Z) (tipId : string) : V2.Call :=
  V2.CreateTip (Scenario.tip "fan-1" amount) tipId 101.

Definition largest : Z := 2 ^ 64 - 1.



(** The revision with [avg_rating : nat64]: two profiles, an event that is
    updated, and the deletion of a profile. *)
Definition payload1 (name contact : string) (role : UserRole)
  : V1Full.UserProfilePayload.t :=
  {| V1Full.UserProfilePayload.name := name;
     V1Full.UserProfilePayload.contact := contact;
     V1Full.UserProfilePayload.role := role |}.

Definition event1 (capacity : Z) : V1Full.EventPayload.t :=
  {| V1Full.EventPayload.event_name := "Launch";
     V1Full.EventPayload.dj_name := "Nova";
     V1Full.EventPayload.venue := "Hall";
     V1Full.EventPayload.capacity := capacity;
     V1Full.EventPayload.scheduled_at := 500 |}.

Definition setup1 : list V1Full.Call :=
  [V1Full.CreateUserProfile (payload1 "Nova" "nova@example.org" DJ) "dj-1" 1;
   V1Full.CreateUserProfile (payload1 "Ann" "ann@example.org" RegularUser) "fan-1" 2;
   V1Full.CreateUserProfile (payload1 "Bob" "bob@example.org" RegularUser) "fan-2" 3;
   V1Full.CreateEvent (event1 100) "e1" 4;
   V1Full.UpdateEvent "e1" (event1 150);
   V1Full.CreateTip (Scenario.tipPayload 10) "t1" 101].

Definition calls1 : list V1Full.Call :=
  (setup1 ++ [V1Full.DeleteUserProfile "fan-2"])%list.

Definition before1 : V1Full.State :=
  V1Full.run (js := AsciiText.builtins) V1Full.init setup1.

Definition final1 : V1Full.State :=
  V1Full.run (js := AsciiText.builtins) V1Full.init calls1.

Definition storedLaunch1 : Event.t :=
  {| Event.id := "e1"; Event.event_name := "Launch"; Event.dj_name := "Nova";
     Event.venue := "Hall"; Event.capacity := 150; Event.scheduled_at := 500;
     Event.created_at := 4 |}.

End Journey.

(** * Properties *)

(** A call that answers [Err] returned from one of its guards, before any
    insert: the case analysis follows the guards. *)
Ltac rejected_call :=
  repeat match goal with
         | |- context [if ?b then _ else _] => destruct b
         | |- context [match ?x with Some _ => _ | None => _ end] => destruct x
         end;
  let H := fresh in intros H; inversion H; reflexivity.

(** ** Key order *)

Lemma ascii_compare_trans (a b c : ascii) :
  Ascii.compare a b = Lt -> Ascii.compare b c = Lt -> Ascii.compare a c = Lt.
Proof.
  unfold Ascii.compare. rewrite !N.compare_lt_iff. apply N.lt_trans.
Qed.

Lemma key_lt_trans (k1 k2 k3 : string) :
  key_lt k1 k2 -> key_lt k2 k3 -> key_lt k1 k3.
Proof.
  unfold key_lt. revert k2 k3.
  induction k1 as [|a k1 IH]; intros [|b k2] [|c k3]; simpl; try congruence.
  destruct (Ascii.compare a b) eqn:Hab; try discriminate.
  - apply Ascii.compare_eq_iff in Hab. subst b.
    destruct (Ascii.compare a c); try congruence. apply IH.
  - destruct (Ascii.compare b c) eqn:Hbc; try discriminate.
    + apply Ascii.compare_eq_iff in Hbc. subst c. now rewrite Hab.
    + now rewrite (ascii_compare_trans a b c Hab Hbc).
Qed.

Lemma compare_refl (k : string) : String.compare k k = Eq.
Proof.
  induction k as [|a k IH]; simpl; [reflexivity|].
  unfold Ascii.compare. now rewrite N.compare_refl.
Qed.

Lemma compare_Eq_eqb (k k' : string) :
  String.compare k k' = Eq <-> (k =? k')%string = true.
Proof.
  rewrite String.eqb_eq. split.
  - apply String.compare_eq_iff.
  - intros ->. apply compare_refl.
Qed.

Lemma key_lt_neq (k k' : string) : key_lt k k' -> (k' =? k)%string = false.
Proof.
  unfold key_lt. intros H. apply String.eqb_neq. intros ->.
  rewrite compare_refl in H. discriminate.
Qed.

Lemma compare_Gt_lt (k k' : string) : String.compare k k' = Gt -> key_lt k' k.
Proof.
  unfold key_lt. intros H. rewrite String.compare_antisym, H. reflexivity.
Qed.

(** ** The store *)

Section StoreFacts.
Context {V : Type}.
Implicit Types (m : StableBTreeMap.t V) (k : string) (v : V).

Lemma get_insert_eq m k v : get (insert m k v) k = Some v.
Proof.
  induction m as [|[k' v'] m IH]; simpl.
  - now rewrite String.eqb_refl.
  - destruct (String.compare k k') eqn:Hc; simpl.
    + now rewrite String.eqb_refl.
    + now rewrite String.eqb_refl.
    + apply compare_Gt_lt, key_lt_neq in Hc. now rewrite Hc.
Qed.

Lemma get_insert_ne m k v k0 : k0 <> k -> get (insert m k v) k0 = get m k0.
Proof.
  intros Hne. apply String.eqb_neq in Hne.
  induction m as [|[k' v'] m IH]; simpl.
  - now rewrite Hne.
  - destruct (String.compare k k') eqn:Hc; simpl.
    + apply String.compare_eq_iff in Hc. subst k'. now rewrite Hne.
    + now rewrite Hne.
    + now rewrite IH.
Qed.

Lemma insert_fresh_Permutation m k v :
  get m k = None -> Permutation (insert m k v) ((k, v) :: m).
Proof.
  induction m as [|[k' v'] m IH]; simpl; intros Hg.
  - reflexivity.
  - destruct (String.compare k k') eqn:Hc.
    + apply compare_Eq_eqb in Hc. rewrite Hc in Hg. discriminate.
    + reflexivity.
    + destruct (k =? k')%string; [discriminate|].
      rewrite (IH Hg). apply perm_swap.
Qed.

Lemma values_insert_fresh m k v :
  get m k = None -> Permutation (values (insert m k v)) (v :: values m).
Proof.
  intros Hg. unfold values.
  now rewrite (insert_fresh_Permutation m k v Hg).
Qed.

Lemma In_values_insert m k v x :
  In x (values (insert m k v)) -> x = v \/ In x (values m).
Proof.
  unfold values. induction m as [|[k' v'] m IH]; simpl.
  - intuition.
  - destruct (String.compare k k'); simpl; intuition.
Qed.

Lemma get_In_values m k v : get m k = Some v -> In v (values m).
Proof.
  unfold values. induction m as [|[k' v'] m IH]; simpl; [discriminate|].
  destruct (k =? k')%string; intros H.
  - left. congruence.
  - right. auto.
Qed.

Lemma get_In m k v : get m k = Some v -> In (k, v) m.
Proof.
  induction m as [|[k' v'] m IH]; simpl; [discriminate|].
  destruct (k =? k')%string eqn:E; intros H.
  - left. apply String.eqb_eq in E. congruence.
  - right. auto.
Qed.

Lemma In_insert m k v p : In p (insert m k v) -> p = (k, v) \/ In p m.
Proof.
  induction m as [|[k' v'] m IH]; simpl.
  - intuition.
  - destruct (String.compare k k'); simpl; intuition.
Qed.

Lemma keys_insert_Forall (P : string -> Prop) m k v :
  P k -> Forall P (keys m) -> Forall P (keys (insert m k v)).
Proof.
  unfold keys. intros Hk. induction m as [|[k' v'] m IH]; simpl; intros HF.
  - auto.
  - inversion HF; subst. destruct (String.compare k k'); simpl; auto.
Qed.

Lemma ascending_insert m k v : ascending m -> ascending (insert m k v).
Proof.
  unfold ascending, keys.
  induction m as [|[k' v'] m IH]; simpl; intros Hs.
  - repeat constructor.
  - inversion Hs as [|? ? Hs' Hall]; subst.
    destruct (String.compare k k') eqn:Hc; simpl.
    + apply String.compare_eq_iff in Hc. subst k'. now constructor.
    + constructor; [assumption|]. constructor; [exact Hc|].
      eapply Forall_impl; [|exact Hall]. intros k2. now apply key_lt_trans.
    + constructor; [now apply IH|].
      apply (keys_insert_Forall (key_lt k')); [now apply compare_Gt_lt | exact Hall].
Qed.

Lemma ascending_empty : ascending (@empty V).
Proof. constructor. Qed.

End StoreFacts.

(** ** binary64 numbers: the sign of [Number(b)] *)

Lemma shr_1_lower_bound mrs a :
  0 <= a -> 2 * a <= shr_m mrs -> a <= shr_m (shr_1 mrs).
Proof.
  destruct mrs as [m r s]. intros Ha.
  destruct m as [|[p|p|]|[p|p|]]; cbn [shr_1 shr_m]; lia.
Qed.

Lemma pow2_xI p : 2 ^ Z.pos p~1 = 2 * (2 ^ Z.pos p * 2 ^ Z.pos p).
Proof.
  rewrite (Pos2Z.inj_xI p).
  replace (2 * Z.pos p + 1) with (Z.pos p + Z.pos p + 1) by lia.
  rewrite !Z.pow_add_r by lia. change (2 ^ 1) with 2. lia.
Qed.

Lemma pow2_xO p : 2 ^ Z.pos p~0 = 2 ^ Z.pos p * 2 ^ Z.pos p.
Proof.
  rewrite (Pos2Z.inj_xO p).
  replace (2 * Z.pos p) with (Z.pos p + Z.pos p) by lia.
  now rewrite Z.pow_add_r by lia.
Qed.

Lemma iter_shr_1_lower_bound p : forall mrs a,
  0 <= a -> 2 ^ Z.pos p * a <= shr_m mrs -> a <= shr_m (iter_pos shr_1 p mrs).
Proof.
  assert (Hpow : forall q, 0 < 2 ^ Z.pos q) by (intros; apply Z.pow_pos_nonneg; lia).
  induction p as [p IH|p IH|]; intros mrs a Ha H; simpl iter_pos.
  - specialize (Hpow p). rewrite pow2_xI in H.
    apply IH; [assumption|]. apply IH; [nia|]. apply shr_1_lower_bound; nia.
  - specialize (Hpow p). rewrite pow2_xO in H.
    apply IH; [assumption|]. apply IH; nia.
  - apply shr_1_lower_bound; assumption.
Qed.

Lemma digits2_pos_lower_bound p : 2 ^ (Z.pos (digits2_pos p) - 1) <= Z.pos p.
Proof.
  induction p as [p IH|p IH|]; simpl digits2_pos; [| |simpl; lia].
  - rewrite Pos2Z.inj_succ. replace (Z.succ (Z.pos (digits2_pos p)) - 1)
      with (Z.succ (Z.pos (digits2_pos p) - 1)) by lia.
    rewrite Z.pow_succ_r by lia. lia.
  - rewrite Pos2Z.inj_succ. replace (Z.succ (Z.pos (digits2_pos p)) - 1)
      with (Z.succ (Z.pos (digits2_pos p) - 1)) by lia.
    rewrite Z.pow_succ_r by lia. lia.
Qed.

(** Shifting a positive mantissa to its binary64 exponent leaves it positive,
    as long as the exponent is far from the subnormal range. *)
Lemma shr_fexp_positive m e l :
  0 < m -> -1073 <= e ->
  0 < shr_m (fst (shr_fexp 53 1024 m e l)) /\ e <= snd (shr_fexp 53 1024 m e l).
Proof.
  intros Hm He. unfold shr_fexp, shr.
  assert (Hrec : shr_m (shr_record_of_loc m l) = m)
    by (destruct l as [|[]]; reflexivity).
  destruct (fexp 53 1024 (Zdigits2 m + e) - e) as [|n|n] eqn:Hn; simpl fst; simpl snd;
    rewrite ?Hrec; try lia.
  split; [|lia].
  enough (1 <= shr_m (iter_pos shr_1 n (shr_record_of_loc m l))) by lia.
  apply iter_shr_1_lower_bound; [lia|]. rewrite Hrec, Z.mul_1_r.
  destruct m as [|p|p]; try lia.
  etransitivity; [|apply digits2_pos_lower_bound].
  apply Z.pow_le_mono_r; [lia|].
  unfold fexp, emin in Hn. simpl Zdigits2 in Hn. lia.
Qed.

Lemma round_nearest_even_ge m l : m <= round_nearest_even m l.
Proof.
  destruct l as [|[]]; simpl; try lia. destruct (Z.even m); lia.
Qed.

(** Rounding a positive mantissa yields a finite number or an infinity of
    the given sign: never a zero, never a NaN. *)
Lemma binary_round_aux_sign s m e l :
  0 < m -> -1073 <= e ->
  (exists m' e', binary_round_aux 53 1024 s m e l = S754_finite s m' e')
  \/ binary_round_aux 53 1024 s m e l = S754_infinity s.
Proof.
  intros Hm He. unfold binary_round_aux.
  destruct (shr_fexp_positive m e l Hm He) as [Hm1 He1].
  destruct (shr_fexp 53 1024 m e l) as [mrs' e'']. simpl fst in *. simpl snd in *.
  pose proof (round_nearest_even_ge (shr_m mrs') (loc_of_shr_record mrs')) as Hr.
  destruct (shr_fexp_positive (round_nearest_even (shr_m mrs') (loc_of_shr_record mrs'))
              e'' loc_Exact) as [Hm2 _]; [lia | lia |].
  destruct (shr_fexp 53 1024 _ e'' loc_Exact) as [mrs2 e2]. simpl fst in *.
  destruct (shr_m mrs2) as [|p|p]; try lia.
  destruct (e2 <=? 1024 - 53); [left; eauto | right; reflexivity].
Qed.

Lemma Number_sign p s :
  (exists m e, binary_round 53 1024 s p 0 = S754_finite s m e)
  \/ binary_round 53 1024 s p 0 = S754_infinity s.
Proof.
  unfold binary_round.
  destruct (shl_align p 0 (fexp 53 1024 (Z.pos (digits2_pos p) + 0))) as [mz ez] eqn:Hs.
  apply binary_round_aux_sign; [lia|].
  unfold shl_align in Hs.
  destruct (fexp 53 1024 (Z.pos (digits2_pos p) + 0) - 0) eqn:Hd;
    inversion Hs; subst; try lia.
  unfold fexp, emin. lia.
Qed.

Lemma f64_positive_Number z : f64_positive (Number z) = (0 <? z).
Proof.
  unfold Number, binary_normalize, f64_positive.
  destruct z as [|p|p].
  - reflexivity.
  - destruct (Number_sign p false) as [(m & e & ->)| ->]; reflexivity.
  - destruct (Number_sign p true) as [(m & e & ->)| ->]; reflexivity.
Qed.

(** ** binary64 numbers: the accuracy of the quotient of two integers *)

Lemma digits2_pos_upper_bound p : Z.pos p < 2 ^ Z.pos (digits2_pos p).
Proof.
  induction p as [p IH|p IH|]; simpl digits2_pos; [| |simpl; lia];
    rewrite Pos2Z.inj_succ, Z.pow_succ_r by lia; lia.
Qed.

(** The number of binary digits of a positive integer is determined by the
    powers of two that enclose it. *)
Lemma Zdigits2_unique z k :
  2 ^ (k - 1) <= z < 2 ^ k -> 0 < k -> Zdigits2 z = k.
Proof.
  intros [Hlo Hhi] Hk.
  assert (Hz : 0 < z) by (pose proof (Z.pow_pos_nonneg 2 (k - 1)); lia).
  destruct z as [|p|p]; try lia. simpl.
  pose proof (digits2_pos_lower_bound p) as Hl.
  pose proof (digits2_pos_upper_bound p) as Hu.
  set (d := Z.pos (digits2_pos p)) in *.
  destruct (Z.lt_trichotomy d k) as [H|[H|H]]; [|assumption|].
  - assert (2 ^ d <= 2 ^ (k - 1)) by (apply Z.pow_le_mono_r; lia). lia.
  - assert (2 ^ k <= 2 ^ (d - 1)) by (apply Z.pow_le_mono_r; lia). lia.
Qed.

Lemma iter_xO_value p n : Z.pos (Pos.iter xO p n) = Z.pos p * 2 ^ Z.pos n.
Proof.
  change (Pos.iter xO p n) with (shift_pos n p).
  rewrite shift_pos_correct, Z.pow_pos_fold. lia.
Qed.

(** A mantissa of 53 digits with an exponent in range is its own rounding. *)
Lemma binary_round_aux_exact s m e :
  Zdigits2 (Z.pos m) = 53 -> -1074 <= e <= 971 ->
  binary_round_aux 53 1024 s (Z.pos m) e loc_Exact = S754_finite s m e.
Proof.
  intros Hd He. unfold binary_round_aux, shr_fexp.
  rewrite Hd. unfold fexp, emin.
  replace (Z.max (53 + e - 53) (3 - 1024 - 53) - e) with 0 by lia.
  cbn [shr shr_record_of_loc shr_m loc_of_shr_record round_nearest_even].
  rewrite Hd.
  replace (Z.max (53 + e - 53) (3 - 1024 - 53) - e) with 0 by lia.
  cbn [shr shr_record_of_loc shr_m].
  replace (e <=? 1024 - 53) with true by (symmetry; apply Z.leb_le; lia).
  reflexivity.
Qed.

(** [Number(b)] is exact below [2^53]: a mantissa of 53 digits whose value
    is [b]. *)
Lemma Number_exact z :
  0 < z < 2 ^ 53 ->
  exists m e,
    Number z = S754_finite false m e
    /\ Zdigits2 (Z.pos m) = 53
    /\ -52 <= e <= 0
    /\ Z.pos m = z * 2 ^ (- e)
    /\ e = Zdigits2 z - 53.
Proof.
  intros [Hpos Hlt]. destruct z as [|p|p]; try lia.
  pose proof (digits2_pos_lower_bound p) as Hl.
  pose proof (digits2_pos_upper_bound p) as Hu.
  assert (Hd : Z.pos (digits2_pos p) <= 53).
  { destruct (Z.le_gt_cases (Z.pos (digits2_pos p)) 53) as [H|H]; [assumption|].
    assert (2 ^ 53 <= 2 ^ (Z.pos (digits2_pos p) - 1))
      by (apply Z.pow_le_mono_r; lia). lia. }
  unfold Number, binary_normalize, binary_round, shl_align.
  unfold fexp at 1 2. unfold emin.
  replace (Z.max (Z.pos (digits2_pos p) + 0 - 53) (3 - 1024 - 53))
    with (Z.pos (digits2_pos p) - 53) by lia.
  simpl Zdigits2.
  destruct (Z.pos (digits2_pos p) - 53 - 0) as [|n|n] eqn:Hn; try lia.
  - exists p, 0. rewrite binary_round_aux_exact by (simpl; lia).
    repeat split; lia.
  - exists (Pos.iter xO p n), (Z.pos (digits2_pos p) - 53).
    assert (Hv : Z.pos (Pos.iter xO p n) = Z.pos p * 2 ^ Z.pos n)
      by apply iter_xO_value.
    assert (Hdg : Zdigits2 (Z.pos (Pos.iter xO p n)) = 53).
    { apply Zdigits2_unique; [|lia]. rewrite Hv.
      replace 53 with (Z.pos (digits2_pos p) + Z.pos n) at 2 by lia.
      replace (53 - 1) with (Z.pos (digits2_pos p) - 1 + Z.pos n) by lia.
      rewrite !Z.pow_add_r by lia.
      pose proof (Z.pow_pos_nonneg 2 (Z.pos n)). nia. }
    rewrite binary_round_aux_exact by (try exact Hdg; lia).
    split; [reflexivity|]. split; [exact Hdg|]. split; [lia|]. split; [|reflexivity].
    rewrite Hv. f_equal. f_equal. lia.
Qed.

Lemma new_location_located b a :
  0 <= a < b -> located a b (new_location b a).
Proof.
  intros Hab. unfold new_location, new_location_even, new_location_odd.
  destruct (Z.even b) eqn:Hev; destruct (Z.eqb_spec a 0) as [E|E];
    try (exact E).
  - destruct (Z.compare_spec (2 * a) b); cbv beta iota delta [located]; lia.
  - assert (Hodd : Z.odd b = true) by (rewrite <- Z.negb_even, Hev; reflexivity).
    apply Z.odd_spec in Hodd. destruct Hodd as [c Hc].
    destruct (Z.compare_spec (2 * a + 1) b); cbv beta iota delta [located]; lia.
Qed.

Lemma round_nearest_even_located m a b l :
  0 <= a < b -> located a b l ->
  m <= round_nearest_even m l <= m + 1
  /\ 2 * Z.abs (b * round_nearest_even m l - (b * m + a)) <= b.
Proof.
  intros Hab Hl.
  destruct l as [|[]]; cbv beta iota delta [located round_nearest_even] in *;
    try destruct (Z.even m); lia.
Qed.

Lemma loc_of_shr_record_of_loc m l :
  loc_of_shr_record (shr_record_of_loc m l) = l.
Proof. destruct l as [|[]]; reflexivity. Qed.

Lemma shr_record_of_loc_m m l : shr_m (shr_record_of_loc m l) = m.
Proof. destruct l as [|[]]; reflexivity. Qed.

(** One shift to the right halves the mantissa and moves the lost bit into
    the location. *)
Lemma shr_1_located m a b l :
  0 < m -> 0 <= a < b -> located a b l ->
  let mrs := shr_1 (shr_record_of_loc m l) in
  exists bit,
    (bit = 0 \/ bit = 1)
    /\ m = 2 * shr_m mrs + bit
    /\ located (bit * b + a) (2 * b) (loc_of_shr_record mrs).
Proof.
  intros Hm Hab Hl. destruct m as [|p|p]; try lia.
  destruct p as [p|p|];
    [exists 1; pose proof (Pos2Z.inj_xI p)
    |exists 0; pose proof (Pos2Z.inj_xO p)
    |exists 1];
    (split; [lia|]);
    destruct l as [|[]];
    cbv beta iota zeta delta
      [located shr_1 shr_record_of_loc loc_of_shr_record shr_m orb] in *;
    lia.
Qed.

(** The last step of a rounding: a mantissa of 53 digits stays, the
    mantissa [2^53] becomes [2^52] with the next exponent. *)
Lemma shr_fexp_final m e :
  2 ^ 52 <= m <= 2 ^ 53 -> -1000 <= e <= 950 ->
  exists mf j,
    shr_m (fst (shr_fexp 53 1024 m e loc_Exact)) = Z.pos mf
    /\ snd (shr_fexp 53 1024 m e loc_Exact) = e + j
    /\ 0 <= j <= 1
    /\ Z.pos mf * 2 ^ j = m
    /\ 2 ^ 52 <= Z.pos mf < 2 ^ 53.
Proof.
  intros Hm He. unfold shr_fexp, fexp, emin.
  destruct (Z.eq_dec m (2 ^ 53)) as [->|Hne].
  - exists (Z.to_pos (2 ^ 52)), 1.
    replace (Zdigits2 (2 ^ 53)) with 54 by reflexivity.
    replace (Z.max (54 + e - 53) (3 - 1024 - 53) - e) with 1 by lia.
    repeat split; try reflexivity; try lia; discriminate.
  - rewrite (Zdigits2_unique m 53) by lia.
    replace (Z.max (53 + e - 53) (3 - 1024 - 53) - e) with 0 by lia.
    destruct m as [|p|p]; try lia.
    exists p, 0. cbn [shr shr_record_of_loc shr_m fst snd].
    repeat split; lia.
Qed.

(** Rounding to nearest even of a quotient [q + a / b] with 53 or 54
    digits: the result is a finite number within half a unit of its last
    place. *)
Lemma binary_round_aux_accurate q e a b l :
  2 ^ 52 <= q < 2 ^ 54 -> -1000 <= e <= 900 -> 0 <= a < b -> located a b l ->
  exists mf k,
    binary_round_aux 53 1024 false q e l = S754_finite false mf (e + k)
    /\ 0 <= k <= 2
    /\ 2 ^ 52 <= Z.pos mf < 2 ^ 53
    /\ 2 * Z.abs (b * (Z.pos mf * 2 ^ k) - (b * q + a)) <= b * 2 ^ k.
Proof.
  intros Hq He Hab Hl. unfold binary_round_aux.
  destruct (Z.lt_ge_cases q (2 ^ 53)) as [Hlt|Hge].
  - (* 53 digits: no first shift *)
    unfold shr_fexp at 1. unfold fexp, emin.
    rewrite (Zdigits2_unique q 53) by lia.
    replace (Z.max (53 + e - 53) (3 - 1024 - 53) - e) with 0 by lia.
    cbn [shr]. rewrite loc_of_shr_record_of_loc, shr_record_of_loc_m.
    destruct (round_nearest_even_located q a b l Hab Hl) as [Hr Hclose].
    destruct (shr_fexp_final (round_nearest_even q l) e)
      as (mf & j & Hm & Hj & Hjr & Hv & Hmf); [lia | lia |].
    destruct (shr_fexp 53 1024 (round_nearest_even q l) e loc_Exact) as [mrs e2].
    cbn [fst snd] in Hm, Hj. rewrite Hm, Hj.
    replace (e + j <=? 1024 - 53) with true by (symmetry; apply Z.leb_le; lia).
    exists mf, j. split; [reflexivity|]. split; [lia|]. split; [exact Hmf|].
    rewrite Hv. assert (1 <= 2 ^ j) by (apply Z.pow_le_mono_r with (b := 0); lia). nia.
  - (* 54 digits: one first shift *)
    unfold shr_fexp at 1. unfold fexp, emin.
    rewrite (Zdigits2_unique q 54) by lia.
    replace (Z.max (54 + e - 53) (3 - 1024 - 53) - e) with 1 by lia.
    cbn [shr iter_pos].
    destruct (shr_1_located q a b l) as (bit & Hbit & Hq2 & Hloc); [lia | exact Hab | exact Hl |].
    set (mrs := shr_1 (shr_record_of_loc q l)) in *.
    assert (Hab2 : 0 <= bit * b + a < 2 * b) by (destruct Hbit; subst bit; lia).
    destruct (round_nearest_even_located (shr_m mrs) _ _ _ Hab2 Hloc) as [Hr Hclose].
    destruct (shr_fexp_final (round_nearest_even (shr_m mrs) (loc_of_shr_record mrs)) (e + 1))
      as (mf & j & Hm & Hj & Hjr & Hv & Hmf); [lia | lia |].
    destruct (shr_fexp 53 1024 _ (e + 1) loc_Exact) as [mrs2 e2].
    cbn [fst snd] in Hm, Hj. rewrite Hm, Hj.
    replace (e + 1 + j <=? 1024 - 53) with true by (symmetry; apply Z.leb_le; lia).
    exists mf, (1 + j). split; [f_equal; lia|]. split; [lia|]. split; [exact Hmf|].
    rewrite Z.pow_add_r by lia. change (2 ^ 1) with 2.
    assert (1 <= 2 ^ j) by (apply Z.pow_le_mono_r with (b := 0); lia).
    replace (b * (Z.pos mf * (2 * 2 ^ j))) with (2 * b * (Z.pos mf * 2 ^ j)) by lia.
    rewrite Hv.
    replace (b * q + a) with (2 * b * shr_m mrs + (bit * b + a)) by lia. nia.
Qed.

Lemma mantissa53_bounds m :
  Zdigits2 (Z.pos m) = 53 -> 2 ^ 52 <= Z.pos m < 2 ^ 53.
Proof.
  simpl. intros Hd.
  pose proof (digits2_pos_lower_bound m) as Hl.
  pose proof (digits2_pos_upper_bound m) as Hu.
  rewrite Hd in Hl, Hu. exact (conj Hl Hu).
Qed.

(** The quotient of two binary64 numbers with full mantissas: a finite
    number within half a unit in the last place of the exact quotient. *)
Lemma SFdiv_accurate m1 e1 m2 e2 :
  Zdigits2 (Z.pos m1) = 53 -> Zdigits2 (Z.pos m2) = 53 ->
  -52 <= e1 <= 0 -> -52 <= e2 <= 0 ->
  exists mf k,
    f64_div (S754_finite false m1 e1) (S754_finite false m2 e2)
    = S754_finite false mf (e1 - e2 - 53 + k)
    /\ 0 <= k <= 2
    /\ 2 ^ 52 <= Z.pos mf < 2 ^ 53
    /\ 2 * Z.abs (Z.pos m2 * (Z.pos mf * 2 ^ k) - Z.pos m1 * 2 ^ 53)
       <= Z.pos m2 * 2 ^ k.
Proof.
  intros Hd1 Hd2 He1 He2.
  pose proof (mantissa53_bounds m1 Hd1) as Hm1.
  pose proof (mantissa53_bounds m2 Hd2) as Hm2.
  unfold f64_div, SFdiv, SFdiv_core_binary. rewrite Hd1, Hd2.
  unfold fexp, emin.
  replace (Z.min (Z.max (53 + e1 - (53 + e2) - 53) (3 - 1024 - 53)) (e1 - e2))
    with (e1 - e2 - 53) by lia.
  replace (e1 - e2 - (e1 - e2 - 53)) with 53 by lia.
  rewrite Z.shiftl_mul_pow2 by lia.
  pose proof (Z_div_mod (Z.pos m1 * 2 ^ 53) (Z.pos m2) eq_refl) as Hdiv.
  destruct (Z.div_eucl (Z.pos m1 * 2 ^ 53) (Z.pos m2)) as [q r].
  destruct Hdiv as [Hqr Hr].
  assert (Hq : 2 ^ 52 <= q < 2 ^ 54).
  { change (2 ^ 53) with 9007199254740992 in *.
    change (2 ^ 52) with 4503599627370496 in *.
    change (2 ^ 54) with 18014398509481984. nia. }
  destruct (binary_round_aux_accurate q (e1 - e2 - 53) r (Z.pos m2)
              (new_location (Z.pos m2) r))
    as (mf & k & Hres & Hk & Hmf & Hclose);
    [exact Hq | lia | exact Hr | now apply new_location_located |].
  exists mf, k. simpl xorb. rewrite Hres. split; [reflexivity|]. split; [exact Hk|].
  split; [exact Hmf|].
  rewrite Hqr. exact Hclose.
Qed.

(** The binary64 quotient of two integers below [2^53], the first at most
    eight times the second, lies within half a unit in the last place of
    their exact quotient: [|m * 2^e - S / N| <= 2^e / 2]. *)
Lemma f64_div_Number_accurate S N :
  0 < N -> 0 < S -> S < 8 * N -> S < 2 ^ 53 -> N < 2 ^ 53 ->
  f64_within_half_ulp S N (f64_div (Number S) (Number N)).
Proof.
  unfold f64_within_half_ulp.
  intros HN HS HSN HS53 HN53.
  destruct (Number_exact S (conj HS HS53)) as (m1 & e1 & -> & Hd1 & He1 & Hv1 & Hde1).
  destruct (Number_exact N (conj HN HN53)) as (m2 & e2 & -> & Hd2 & He2 & Hv2 & Hde2).
  destruct (SFdiv_accurate m1 e1 m2 e2 Hd1 Hd2 He1 He2)
    as (mf & k & Hres & Hk & Hmf & Hclose).
  exists mf, (e1 - e2 - 53 + k). split; [exact Hres|]. split; [exact Hmf|].
  (* the digits of S exceed the digits of N by three at most *)
  assert (Hdig : Zdigits2 S <= Zdigits2 N + 3).
  { destruct S as [|s|s]; try lia. destruct N as [|n|n]; try lia. simpl.
    pose proof (digits2_pos_lower_bound s) as Hs.
    pose proof (digits2_pos_upper_bound n) as Hn.
    destruct (Z.le_gt_cases (Z.pos (digits2_pos s)) (Z.pos (digits2_pos n) + 3))
      as [H|H]; [assumption|].
    assert (2 ^ (Z.pos (digits2_pos n) + 3) <= 2 ^ (Z.pos (digits2_pos s) - 1))
      by (apply Z.pow_le_mono_r; lia).
    rewrite Z.pow_add_r in * by lia. change (2 ^ 3) with 8 in *. lia. }
  split; [lia|].
  set (ef := e1 - e2 - 53 + k) in *.
  set (P := 2 ^ (- e2 + k)).
  assert (HP : 0 < P) by (apply Z.pow_pos_nonneg; lia).
  assert (E1 : Z.pos m2 * 2 ^ k = N * P).
  { rewrite Hv2. unfold P. rewrite Z.pow_add_r by lia. lia. }
  assert (E2 : Z.pos m1 * 2 ^ 53 = S * 2 ^ (- ef) * P).
  { rewrite Hv1. unfold P, ef.
    rewrite <- !Z.mul_assoc, <- !Z.pow_add_r by lia. f_equal. f_equal. lia. }
  assert (E3 : Z.pos m2 * (Z.pos mf * 2 ^ k) = N * Z.pos mf * P).
  { transitivity (Z.pos mf * (Z.pos m2 * 2 ^ k)); [ring | rewrite E1; ring]. }
  rewrite E3, E1, E2 in Hclose.
  replace (N * Z.pos mf * P - S * 2 ^ (- ef) * P)
    with ((N * Z.pos mf - S * 2 ^ (- ef)) * P) in Hclose by lia.
  rewrite Z.abs_mul, (Z.abs_eq P) in Hclose by lia.
  nia.
Qed.

(** ** Sorting *)

Section SortFacts.
Context {A : Type} (compareFn : A -> A -> float64).

Lemma sort_insert_Permutation x l : Permutation (sort_insert compareFn x l) (x :: l).
Proof.
  induction l as [|y l IH]; simpl; [reflexivity|].
  destruct (f64_positive _); [|reflexivity].
  rewrite IH. apply perm_swap.
Qed.

Lemma sort_Permutation l : Permutation (sort compareFn l) l.
Proof.
  induction l as [|x l IH]; simpl; [reflexivity|].
  rewrite sort_insert_Permutation. now constructor.
Qed.

End SortFacts.

(** A list that is strictly sorted is the only such arrangement of its
    elements. *)
Lemma StronglySorted_Permutation_eq {A : Type} (R : A -> A -> Prop) :
  (forall x y, R x y -> R y x -> False) ->
  forall l1 l2,
    StronglySorted R l1 -> StronglySorted R l2 -> Permutation l1 l2 -> l1 = l2.
Proof.
  intros Hasym. induction l1 as [|x l1 IH]; intros l2 H1 H2 HP.
  - apply Permutation_nil in HP. now subst.
  - destruct l2 as [|y l2]; [apply Permutation_sym, Permutation_nil in HP; discriminate|].
    inversion H1 as [|? ? H1' Hx]; subst. inversion H2 as [|? ? H2' Hy]; subst.
    rewrite Forall_forall in Hx, Hy.
    assert (Exy : x = y).
    { assert (Hin : In x (y :: l2))
        by (eapply Permutation_in; [exact HP | now left]).
      destruct Hin as [E|Hin]; [now symmetry|].
      assert (Hin' : In y (x :: l1))
        by (eapply Permutation_in; [apply Permutation_sym, HP | now left]).
      destruct Hin' as [E|Hin']; [assumption|].
      exfalso. exact (Hasym x y (Hx y Hin') (Hy x Hin)). }
    subst y. f_equal. apply IH; try assumption.
    eapply Permutation_cons_inv, HP.
Qed.

Lemma key_lt_asym (k1 k2 : string) : key_lt k1 k2 -> key_lt k2 k1 -> False.
Proof.
  intros H1 H2. pose proof (key_lt_trans _ _ _ H1 H2) as H.
  unfold key_lt in H. rewrite compare_refl in H. discriminate.
Qed.

Lemma ranksBefore_asym (a b : E1.t) :
  V1.ranksBefore a b -> V1.ranksBefore b a -> False.
Proof.
  unfold V1.ranksBefore.
  intros [H1|[E1 [H1|[E1' H1]]]] [H2|[E2 [H2|[E2' H2]]]]; try lia.
  exact (key_lt_asym _ _ H1 H2).
Qed.

Lemma compareTopDJs_positive a b :
  f64_positive (V1.compareTopDJs a b) = true <->
  E1.total_tips a < E1.total_tips b
  \/ (E1.total_tips a = E1.total_tips b /\ E1.avg_rating a < E1.avg_rating b).
Proof.
  unfold V1.compareTopDJs.
  destruct (Z.eqb_spec (E1.total_tips b) (E1.total_tips a)) as [E|E];
    rewrite f64_positive_Number, Z.ltb_lt; lia.
Qed.

Lemma sort_insert_ranked x l :
  StronglySorted V1.ranksBefore l ->
  Forall (fun y => key_lt (E1.dj_name x) (E1.dj_name y)) l ->
  StronglySorted V1.ranksBefore (sort_insert V1.compareTopDJs x l).
Proof.
  induction l as [|y l IH]; intros Hs Hk; simpl.
  - repeat constructor.
  - inversion Hs as [|? ? Hs' Hy]; subst. inversion Hk as [|? ? Hxy Hk']; subst.
    destruct (f64_positive (V1.compareTopDJs x y)) eqn:Hc.
    + apply compareTopDJs_positive in Hc.
      constructor; [now apply IH|].
      rewrite (sort_insert_Permutation V1.compareTopDJs x l).
      constructor; [|exact Hy]. unfold V1.ranksBefore. lia.
    + assert (Hn : ~ (E1.total_tips x < E1.total_tips y
                     \/ (E1.total_tips x = E1.total_tips y
                         /\ E1.avg_rating x < E1.avg_rating y))).
      { rewrite <- compareTopDJs_positive, Hc. discriminate. }
      constructor; [exact Hs|].
      constructor.
      * unfold V1.ranksBefore. 
        destruct (Z.lt_trichotomy (E1.total_tips x) (E1.total_tips y)) as [?|[?|?]];
        destruct (Z.lt_trichotomy (E1.avg_rating x) (E1.avg_rating y)) as [?|[?|?]];
          try lia; auto.
      * rewrite Forall_forall in *. intros z Hz.
        specialize (Hy z Hz). specialize (Hk' z Hz). unfold V1.ranksBefore in *.
        destruct (Z.lt_trichotomy (E1.total_tips x) (E1.total_tips z)) as [?|[?|?]];
        destruct (Z.lt_trichotomy (E1.avg_rating x) (E1.avg_rating z)) as [?|[?|?]];
          try lia; auto.
Qed.

Lemma sort_ranked l :
  StronglySorted key_lt (map E1.dj_name l) ->
  StronglySorted V1.ranksBefore (sort V1.compareTopDJs l).
Proof.
  induction l as [|x l IH]; simpl; intros Hs; [constructor|].
  inversion Hs as [|? ? Hs' Hx]; subst.
  apply sort_insert_ranked; [now apply IH|].
  rewrite (sort_Permutation V1.compareTopDJs l).
  now rewrite Forall_map in Hx.
Qed.

(** ** The revision with [avg_rating : nat64] *)

Section V1Facts.
Context {js : JsString}.

Lemma V1_createTip_Err st payload tipId time e st' :
  V1.createTip st payload tipId time = (Err e, st') -> st' = st.
Proof.
  unfold V1.createTip.
  rejected_call.
Qed.

Lemma V1_createTip_Ok st payload tipId time tip st' :
  V1.createTip st payload tipId time = (Ok tip, st') ->
  let key := V1.TipPayload.dj_name payload in
  let amount := V1.TipPayload.amount payload in
  0 < amount
  /\ V1.usersStorage st' = V1.usersStorage st
  /\ V1.leaderboardStorage st' =
     insert (V1.leaderboardStorage st) key
       match get (V1.leaderboardStorage st) key with
       | Some entry =>
           E1.mk (E1.dj_name entry) (E1.total_tips entry + amount)
             (E1.total_ratings entry) (E1.avg_rating entry)
       | None => E1.mk key amount 0 0
       end.
Proof.
  unfold V1.createTip. cbv zeta.
  destruct (falsy _ || (V1.TipPayload.amount payload <=? 0) || falsy _) eqn:Hv;
    [discriminate|].
  destruct (get (V1.usersStorage st) _) as [user|]; [|discriminate].
  destruct (is_DJ _); [discriminate|].
  destruct (find _ _); [|discriminate].
  intros H. inversion H; subst; clear H. simpl.
  apply orb_false_elim in Hv. destruct Hv as [Hv _].
  apply orb_false_elim in Hv. destruct Hv as [_ Hv]. apply Z.leb_gt in Hv.
  repeat split; try assumption.
  destruct (get (V1.leaderboardStorage st) _); reflexivity.
Qed.

Lemma V1_createRating_Err st payload ratingId time e st' :
  V1.createRating st payload ratingId time = (Err e, st') -> st' = st.
Proof.
  unfold V1.createRating.
  rejected_call.
Qed.

Lemma V1_createRating_Ok st payload ratingId time r st' :
  V1.createRating st payload ratingId time = (Ok r, st') ->
  let key := V1.RatingPayload.dj_name payload in
  V1.usersStorage st' = V1.usersStorage st
  /\ V1.leaderboardStorage st' =
     insert (V1.leaderboardStorage st) key
       match get (V1.leaderboardStorage st) key with
       | Some entry =>
           E1.mk (E1.dj_name entry) (E1.total_tips entry)
             (E1.total_ratings entry + 1)
             (Z.quot (E1.avg_rating entry * E1.total_ratings entry)
                     (E1.total_ratings entry + 1))
       | None => E1.mk key 0 1 (V1.RatingPayload.rating payload)
       end.
Proof.
  unfold V1.createRating. cbv zeta.
  destruct (falsy _ || falsy _); [discriminate|].
  destruct (get (V1.usersStorage st) _) as [user|]; [|discriminate].
  intros H. inversion H; subst; clear H. simpl.
  split; [reflexivity|].
  destruct (get (V1.leaderboardStorage st) _); reflexivity.
Qed.

Lemma V1_wellKeyed_insert m key entry :
  V1.wellKeyed m -> E1.dj_name entry = key -> V1.wellKeyed (insert m key entry).
Proof.
  intros [Ha Hn] He. split; [now apply ascending_insert|].
  rewrite Forall_forall in *.
  intros p Hp. apply In_insert in Hp. destruct Hp as [->|Hp]; auto.
Qed.

Lemma V1_wellKeyed_get m key entry :
  V1.wellKeyed m -> get m key = Some entry -> E1.dj_name entry = key.
Proof.
  intros [_ Hn] Hg. apply get_In in Hg.
  rewrite Forall_forall in Hn. exact (Hn _ Hg).
Qed.

Lemma V1_step_wellKeyed st c :
  V1.wellKeyed (V1.leaderboardStorage st) ->
  V1.wellKeyed (V1.leaderboardStorage (V1.step st c)).
Proof.
  intros Hw. destruct c as [payload tipId time | payload ratingId time]; simpl.
  - destruct (V1.createTip st payload tipId time) as [[tip|e] st'] eqn:Hc; simpl.
    + apply V1_createTip_Ok in Hc. cbv zeta in Hc. destruct Hc as (_ & _ & ->).
      apply V1_wellKeyed_insert; [exact Hw|].
      destruct (get _ _) as [entry|] eqn:Hg; simpl; [|reflexivity].
      eapply V1_wellKeyed_get; eassumption.
    + apply V1_createTip_Err in Hc. now subst.
  - destruct (V1.createRating st payload ratingId time) as [[r|e] st'] eqn:Hc; simpl.
    + apply V1_createRating_Ok in Hc. cbv zeta in Hc. destruct Hc as (_ & ->).
      apply V1_wellKeyed_insert; [exact Hw|].
      destruct (get _ _) as [entry|] eqn:Hg; simpl; [|reflexivity].
      eapply V1_wellKeyed_get; eassumption.
    + apply V1_createRating_Err in Hc. now subst.
Qed.

Lemma V1_run_wellKeyed calls : forall st,
  V1.wellKeyed (V1.leaderboardStorage st) ->
  V1.wellKeyed (V1.leaderboardStorage (V1.run st calls)).
Proof.
  induction calls as [|c calls IH]; intros st H; simpl; [exact H|].
  apply IH, V1_step_wellKeyed, H.
Qed.

Lemma V1_wellKeyed_names m :
  V1.wellKeyed m -> StronglySorted key_lt (map E1.dj_name (values m)).
Proof.
  intros [Ha Hn]. unfold ascending, keys in Ha. unfold values.
  rewrite map_map.
  erewrite map_ext_in; [exact Ha|].
  rewrite Forall_forall in Hn. exact Hn.
Qed.

(** C6.  On every store reached from the empty leaderboard, the top-DJs
    query returns the first five entries of the ranking of all entries: the
    ranking holds every entry once, more tips come first, equal tips are
    ordered by the higher average, and entries equal on both are ordered by
    ascending name.  The answer is a function of the set of entries: two
    reached stores with the same entries get the same answer. *)
Theorem V1_top_DJs_ranking users calls :
  let st := V1.run (V1.init users) calls in
  exists ranked,
    V1.getLeaderboardForTopDJs st = Ok (firstn 5 ranked)
    /\ Permutation ranked (values (V1.leaderboardStorage st))
    /\ StronglySorted V1.ranksBefore ranked
    /\ forall users' calls',
         let st' := V1.run (V1.init users') calls' in
         Permutation (values (V1.leaderboardStorage st'))
                     (values (V1.leaderboardStorage st)) ->
         V1.getLeaderboardForTopDJs st' = V1.getLeaderboardForTopDJs st.
Proof.
  intros st.
  assert (Hranked : forall users0 calls0,
            StronglySorted V1.ranksBefore
              (sort V1.compareTopDJs
                 (values (V1.leaderboardStorage (V1.run (V1.init users0) calls0))))).
  { intros. apply sort_ranked, V1_wellKeyed_names, V1_run_wellKeyed.
    split; [apply ascending_empty | constructor]. }
  exists (sort V1.compareTopDJs (values (V1.leaderboardStorage st))).
  repeat split.
  - apply sort_Permutation.
  - apply Hranked.
  - intros users' calls' st' HP. unfold V1.getLeaderboardForTopDJs. cbv zeta.
    do 2 f_equal.
    apply (StronglySorted_Permutation_eq V1.ranksBefore ranksBefore_asym);
      try apply Hranked.
    now rewrite !sort_Permutation.
Qed.

(** The tip path of revision [V1] rejects a tipper with the DJ role as the
    tip path of revision [V2] does. *)
Lemma V1_createTip_by_DJ_rejected st payload tipId time user :
  get (V1.usersStorage st) (V1.TipPayload.user_id payload) = Some user ->
  is_DJ (User.role user) = true ->
  V1.createTip st payload tipId time = (Err V1.Error.InvalidPayload, st).
Proof.
  intros Hu Hrole. unfold V1.createTip.
  destruct (falsy _ || _ || falsy _); [reflexivity|].
  now rewrite Hu, Hrole.
Qed.

(** The tip path of revision [V1] adds the amount to [total_tips] as the
    tip path of revision [V2] does. *)
Lemma V1_createTip_adds_amount st payload tipId time tip st' key :
  V1.createTip st payload tipId time = (Ok tip, st') ->
  0 < V1.TipPayload.amount payload
  /\ V1.totalTipsOf st' key =
     V1.totalTipsOf st key
     + (if (V1.TipPayload.dj_name payload =? key)%string
        then V1.TipPayload.amount payload else 0).
Proof.
  intros Hc. apply V1_createTip_Ok in Hc. cbv zeta in Hc.
  destruct Hc as (Hpos & _ & Hlb). split; [exact Hpos|].
  unfold V1.totalTipsOf. rewrite Hlb.
  destruct (String.eqb_spec (V1.TipPayload.dj_name payload) key) as [<-|Hne].
  - rewrite get_insert_eq. destruct (get _ _); simpl; lia.
  - rewrite get_insert_ne by (now apply not_eq_sym). lia.
Qed.

(** Hence the sum of the amounts, for a sequence of accepted tips of
    revision [V1] that name the same DJ. *)
Lemma V1_total_tips_is_sum st key tips :
  Forall (fun x => V1.tipKey x = key) tips ->
  V1.allAccepted st (map V1.tipCall tips) ->
  V1.totalTipsOf (V1.run st (map V1.tipCall tips)) key =
  V1.totalTipsOf st key + sumZ (map V1.tipAmount tips).
Proof.
  intros Hkey. revert st. induction Hkey as [|x tips Hx _ IH]; intros st Hacc.
  - simpl. lia.
  - destruct Hacc as [Ha Hacc].
    change (V1.run st (map V1.tipCall (x :: tips)))
      with (V1.run (V1.step st (V1.tipCall x)) (map V1.tipCall tips)).
    rewrite (IH _ Hacc).
    change (sumZ (map V1.tipAmount (x :: tips)))
      with (V1.tipAmount x + sumZ (map V1.tipAmount tips)).
    unfold V1.accepted, V1.tipCall in Ha. unfold V1.step, V1.tipCall.
    destruct (V1.createTip st (fst (fst x)) (snd (fst x)) (snd x))
      as [[tip|e] st'] eqn:Hc; [|discriminate].
    cbn [snd].
    destruct (V1_createTip_adds_amount _ _ _ _ _ _ key Hc) as [_ ->].
    unfold V1.tipKey in Hx. apply String.eqb_eq in Hx. rewrite Hx.
    unfold V1.tipAmount. lia.
Qed.

(** The rating path of revision [V1] keeps [total_tips] and [dj_name] too;
    the average it stores is the truncated quotient of the old average
    times the old count by the new count, whatever the rating is. *)
Lemma V1_createRating_keeps_tips_and_name st payload ratingId time r st' entry :
  V1.createRating st payload ratingId time = (Ok r, st') ->
  get (V1.leaderboardStorage st) (V1.RatingPayload.dj_name payload) = Some entry ->
  exists entry',
    get (V1.leaderboardStorage st') (V1.RatingPayload.dj_name payload) = Some entry'
    /\ E1.total_tips entry' = E1.total_tips entry
    /\ E1.dj_name entry' = E1.dj_name entry
    /\ E1.total_ratings entry' = E1.total_ratings entry + 1
    /\ E1.avg_rating entry' =
       Z.quot (E1.avg_rating entry * E1.total_ratings entry)
              (E1.total_ratings entry + 1).
Proof.
  intros Hc Hg. apply V1_createRating_Ok in Hc. cbv zeta in Hc.
  destruct Hc as (_ & ->). rewrite Hg.
  eexists. split; [apply get_insert_eq|]. simpl. auto.
Qed.

(** Hence a rating never raises the average that revision [V1] stores. *)
Lemma V1_createRating_average_not_above st payload ratingId time r st' entry :
  V1.createRating st payload ratingId time = (Ok r, st') ->
  get (V1.leaderboardStorage st) (V1.RatingPayload.dj_name payload) = Some entry ->
  0 <= E1.avg_rating entry -> 0 <= E1.total_ratings entry ->
  exists entry',
    get (V1.leaderboardStorage st') (V1.RatingPayload.dj_name payload) = Some entry'
    /\ E1.avg_rating entry' <= E1.avg_rating entry.
Proof.
  intros Hc Hg Ha Hn.
  destruct (V1_createRating_keeps_tips_and_name _ _ _ _ _ _ _ Hc Hg)
    as (entry' & Hg' & _ & _ & _ & Havg).
  exists entry'. split; [exact Hg'|]. rewrite Havg.
  rewrite Z.quot_div_nonneg by nia.
  apply Z.div_le_upper_bound; nia.
Qed.

End V1Facts.

(** ** The revision with [avg_rating : float64] *)

Section V2Facts.
Context {js : JsString}.

Lemma V2_createTip_Err st payload tipId time e st' :
  V2.createTip st payload tipId time = (Err e, st') -> st' = st.
Proof.
  unfold V2.createTip, V2.createError.
  rejected_call.
Qed.

Lemma V2_createTip_Ok st payload tipId time tip st' :
  V2.createTip st payload tipId time = (Ok tip, st') ->
  let key := trim (Tip.dj_name payload) in
  let amount := Tip.amount payload in
  0 < amount
  /\ V2.usersStorage st' = V2.usersStorage st
  /\ V2.ratingsStorage st' = V2.ratingsStorage st
  /\ V2.tipsStorage st' = insert (V2.tipsStorage st) tipId tip
  /\ V2.leaderboardStorage st' =
     insert (V2.leaderboardStorage st) key
       match get (V2.leaderboardStorage st) key with
       | Some entry =>
           E2.mk (E2.dj_name entry) (E2.total_tips entry + amount)
             (E2.total_ratings entry) (E2.total_rating_points entry)
             (E2.avg_rating entry)
       | None => E2.mk key amount 0 0 (S754_zero false)
       end.
Proof.
  unfold V2.createTip, V2.createError. cbv zeta.
  destruct (falsy _ || falsy _ || _ || (Tip.amount payload <=? 0)) eqn:Hv;
    [discriminate|].
  destruct (get (V2.usersStorage st) _) as [user|]; [|discriminate].
  destruct (is_DJ _); [discriminate|].
  destruct (V2.findDJ _ _); [|discriminate].
  intros H. inversion H; subst; clear H. simpl.
  apply orb_false_elim in Hv. destruct Hv as [_ Hv]. apply Z.leb_gt in Hv.
  repeat split; try assumption.
  destruct (get (V2.leaderboardStorage st) _); reflexivity.
Qed.


Lemma V2_createRating_Err st payload ratingId time e st' :
  V2.createRating st payload ratingId time = (Err e, st') -> st' = st.
Proof.
  unfold V2.createRating, V2.createError.
  rejected_call.
Qed.

Lemma V2_createRating_Ok st payload ratingId time r st' :
  V2.createRating st payload ratingId time = (Ok r, st') ->
  let key := trim (Rating.dj_name payload) in
  let rating := Rating.rating payload in
  1 <= rating <= 5
  /\ V2.usersStorage st' = V2.usersStorage st
  /\ V2.tipsStorage st' = V2.tipsStorage st
  /\ V2.ratingsStorage st' = insert (V2.ratingsStorage st) ratingId r
  /\ V2.leaderboardStorage st' =
     insert (V2.leaderboardStorage st) key
       match get (V2.leaderboardStorage st) key with
       | Some entry =>
           E2.mk (E2.dj_name entry) (E2.total_tips entry)
             (E2.total_ratings entry + 1) (E2.total_rating_points entry + rating)
             (f64_div (Number (E2.total_rating_points entry + rating))
                      (Number (E2.total_ratings entry + 1)))
       | None => E2.mk key 0 1 rating (Number rating)
       end.
Proof.
  unfold V2.createRating, V2.createError. cbv zeta.
  destruct (falsy _ || falsy _ || _ || _ || _) eqn:Hv; [discriminate|].
  destruct (get (V2.usersStorage st) _) as [user|]; [|discriminate].
  destruct (V2.findDJ _ _); [|discriminate].
  intros H. inversion H; subst; clear H. simpl.
  apply orb_false_elim in Hv. destruct Hv as [Hv Hgt].
  apply orb_false_elim in Hv. destruct Hv as [_ Hlt].
  apply Z.ltb_ge in Hlt. rewrite Z.gtb_ltb in Hgt. apply Z.ltb_ge in Hgt.
  repeat split; try assumption.
  destruct (get (V2.leaderboardStorage st) _); reflexivity.
Qed.

(** Dividing the Number of a rating by [1] returns it unchanged. *)
Lemma Number_rating_div_1 (rating : Z) :
  1 <= rating <= 5 -> Number rating = f64_div (Number rating) (Number 1).
Proof.
  intros H.
  assert (rating = 1 \/ rating = 2 \/ rating = 3 \/ rating = 4 \/ rating = 5)
    as [->|[->|[->|[->| ->]]]] by lia; reflexivity.
Qed.

Lemma V2_sound_tipped entry amount :
  V2.sound entry ->
  V2.sound (E2.mk (E2.dj_name entry) (E2.total_tips entry + amount)
              (E2.total_ratings entry) (E2.total_rating_points entry)
              (E2.avg_rating entry)).
Proof. intros H. exact H. Qed.

Lemma V2_sound_rated entry rating :
  1 <= rating <= 5 ->
  V2.sound entry ->
  V2.sound (E2.mk (E2.dj_name entry) (E2.total_tips entry)
              (E2.total_ratings entry + 1) (E2.total_rating_points entry + rating)
              (f64_div (Number (E2.total_rating_points entry + rating))
                       (Number (E2.total_ratings entry + 1)))).
Proof.
  intros Hr (Hn & Hp & _). unfold V2.sound, V2.consistent.
  cbn [E2.total_ratings E2.total_rating_points E2.avg_rating].
  repeat split; intros; try reflexivity; lia.
Qed.

Lemma V2_sound_first_tip key amount :
  V2.sound (E2.mk key amount 0 0 (S754_zero false)).
Proof.
  unfold V2.sound, V2.consistent.
  cbn [E2.total_ratings E2.total_rating_points E2.avg_rating].
  repeat split; intros; try reflexivity; lia.
Qed.

Lemma V2_sound_first_rating key rating :
  1 <= rating <= 5 -> V2.sound (E2.mk key 0 1 rating (Number rating)).
Proof.
  intros H. unfold V2.sound, V2.consistent.
  cbn [E2.total_ratings E2.total_rating_points E2.avg_rating].
  repeat split; intros; try lia.
  now apply Number_rating_div_1.
Qed.

Lemma V2_step_sound st c :
  Forall V2.sound (values (V2.leaderboardStorage st)) ->
  Forall V2.sound (values (V2.leaderboardStorage (V2.step st c))).
Proof.
  intros Hall. rewrite Forall_forall in *.
  destruct c as [payload tipId time | payload ratingId time]; simpl.
  - destruct (V2.createTip st payload tipId time) as [[tip|e] st'] eqn:Hc; simpl.
    + apply V2_createTip_Ok in Hc. cbv zeta in Hc.
      destruct Hc as (_ & _ & _ & _ & ->).
      intros x Hx. apply In_values_insert in Hx. destruct Hx as [->|Hx]; [|auto].
      destruct (get _ _) as [entry|] eqn:Hg.
      * apply V2_sound_tipped, Hall. eapply get_In_values, Hg.
      * apply V2_sound_first_tip.
    + apply V2_createTip_Err in Hc. now subst.
  - destruct (V2.createRating st payload ratingId time) as [[r|e] st'] eqn:Hc; simpl.
    + apply V2_createRating_Ok in Hc. cbv zeta in Hc.
      destruct Hc as (Hr & _ & _ & _ & ->).
      intros x Hx. apply In_values_insert in Hx. destruct Hx as [->|Hx]; [|auto].
      destruct (get _ _) as [entry|] eqn:Hg.
      * apply V2_sound_rated; [exact Hr|]. apply Hall. eapply get_In_values, Hg.
      * now apply V2_sound_first_rating.
    + apply V2_createRating_Err in Hc. now subst.
Qed.

Lemma V2_run_sound calls : forall st,
  Forall V2.sound (values (V2.leaderboardStorage st)) ->
  Forall V2.sound (values (V2.leaderboardStorage (V2.run st calls))).
Proof.
  induction calls as [|c calls IH]; intros st H; simpl; [exact H|].
  apply IH, V2_step_sound, H.
Qed.

(** C2.  After any sequence of [createTip] and [createRating] calls that
    starts with an empty leaderboard, every entry with a positive count of
    ratings has [avg_rating] equal to the Number quotient of
    [total_rating_points] by [total_ratings], and every entry with no rating
    has [avg_rating = 0] and [total_rating_points = 0].  The Number quotient
    is within half a unit in the last place of the exact quotient as long as
    five times the count stays below [2^53]. *)
Theorem V2_leaderboard_consistent users calls entry :
  In entry (values (V2.leaderboardStorage (V2.run (V2.init users) calls))) ->
  V2.consistent entry
  /\ (0 < E2.total_ratings entry ->
      5 * E2.total_ratings entry < 2 ^ 53 ->
      f64_within_half_ulp (E2.total_rating_points entry) (E2.total_ratings entry)
        (E2.avg_rating entry)).
Proof.
  intros Hin.
  assert (H : Forall V2.sound
                (values (V2.leaderboardStorage (V2.run (V2.init users) calls)))).
  { apply V2_run_sound. constructor. }
  rewrite Forall_forall in H. destruct (H entry Hin) as (Hn & Hp & Hc).
  split; [exact Hc|]. intros Hpos Hsmall.
  rewrite (proj1 Hc Hpos). apply f64_div_Number_accurate; lia.
Qed.


Lemma V2_accepted_rating st x :
  V2.accepted st (V2.ratingCall x) = true ->
  exists r st',
    V2.createRating st (fst (fst x)) (snd (fst x)) (snd x) = (Ok r, st').
Proof.
  simpl. destruct (V2.createRating _ _ _ _) as [[r|e] st']; simpl; intros H.
  - now exists r, st'.
  - discriminate.
Qed.




Lemma V2_rating_head st x ratings :
  V2.allAccepted st (map V2.ratingCall (x :: ratings)) ->
  exists r st',
    V2.createRating st (fst (fst x)) (snd (fst x)) (snd x) = (Ok r, st')
    /\ V2.run st (map V2.ratingCall (x :: ratings)) =
       V2.run st' (map V2.ratingCall ratings)
    /\ V2.allAccepted st' (map V2.ratingCall ratings).
Proof.
  intros [Ha Hacc].
  destruct (V2_accepted_rating st x Ha) as (r & st' & Hc).
  exists r, st'. split; [exact Hc|].
  assert (Hst : V2.step st (V2.ratingCall x) = st')
    by (unfold V2.step, V2.ratingCall; now rewrite Hc).
  rewrite <- Hst. split; [reflexivity | exact Hacc].
Qed.

Lemma V2_ratings_accumulate ratings : forall st key entry,
  get (V2.leaderboardStorage st) key = Some entry ->
  V2.averaged entry ->
  Forall (fun x => V2.ratingKey x = key) ratings ->
  V2.allAccepted st (map V2.ratingCall ratings) ->
  exists entry',
    get (V2.leaderboardStorage (V2.run st (map V2.ratingCall ratings))) key = Some entry'
    /\ E2.dj_name entry' = E2.dj_name entry
    /\ E2.total_tips entry' = E2.total_tips entry
    /\ E2.total_ratings entry' = E2.total_ratings entry + Z.of_nat (List.length ratings)
    /\ E2.total_rating_points entry' =
       E2.total_rating_points entry + sumZ (map V2.ratingValue ratings)
    /\ V2.averaged entry'.
Proof.
  induction ratings as [|x ratings IH]; intros st key entry Hg Havg Hkey Hacc.
  - exists entry. simpl. repeat split; try assumption; lia.
  - inversion Hkey as [|? ? Hx Hkey']; subst.
    destruct (V2_rating_head st x ratings Hacc) as (r & st' & Hc & -> & Hacc').
    apply V2_createRating_Ok in Hc. cbv zeta in Hc.
    destruct Hc as (_ & _ & _ & _ & Hlb).
    fold (V2.ratingKey x) in Hlb. rewrite Hg in Hlb.
    edestruct (IH st' (V2.ratingKey x)) as (entry' & Hg' & Hn & Ht & Hr & Hp & Ha');
      [rewrite Hlb; apply get_insert_eq | reflexivity | exact Hkey' | exact Hacc' |].
    exists entry'. simpl in Hn, Ht, Hr, Hp.
    change (sumZ (map V2.ratingValue (x :: ratings)))
      with (V2.ratingValue x + sumZ (map V2.ratingValue ratings)).
    unfold V2.ratingValue at 1.
    repeat split; try assumption; simpl List.length; lia.
Qed.

(** The average of revision [V2]: after [N >= 1] accepted ratings for a DJ
    without an entry, the entry counts [N] ratings, its points are their sum
    and its average is the Number quotient of the sum by [N]. *)
Lemma V2_average_of_ratings st key ratings :
  get (V2.leaderboardStorage st) key = None ->
  ratings <> [] ->
  Forall (fun x => V2.ratingKey x = key) ratings ->
  V2.allAccepted st (map V2.ratingCall ratings) ->
  exists entry,
    get (V2.leaderboardStorage (V2.run st (map V2.ratingCall ratings))) key = Some entry
    /\ E2.total_ratings entry = Z.of_nat (List.length ratings)
    /\ E2.total_rating_points entry = sumZ (map V2.ratingValue ratings)
    /\ E2.avg_rating entry =
       f64_div (Number (sumZ (map V2.ratingValue ratings)))
               (Number (Z.of_nat (List.length ratings))).
Proof.
  intros Hg Hne Hkey Hacc.
  destruct ratings as [|x ratings]; [congruence|].
  inversion Hkey as [|? ? Hx Hkey']; subst.
  destruct (V2_rating_head st x ratings Hacc) as (r & st' & Hc & -> & Hacc').
  apply V2_createRating_Ok in Hc. cbv zeta in Hc.
  destruct Hc as (Hr & _ & _ & _ & Hlb).
  fold (V2.ratingKey x) in Hlb. rewrite Hg in Hlb.
  edestruct (V2_ratings_accumulate ratings st' (V2.ratingKey x))
    as (entry' & Hg' & _ & _ & Hn & Hp & Ha');
    [rewrite Hlb; apply get_insert_eq | | exact Hkey' | exact Hacc' |].
  { unfold V2.averaged. simpl. now apply Number_rating_div_1. }
  exists entry'. cbn [E2.total_ratings E2.total_rating_points] in Hn, Hp.
  unfold V2.averaged in Ha'.
  change (sumZ (map V2.ratingValue (x :: ratings)))
    with (V2.ratingValue x + sumZ (map V2.ratingValue ratings)).
  fold (V2.ratingValue x) in Hp.
  replace (Z.of_nat (List.length (x :: ratings)))
    with (1 + Z.of_nat (List.length ratings)) by (simpl List.length; lia).
  rewrite <- Hn, <- Hp. auto.
Qed.


Lemma V2_accepted_ratings_in_range ratings : forall st,
  V2.allAccepted st (map V2.ratingCall ratings) ->
  Forall (fun r => 1 <= r <= 5) (map V2.ratingValue ratings).
Proof.
  induction ratings as [|x ratings IH]; intros st Hacc; [constructor|].
  destruct (V2_rating_head st x ratings Hacc) as (r & st' & Hc & _ & Hacc').
  apply V2_createRating_Ok in Hc. cbv zeta in Hc. destruct Hc as (Hr & _).
  constructor; [exact Hr | exact (IH st' Hacc')].
Qed.

Lemma sumZ_between (l : list Z) :
  Forall (fun r => 1 <= r <= 5) l ->
  Z.of_nat (List.length l) <= sumZ l <= 5 * Z.of_nat (List.length l).
Proof.
  induction 1 as [|r l Hr _ IH]; [simpl; lia|].
  change (sumZ (r :: l)) with (r + sumZ l).
  change (List.length (r :: l)) with (S (List.length l)). lia.
Qed.

(** The average of revision [V2] against the exact mean: after [N >= 1]
    accepted ratings [r1 .. rN] for a DJ without an entry, with [5 * N]
    below [2^53], the stored average is within half a unit in the last place
    of [(r1 + ... + rN) / N]. *)
Lemma V2_average_accurate st key ratings :
  get (V2.leaderboardStorage st) key = None ->
  ratings <> [] ->
  Forall (fun x => V2.ratingKey x = key) ratings ->
  V2.allAccepted st (map V2.ratingCall ratings) ->
  5 * Z.of_nat (List.length ratings) < 2 ^ 53 ->
  exists entry,
    get (V2.leaderboardStorage (V2.run st (map V2.ratingCall ratings))) key = Some entry
    /\ f64_within_half_ulp (sumZ (map V2.ratingValue ratings))
         (Z.of_nat (List.length ratings)) (E2.avg_rating entry).
Proof.
  intros Hg Hne Hkey Hacc Hsmall.
  destruct (V2_average_of_ratings st key ratings Hg Hne Hkey Hacc)
    as (entry & Hg' & _ & _ & Havg).
  exists entry. split; [exact Hg'|]. rewrite Havg.
  pose proof (sumZ_between _ (V2_accepted_ratings_in_range ratings st Hacc)) as Hsum.
  rewrite length_map in Hsum.
  assert (0 < Z.of_nat (List.length ratings)) by (destruct ratings; [congruence | simpl; lia]).
  apply f64_div_Number_accurate; lia.
Qed.

(** C5.  An accepted tip for a DJ without an entry adds exactly one entry,
    with [total_tips] the amount and the three rating fields zero; an
    accepted rating for a DJ without an entry adds exactly one entry, with
    [total_tips = 0], [total_ratings = 1] and both [total_rating_points] and
    [avg_rating] the rating.  The other entries are untouched. *)
Theorem V2_creation_on_first_use :
  (forall st payload tipId time tip st',
     V2.createTip st payload tipId time = (Ok tip, st') ->
     get (V2.leaderboardStorage st) (trim (Tip.dj_name payload)) = None ->
     let entry :=
       E2.mk (trim (Tip.dj_name payload)) (Tip.amount payload) 0 0 (S754_zero false) in
     get (V2.leaderboardStorage st') (trim (Tip.dj_name payload)) = Some entry
     /\ Permutation (values (V2.leaderboardStorage st'))
                    (entry :: values (V2.leaderboardStorage st)))
  /\ (forall st payload ratingId time r st',
     V2.createRating st payload ratingId time = (Ok r, st') ->
     get (V2.leaderboardStorage st) (trim (Rating.dj_name payload)) = None ->
     let entry :=
       E2.mk (trim (Rating.dj_name payload)) 0 1 (Rating.rating payload)
         (Number (Rating.rating payload)) in
     get (V2.leaderboardStorage st') (trim (Rating.dj_name payload)) = Some entry
     /\ Permutation (values (V2.leaderboardStorage st'))
                    (entry :: values (V2.leaderboardStorage st))).
Proof.
  split.
  - intros st payload tipId time tip st' Hc Hg entry.
    apply V2_createTip_Ok in Hc. cbv zeta in Hc.
    destruct Hc as (_ & _ & _ & _ & ->). rewrite Hg.
    split; [apply get_insert_eq | now apply values_insert_fresh].
  - intros st payload ratingId time r st' Hc Hg entry.
    apply V2_createRating_Ok in Hc. cbv zeta in Hc.
    destruct Hc as (_ & _ & _ & _ & ->). rewrite Hg.
    split; [apply get_insert_eq | now apply values_insert_fresh].
Qed.

(** C9.  A [createTip] call whose [user_id] is the key of a stored user
    with the DJ role answers [InvalidPayload] and leaves every store as it
    was. *)
Theorem V2_createTip_by_DJ_rejected st payload tipId time user :
  get (V2.usersStorage st) (Tip.user_id payload) = Some user ->
  is_DJ (User.role user) = true ->
  V2.createTip st payload tipId time = (Err V2.Error.InvalidPayload, st).
Proof.
  intros Hu Hrole. unfold V2.createTip, V2.createError. cbv zeta.
  destruct (falsy _ || falsy _ || _ || _); [reflexivity|].
  now rewrite Hu, Hrole.
Qed.

(** C10.  An accepted [createRating] call for a DJ that has an entry keeps
    the [total_tips] and the [dj_name] of the entry; the count of ratings
    grows by one and the rating points by the rating. *)
Theorem V2_createRating_keeps_tips_and_name st payload ratingId time r st' entry :
  V2.createRating st payload ratingId time = (Ok r, st') ->
  get (V2.leaderboardStorage st) (trim (Rating.dj_name payload)) = Some entry ->
  exists entry',
    get (V2.leaderboardStorage st') (trim (Rating.dj_name payload)) = Some entry'
    /\ E2.total_tips entry' = E2.total_tips entry
    /\ E2.dj_name entry' = E2.dj_name entry
    /\ E2.total_ratings entry' = E2.total_ratings entry + 1
    /\ E2.total_rating_points entry' =
       E2.total_rating_points entry + Rating.rating payload.
Proof.
  intros Hc Hg. apply V2_createRating_Ok in Hc. cbv zeta in Hc.
  destruct Hc as (_ & _ & _ & _ & ->). rewrite Hg.
  eexists. split; [apply get_insert_eq|]. simpl. auto.
Qed.

Lemma V2_pushResolved_fold users names : forall djs,
  fold_left (V2.pushResolved users) names djs =
  (djs ++ flat_map (fun djName =>
                      match V2.resolve users djName with
                      | Some user => [user]
                      | None => []
                      end) names)%list.
Proof.
  induction names as [|n names IH]; intros djs; simpl.
  - now rewrite app_nil_r.
  - rewrite IH. unfold V2.pushResolved, V2.resolve.
    destruct (find _ _); simpl; [now rewrite <- app_assoc | reflexivity].
Qed.

(** The search of revision [V2] answers the profiles of the entries at or
    above the floor, without the entries that resolve to no DJ profile. *)
Lemma V2_searchDJsByRating_resolved st rating :
  V2.searchDJsByRating st rating =
  match V2.resolvedAbove st rating with
  | [] => Err V2.Error.NotFound
  | djs => Ok djs
  end.
Proof.
  unfold V2.searchDJsByRating, V2.resolvedAbove, V2.createError. cbv zeta.
  rewrite V2_pushResolved_fold, flat_map_concat_map, map_map,
    <- flat_map_concat_map. simpl.
  now destruct (flat_map _ _).
Qed.

(** C7.  [getLeaderboard] answers [NotFound] when the leaderboard store has
    no entry and never answers an empty list; the rating-floor search
    answers [NotFound] when no entry above the floor resolves to a DJ
    profile and never answers an empty list. *)
Theorem V2_empty_result_is_NotFound st :
  (values (V2.leaderboardStorage st) = [] ->
   V2.getLeaderboard st = Err V2.Error.NotFound)
  /\ V2.getLeaderboard st <> Ok []
  /\ forall rating,
       (V2.resolvedAbove st rating = [] ->
        V2.searchDJsByRating st rating = Err V2.Error.NotFound)
       /\ V2.searchDJsByRating st rating <> Ok [].
Proof.
  unfold V2.getLeaderboard, V2.createError. cbv zeta. repeat split.
  - now intros ->.
  - destruct (values _); simpl; congruence.
  - rewrite V2_searchDJsByRating_resolved. now intros ->.
  - rewrite V2_searchDJsByRating_resolved.
    destruct (V2.resolvedAbove _ _); congruence.
Qed.

End V2Facts.

(** ** The concrete run *)

(** C1.  On revision [V1] the average that [createRating] stores is not the
    mean of the ratings: after the two ratings 5 and 3 of a DJ without an
    entry the stored [avg_rating] is 2, while the mean is 4. *)
Theorem V1_average_ignores_rating :
  get (V1.leaderboardStorage Scenario.twoRatings) "Nova"
  = Some {| E1.dj_name := "Nova"; E1.total_tips := 0;
            E1.total_ratings := 2; E1.avg_rating := 2 |}.
Proof. vm_compute. reflexivity. Qed.

(** C8.  On revision [V1] the rating-floor search does not resolve an entry
    to its DJ profile and does not omit it either: the entry of "Nova" is
    above the floor 1, her profile is stored under her user identifier, and
    the answer holds [undefined] in place of the profile. *)
Theorem V1_search_returns_undefined :
  find (fun user => (User.name user =? "Nova")%string && is_DJ (User.role user))
       (values (V1.usersStorage Scenario.twoRatings)) = Some Scenario.nova
  /\ V1.searchDJsByRating Scenario.twoRatings 1 = Ok [None].
Proof. split; vm_compute; reflexivity. Qed.

(** C3.  "Nova" receives the tips 10, 5, 20 and the ratings 5, 3, 4.  Her
    entry, the only one of the store, ends with [total_tips = 35],
    [total_ratings = 3], [total_rating_points = 12] and [avg_rating = 4.0];
    the search with floor [4.0] answers her profile and the search with
    floor [4.1] finds nobody; the ranking query, on the store that holds
    her entry only, answers her entry alone. *)
Theorem Nova_scenario :
  get (V2.leaderboardStorage Scenario.final) "Nova" = Some Scenario.expected
  /\ values (V2.leaderboardStorage Scenario.final) = [Scenario.expected]
  /\ Scenario.four = Number 4
  /\ Scenario.four_point_one = f64_div (Number 41) (Number 10)
  /\ V2.searchDJsByRating (js := AsciiText.builtins) Scenario.final Scenario.four
     = Ok [Scenario.nova]
  /\ V2.searchDJsByRating (js := AsciiText.builtins) Scenario.final
       Scenario.four_point_one
     = Err V2.Error.NotFound
  /\ keys (V1.leaderboardStorage Scenario.final1) = ["Nova"]
  /\ match V1.getLeaderboardForTopDJs Scenario.final1 with
     | Ok topDJs => map E1.dj_name topDJs = ["Nova"]
     | Err _ => False
     end.
Proof. repeat split; vm_compute; reflexivity. Qed.

(** The ranking of three entries: the larger total first, then the two equal
    entries in ascending order of their names. *)
Example V1_top_DJs_ranking_example :
  V1.getLeaderboardForTopDJs Scenario.threeNames
  = Ok [ {| E1.dj_name := "Ann"; E1.total_tips := 9;
            E1.total_ratings := 0; E1.avg_rating := 0 |};
         {| E1.dj_name := "NOVA"; E1.total_tips := 5;
            E1.total_ratings := 0; E1.avg_rating := 0 |};
         {| E1.dj_name := "Nova"; E1.total_tips := 5;
            E1.total_ratings := 0; E1.avg_rating := 0 |} ].
Proof. vm_compute. reflexivity. Qed.

(** The average of revision [V2] keeps the fractional part: the ratings 5
    and 4 give [4.5] (the binary64 number [9 * 2^-1]). *)
Example V2_average_keeps_fraction :
  option_map E2.avg_rating
    (get (V2.leaderboardStorage
            (V2.run (js := AsciiText.builtins) (V2.init Scenario.users)
               (map V2.ratingCall
                  [(Scenario.rating 5, "r1", 104); (Scenario.rating 4, "r2", 105)])))
         "Nova")
  = Some (S754_finite false 5066549580791808 (-50))
  /\ 5066549580791808 = 9 * 2 ^ 49.
Proof. split; vm_compute; reflexivity. Qed.

(** The leaderboard key is the trimmed name as it is written: two accepted
    tips whose names differ in letter case reach the same profile and two
    entries. *)
Example V2_letter_case_keys :
  map (fun entry => (E2.dj_name entry, E2.total_tips entry))
      (values (V2.leaderboardStorage Scenario.twoSpellings))
  = [("Nova", 10); ("nova", 5)].
Proof. vm_compute. reflexivity. Qed.

(** ** The statements at the concrete run *)

Lemma V2_leaderboard_consistent_witness :
  In Scenario.expected (values (V2.leaderboardStorage Scenario.final))
  /\ V2.consistent Scenario.expected
  /\ (0 < 3 -> 5 * 3 < 2 ^ 53 -> f64_within_half_ulp 12 3 Scenario.four).
Proof.
  split.
  - vm_compute. left. reflexivity.
  - apply (V2_leaderboard_consistent (js := AsciiText.builtins)
             Scenario.users Scenario.calls).
    vm_compute. left. reflexivity.
Defined.


Lemma V2_creation_on_first_use_witness :
  (Scenario.firstTip = (Ok Scenario.storedTip, snd Scenario.firstTip)
   /\ get (V2.leaderboardStorage (V2.init Scenario.users)) "Nova" = None
   /\ get (V2.leaderboardStorage (snd Scenario.firstTip)) "Nova"
      = Some (E2.mk "Nova" 10 0 0 (S754_zero false)))
  /\ (Scenario.firstRating
      = (Ok (Scenario.storedRating "r1" 5 104), snd Scenario.firstRating)
      /\ get (V2.leaderboardStorage (V2.init Scenario.users)) "Nova" = None
      /\ get (V2.leaderboardStorage (snd Scenario.firstRating)) "Nova"
         = Some (E2.mk "Nova" 0 1 5 (Number 5))).
Proof.
  assert (Ht : Scenario.firstTip = (Ok Scenario.storedTip, snd Scenario.firstTip))
    by (vm_compute; reflexivity).
  assert (Hr : Scenario.firstRating
               = (Ok (Scenario.storedRating "r1" 5 104), snd Scenario.firstRating))
    by (vm_compute; reflexivity).
  assert (Hg : get (V2.leaderboardStorage (V2.init Scenario.users)) "Nova" = None)
    by reflexivity.
  split.
  - split; [exact Ht|]. split; [exact Hg|].
    exact (proj1 (proj1 (V2_creation_on_first_use (js := AsciiText.builtins))
                    _ _ _ _ _ _ Ht Hg)).
  - split; [exact Hr|]. split; [exact Hg|].
    exact (proj1 (proj2 (V2_creation_on_first_use (js := AsciiText.builtins))
                    _ _ _ _ _ _ Hr Hg)).
Defined.

Lemma V2_empty_result_is_NotFound_witness :
  (values (V2.leaderboardStorage (V2.init Scenario.users)) = []
   /\ V2.getLeaderboard (V2.init Scenario.users) = Err V2.Error.NotFound)
  /\ (V2.resolvedAbove (js := AsciiText.builtins) Scenario.final
        Scenario.four_point_one = []
      /\ V2.searchDJsByRating (js := AsciiText.builtins) Scenario.final
           Scenario.four_point_one = Err V2.Error.NotFound).
Proof.
  split.
  - split; [reflexivity|].
    exact (proj1 (V2_empty_result_is_NotFound (js := AsciiText.builtins)
                    (V2.init Scenario.users)) eq_refl).
  - assert (H : V2.resolvedAbove (js := AsciiText.builtins) Scenario.final
                  Scenario.four_point_one = [])
      by (vm_compute; reflexivity).
    split; [exact H|].
    exact (proj1 (proj2 (proj2 (V2_empty_result_is_NotFound
                                  (js := AsciiText.builtins) Scenario.final))
                    Scenario.four_point_one) H).
Defined.

Lemma V2_createTip_by_DJ_rejected_witness :
  get (V2.usersStorage (V2.init Scenario.users)) "dj-1" = Some Scenario.nova
  /\ is_DJ (User.role Scenario.nova) = true
  /\ V2.createTip (js := AsciiText.builtins) (V2.init Scenario.users)
       (Scenario.tip "dj-1" 10) "t1" 101
     = (Err V2.Error.InvalidPayload, V2.init Scenario.users).
Proof.
  assert (Hu : get (V2.usersStorage (V2.init Scenario.users))
                 (Tip.user_id (Scenario.tip "dj-1" 10)) = Some Scenario.nova)
    by reflexivity.
  split; [exact Hu|]. split; [reflexivity|].
  exact (V2_createTip_by_DJ_rejected (js := AsciiText.builtins)
           (V2.init Scenario.users) (Scenario.tip "dj-1" 10) "t1" 101
           Scenario.nova Hu eq_refl).
Defined.

Lemma V2_createRating_keeps_tips_and_name_witness :
  Scenario.secondRating
  = (Ok (Scenario.storedRating "r2" 3 105), snd Scenario.secondRating)
  /\ get (V2.leaderboardStorage (snd Scenario.firstRating)) "Nova"
     = Some (E2.mk "Nova" 0 1 5 (Number 5))
  /\ exists entry',
       get (V2.leaderboardStorage (snd Scenario.secondRating)) "Nova" = Some entry'
       /\ E2.total_tips entry' = 0
       /\ E2.dj_name entry' = "Nova"
       /\ E2.total_ratings entry' = 1 + 1
       /\ E2.total_rating_points entry' = 5 + 3.
Proof.
  assert (Hc : Scenario.secondRating
               = (Ok (Scenario.storedRating "r2" 3 105), snd Scenario.secondRating))
    by (vm_compute; reflexivity).
  assert (Hg : get (V2.leaderboardStorage (snd Scenario.firstRating)) "Nova"
               = Some (E2.mk "Nova" 0 1 5 (Number 5)))
    by (vm_compute; reflexivity).
  split; [exact Hc|]. split; [exact Hg|].
  exact (V2_createRating_keeps_tips_and_name (js := AsciiText.builtins)
           _ _ _ _ _ _ _ Hc Hg).
Defined.

Lemma V2_average_of_ratings_witness :
  exists entry,
    get (V2.leaderboardStorage
           (V2.run (js := AsciiText.builtins) (V2.init Scenario.users)
              (map V2.ratingCall Scenario.ratings))) "Nova" = Some entry
    /\ E2.total_ratings entry = 3
    /\ E2.total_rating_points entry = 12
    /\ E2.avg_rating entry = f64_div (Number 12) (Number 3).
Proof.
  apply (V2_average_of_ratings (js := AsciiText.builtins)
           (V2.init Scenario.users) "Nova" Scenario.ratings).
  - reflexivity.
  - discriminate.
  - repeat constructor.
  - vm_compute. repeat split.
Defined.

Lemma V1_top_DJs_ranking_witness :
  exists ranked,
    V1.getLeaderboardForTopDJs Scenario.threeNames = Ok (firstn 5 ranked)
    /\ Permutation ranked (values (V1.leaderboardStorage Scenario.threeNames))
    /\ StronglySorted V1.ranksBefore ranked.
Proof.
  destruct (V1_top_DJs_ranking (js := AsciiText.builtins) Scenario.users
              [V1.CreateTip (Scenario.namedTip "Nova" 5) "t1" 101;
               V1.CreateTip (Scenario.namedTip "NOVA" 5) "t2" 102;
               V1.CreateTip (Scenario.namedTip "Ann" 9) "t3" 103])
    as (ranked & Hanswer & Hperm & Hsorted & _).
  exists ranked. repeat split; assumption.
Defined.

Lemma V2_average_accurate_witness :
  exists entry,
    get (V2.leaderboardStorage
           (V2.run (js := AsciiText.builtins) (V2.init Scenario.users)
              (map V2.ratingCall Scenario.ratings))) "Nova" = Some entry
    /\ f64_within_half_ulp 12 3 (E2.avg_rating entry).
Proof.
  apply (V2_average_accurate (js := AsciiText.builtins)
           (V2.init Scenario.users) "Nova" Scenario.ratings).
  - reflexivity.
  - discriminate.
  - repeat constructor.
  - vm_compute. repeat split.
  - reflexivity.
Defined.

(** * Properties of the whole canisters *)

(** ** The whole canister of the revision with [avg_rating : float64] *)

Section V2FullFacts.
Context {js : JsString}.

Lemma V2Full_createUserProfile_Err st payload userId time e st' :
  V2Full.createUserProfile st payload userId time = (Err e, st') -> st' = st.
Proof.
  unfold V2Full.createUserProfile, V2.createError.
  rejected_call.
Qed.

Lemma V2Full_createUserProfile_Ok st payload userId time user st' :
  V2Full.createUserProfile st payload userId time = (Ok user, st') ->
  let contact := trim (User.contact payload) in
  trim (User.name payload) <> ""
  /\ contact <> ""
  /\ get (V2Full.contactsStorage st) contact = None
  /\ user = User.mk userId (trim (User.name payload)) contact time Active
              (User.role payload) 0
  /\ st' = V2Full.mkState
             (V2.mkState (insert (V2Full.usersStorage st) userId user)
                (V2Full.tipsStorage st) (V2Full.ratingsStorage st)
                (V2Full.leaderboardStorage st))
             (insert (V2Full.contactsStorage st) contact userId)
             (V2Full.songRequestsStorage st) (V2Full.eventsStorage st)
             (V2Full.playlistsStorage st).
Proof.
  unfold V2Full.createUserProfile, V2.createError. cbv zeta.
  destruct (falsy _ || falsy _ || _ || _ || _) eqn:Hv; [discriminate|].
  destruct (get (V2Full.contactsStorage st) _) eqn:Hc; [discriminate|].
  intros H. inversion H; subst; clear H.
  apply orb_false_elim in Hv. destruct Hv as [Hv Hcontact].
  apply orb_false_elim in Hv. destruct Hv as [_ Hname].
  apply String.eqb_neq in Hcontact, Hname.
  repeat split; assumption.
Qed.

Lemma V2Full_updateUserProfile_Err st userId payload e st' :
  V2Full.updateUserProfile st userId payload = (Err e, st') -> st' = st.
Proof.
  unfold V2Full.updateUserProfile, V2.createError.
  rejected_call.
Qed.

Lemma V2Full_updateUserProfile_Ok st userId payload updatedUser st' :
  V2Full.updateUserProfile st userId payload = (Ok updatedUser, st') ->
  let contact := trim (User.contact payload) in
  exists user,
    get (V2Full.usersStorage st) userId = Some user
    /\ trim (User.name payload) <> ""
    /\ contact <> ""
    /\ (forall existingUserId,
          get (V2Full.contactsStorage st) contact = Some existingUserId ->
          existingUserId = userId)
    /\ updatedUser = User.mk (User.id user) (trim (User.name payload)) contact
                       (User.created_at user) (User.status user)
                       (User.role payload) (User.points user)
    /\ st' = V2Full.mkState
               (V2.mkState (insert (V2Full.usersStorage st) userId updatedUser)
                  (V2Full.tipsStorage st) (V2Full.ratingsStorage st)
                  (V2Full.leaderboardStorage st))
               (insert (V2Full.contactsStorage st) contact userId)
               (V2Full.songRequestsStorage st) (V2Full.eventsStorage st)
               (V2Full.playlistsStorage st).
Proof.
  unfold V2Full.updateUserProfile, V2.createError. cbv zeta.
  destruct (falsy _ || falsy _ || _ || _ || _) eqn:Hv; [discriminate|].
  destruct (get (V2Full.usersStorage st) userId) as [user|] eqn:Hu; [|discriminate].
  destruct (match get (V2Full.contactsStorage st) _ with
            | Some _ => _ | None => _ end) eqn:Hc; [discriminate|].
  intros H. inversion H; subst; clear H.
  apply orb_false_elim in Hv. destruct Hv as [Hv Hcontact].
  apply orb_false_elim in Hv. destruct Hv as [_ Hname].
  apply String.eqb_neq in Hcontact, Hname.
  exists user. repeat split; try assumption.
  intros existingUserId Hg. rewrite Hg in Hc.
  apply negb_false_iff, String.eqb_eq in Hc. exact Hc.
Qed.

Lemma V2Full_createSongRequest_Err st payload requestId time e st' :
  V2Full.createSongRequest st payload requestId time = (Err e, st') -> st' = st.
Proof.
  unfold V2Full.createSongRequest, V2.createError.
  rejected_call.
Qed.

Lemma V2Full_createSongRequest_Ok st payload requestId time songRequest st' :
  V2Full.createSongRequest st payload requestId time = (Ok songRequest, st') ->
  exists user,
    get (V2Full.usersStorage st) (SongRequest.user_id payload) = Some user
    /\ is_DJ (User.role user) = false
    /\ songRequest = SongRequest.mk requestId (SongRequest.user_id payload)
                       (trim (SongRequest.song_name payload))
                       RequestStatus.Pending time
    /\ st' = V2Full.mkState (V2Full.core st) (V2Full.contactsStorage st)
               (insert (V2Full.songRequestsStorage st) requestId songRequest)
               (V2Full.eventsStorage st) (V2Full.playlistsStorage st).
Proof.
  unfold V2Full.createSongRequest, V2.createError. cbv zeta.
  destruct (falsy _ || falsy _ || _) eqn:Hv; [discriminate|].
  destruct (get (V2Full.usersStorage st) _) as [user|] eqn:Hu; [|discriminate].
  destruct (is_DJ _) eqn:Hr; [discriminate|].
  intros H. inversion H; subst; clear H.
  exists user. repeat split; assumption.
Qed.

Lemma V2Full_createEvent_Err st payload eventId time e st' :
  V2Full.createEvent st payload eventId time = (Err e, st') -> st' = st.
Proof.
  unfold V2Full.createEvent, V2.createError.
  rejected_call.
Qed.

Lemma V2Full_createEvent_Ok st payload eventId time newEvent st' :
  V2Full.createEvent st payload eventId time = (Ok newEvent, st') ->
  trim (Event.event_name payload) <> ""
  /\ trim (Event.dj_name payload) <> ""
  /\ trim (Event.venue payload) <> ""
  /\ 0 < Event.capacity payload
  /\ time < Event.scheduled_at payload
  /\ newEvent = Event.mk eventId (trim (Event.event_name payload))
                  (trim (Event.dj_name payload)) (trim (Event.venue payload))
                  (Event.capacity payload) (Event.scheduled_at payload) time
  /\ st' = V2Full.mkState (V2Full.core st) (V2Full.contactsStorage st)
             (V2Full.songRequestsStorage st)
             (insert (V2Full.eventsStorage st) eventId newEvent)
             (V2Full.playlistsStorage st).
Proof.
  unfold V2Full.createEvent, V2.createError. cbv zeta.
  destruct (falsy _ || falsy _ || _ || _ || _ || _ || _ || _) eqn:Hv; [discriminate|].
  intros H. inversion H; subst; clear H.
  repeat (apply orb_false_elim in Hv;
          let H := fresh "Hg" in destruct Hv as [Hv H]).
  apply Z.leb_gt in Hg, Hg0. apply String.eqb_neq in Hg1, Hg2, Hg3.
  repeat split; assumption.
Qed.

Lemma V2Full_createPlaylist_Err st payload playlistId time e st' :
  V2Full.createPlaylist st payload playlistId time = (Err e, st') -> st' = st.
Proof.
  unfold V2Full.createPlaylist, V2.createError.
  rejected_call.
Qed.

Lemma V2Full_createPlaylist_Ok st payload playlistId time newPlaylist st' :
  V2Full.createPlaylist st payload playlistId time = (Ok newPlaylist, st') ->
  get (V2Full.eventsStorage st) (Playlist.event_id payload) <> None
  /\ Playlist.song_list payload <> []
  /\ newPlaylist = Playlist.mk playlistId (trim (Playlist.dj_name payload))
                     (Playlist.event_id payload)
                     (map (fun song => trim song) (Playlist.song_list payload))
                     time
  /\ st' = V2Full.mkState (V2Full.core st) (V2Full.contactsStorage st)
             (V2Full.songRequestsStorage st) (V2Full.eventsStorage st)
             (insert (V2Full.playlistsStorage st) playlistId newPlaylist).
Proof.
  unfold V2Full.createPlaylist, V2.createError. cbv zeta.
  destruct (falsy _ || falsy _ || _ || _ || _) eqn:Hv; [discriminate|].
  destruct (get (V2Full.eventsStorage st) _) as [event|] eqn:He; [|discriminate].
  intros H. inversion H; subst; clear H.
  apply orb_false_elim in Hv. destruct Hv as [_ Hlen].
  repeat split; try congruence.
  intros Hnil. rewrite Hnil in Hlen. discriminate.
Qed.

(** The tip and rating calls, with the record they store and the two
    lookups that let them through. *)
Lemma V2_createTip_Ok_record st payload tipId time tip st' :
  V2.createTip st payload tipId time = (Ok tip, st') ->
  tip = Tip.mk tipId (Tip.user_id payload) (trim (Tip.dj_name payload))
          (Tip.amount payload) Pending time
  /\ get (V2.usersStorage st) (Tip.user_id payload) <> None
  /\ V2.resolve (V2.usersStorage st) (trim (Tip.dj_name payload)) <> None.
Proof.
  unfold V2.createTip, V2.createError. cbv zeta.
  destruct (falsy _ || falsy _ || _ || (Tip.amount payload <=? 0)) eqn:Hv;
    [discriminate|].
  destruct (get (V2.usersStorage st) _) as [user|] eqn:Hu; [|discriminate].
  destruct (is_DJ _); [discriminate|].
  destruct (V2.findDJ _ _) eqn:Hd; [|discriminate].
  intros H. inversion H; subst; clear H.
  repeat split; try discriminate.
  unfold V2.findDJ in Hd. unfold V2.resolve. rewrite Hd. discriminate.
Qed.

Lemma V2_createRating_Ok_record st payload ratingId time r st' :
  V2.createRating st payload ratingId time = (Ok r, st') ->
  r = Rating.mk ratingId (Rating.user_id payload) (trim (Rating.dj_name payload))
        (Rating.rating payload)
        (if falsy (Rating.review payload) then "" else Rating.review payload) time
  /\ get (V2.usersStorage st) (Rating.user_id payload) <> None
  /\ V2.resolve (V2.usersStorage st) (trim (Rating.dj_name payload)) <> None.
Proof.
  unfold V2.createRating, V2.createError. cbv zeta.
  destruct (falsy _ || falsy _ || _ || _ || _) eqn:Hv; [discriminate|].
  destruct (get (V2.usersStorage st) _) as [user|] eqn:Hu; [|discriminate].
  destruct (V2.findDJ _ _) eqn:Hd; [|discriminate].
  intros H. inversion H; subst; clear H.
  repeat split; try discriminate.
  unfold V2.findDJ in Hd. unfold V2.resolve. rewrite Hd. discriminate.
Qed.

(** What a step leaves alone. *)
Lemma V2Full_tip_frame st payload tipId time :
  let st' := snd (V2Full.createTip st payload tipId time) in
  V2Full.usersStorage st' = V2Full.usersStorage st
  /\ V2Full.ratingsStorage st' = V2Full.ratingsStorage st
  /\ V2Full.contactsStorage st' = V2Full.contactsStorage st
  /\ V2Full.songRequestsStorage st' = V2Full.songRequestsStorage st
  /\ V2Full.eventsStorage st' = V2Full.eventsStorage st
  /\ V2Full.playlistsStorage st' = V2Full.playlistsStorage st.
Proof.
  unfold V2Full.createTip, V2Full.usersStorage, V2Full.ratingsStorage. simpl.
  destruct (V2.createTip (V2Full.core st) payload tipId time) as [[tip|e] c] eqn:Hc;
    simpl.
  - apply V2_createTip_Ok in Hc. cbv zeta in Hc. intuition.
  - apply V2_createTip_Err in Hc. subst c. intuition.
Qed.

Lemma V2Full_rating_frame st payload ratingId time :
  let st' := snd (V2Full.createRating st payload ratingId time) in
  V2Full.usersStorage st' = V2Full.usersStorage st
  /\ V2Full.tipsStorage st' = V2Full.tipsStorage st
  /\ V2Full.contactsStorage st' = V2Full.contactsStorage st
  /\ V2Full.songRequestsStorage st' = V2Full.songRequestsStorage st
  /\ V2Full.eventsStorage st' = V2Full.eventsStorage st
  /\ V2Full.playlistsStorage st' = V2Full.playlistsStorage st.
Proof.
  unfold V2Full.createRating, V2Full.usersStorage, V2Full.tipsStorage. simpl.
  destruct (V2.createRating (V2Full.core st) payload ratingId time)
    as [[r|e] c] eqn:Hc; simpl.
  - apply V2_createRating_Ok in Hc. cbv zeta in Hc. intuition.
  - apply V2_createRating_Err in Hc. subst c. intuition.
Qed.

(** An invariant of the canister holds after a run when every step keeps
    it. *)
Lemma V2Full_run_invariant (P : V2Full.State -> Prop) :
  (forall st c, P st -> P (V2Full.step st c)) ->
  forall calls st, P st -> P (V2Full.run st calls).
Proof.
  intros Hstep. induction calls as [|c calls IH]; intros st H; simpl.
  - exact H.
  - apply IH, Hstep, H.
Qed.

Lemma V2Full_step_contactIndexed st c :
  V2Full.contactIndexed st -> V2Full.contactIndexed (V2Full.step st c).
Proof.
  intros Hinv.
  destruct c as [payload userId time | userId payload | payload requestId time
                | payload tipId time | payload ratingId time
                | payload eventId time | payload playlistId time];
    cbn [V2Full.step].
  - destruct (V2Full.createUserProfile st payload userId time)
      as [[user|e] st'] eqn:Hc; cbn [snd].
    + apply V2Full_createUserProfile_Ok in Hc. cbv zeta in Hc.
      destruct Hc as (_ & _ & Hfree & Huser & ->).
      intros userId0 user0. unfold V2Full.usersStorage, V2Full.contactsStorage.
      cbn [V2Full.core V2Full.contactsStorage V2.usersStorage].
      fold (V2Full.usersStorage st).
      destruct (String.eqb_spec userId0 userId) as [->|Hne].
      * rewrite get_insert_eq. intros H. inversion H; subst user0.
        rewrite Huser. cbn [User.contact]. apply get_insert_eq.
      * rewrite get_insert_ne by exact Hne. intros H.
        specialize (Hinv _ _ H).
        rewrite get_insert_ne; [exact Hinv|].
        intros E. rewrite E in Hinv. congruence.
    + apply V2Full_createUserProfile_Err in Hc. now subst.
  - destruct (V2Full.updateUserProfile st userId payload)
      as [[user|e] st'] eqn:Hc; cbn [snd].
    + apply V2Full_updateUserProfile_Ok in Hc. cbv zeta in Hc.
      destruct Hc as (old & _ & _ & _ & Hother & Huser & ->).
      intros userId0 user0. unfold V2Full.usersStorage, V2Full.contactsStorage.
      cbn [V2Full.core V2Full.contactsStorage V2.usersStorage].
      fold (V2Full.usersStorage st).
      destruct (String.eqb_spec userId0 userId) as [->|Hne].
      * rewrite get_insert_eq. intros H. inversion H; subst user0.
        rewrite Huser. cbn [User.contact]. apply get_insert_eq.
      * rewrite get_insert_ne by exact Hne. intros H.
        specialize (Hinv _ _ H).
        rewrite get_insert_ne; [exact Hinv|].
        intros E. rewrite E in Hinv. apply Hother in Hinv. congruence.
    + apply V2Full_updateUserProfile_Err in Hc. now subst.
  - destruct (V2Full.createSongRequest st payload requestId time)
      as [[x|e] st'] eqn:Hc; cbn [snd].
    + apply V2Full_createSongRequest_Ok in Hc.
      destruct Hc as (_ & _ & _ & _ & ->). exact Hinv.
    + apply V2Full_createSongRequest_Err in Hc. now subst.
  - destruct (V2Full_tip_frame st payload tipId time) as (Hu & _ & Hk & _).
    intros userId0 user0. rewrite Hu, Hk. apply Hinv.
  - destruct (V2Full_rating_frame st payload ratingId time) as (Hu & _ & Hk & _).
    intros userId0 user0. rewrite Hu, Hk. apply Hinv.
  - destruct (V2Full.createEvent st payload eventId time)
      as [[x|e] st'] eqn:Hc; cbn [snd].
    + apply V2Full_createEvent_Ok in Hc.
      destruct Hc as (_ & _ & _ & _ & _ & _ & ->). exact Hinv.
    + apply V2Full_createEvent_Err in Hc. now subst.
  - destruct (V2Full.createPlaylist st payload playlistId time)
      as [[x|e] st'] eqn:Hc; cbn [snd].
    + apply V2Full_createPlaylist_Ok in Hc.
      destruct Hc as (_ & _ & _ & ->). exact Hinv.
    + apply V2Full_createPlaylist_Err in Hc. now subst.
Qed.

(** X1.  [contactsStorage] stays an index of the profiles along every
    sequence of update calls, so no two stored profiles ever share a
    contact. *)
Theorem V2Full_contacts_identify_profiles st calls :
  V2Full.contactIndexed st ->
  let st' := V2Full.run st calls in
  V2Full.contactIndexed st'
  /\ forall userId1 userId2 user1 user2,
       get (V2Full.usersStorage st') userId1 = Some user1 ->
       get (V2Full.usersStorage st') userId2 = Some user2 ->
       User.contact user1 = User.contact user2 ->
       userId1 = userId2.
Proof.
  intros Hinv st'.
  assert (H : V2Full.contactIndexed st').
  { apply (V2Full_run_invariant V2Full.contactIndexed); [|exact Hinv].
    intros. now apply V2Full_step_contactIndexed. }
  split; [exact H|].
  intros userId1 userId2 user1 user2 H1 H2 E.
  apply H in H1, H2. rewrite E in H1. congruence.
Qed.

Lemma get_insert_kept {V : Type} (m : StableBTreeMap.t V) k v k0 :
  get m k0 <> None -> get (insert m k v) k0 <> None.
Proof.
  intros H. destruct (String.eqb_spec k0 k) as [->|Hne].
  - rewrite get_insert_eq. discriminate.
  - now rewrite get_insert_ne.
Qed.

(** No update call removes a key from the users, contacts or events
    store. *)
Lemma V2Full_step_keys_kept st c :
  (forall k, get (V2Full.usersStorage st) k <> None ->
             get (V2Full.usersStorage (V2Full.step st c)) k <> None)
  /\ (forall k, get (V2Full.contactsStorage st) k <> None ->
                get (V2Full.contactsStorage (V2Full.step st c)) k <> None)
  /\ (forall k, get (V2Full.eventsStorage st) k <> None ->
                get (V2Full.eventsStorage (V2Full.step st c)) k <> None).
Proof.
  destruct c as [payload userId time | userId payload | payload requestId time
                | payload tipId time | payload ratingId time
                | payload eventId time | payload playlistId time];
    cbn [V2Full.step].
  - destruct (V2Full.createUserProfile st payload userId time)
      as [[user|e] st'] eqn:Hc; cbn [snd].
    + apply V2Full_createUserProfile_Ok in Hc. cbv zeta in Hc.
      destruct Hc as (_ & _ & _ & _ & ->).
      unfold V2Full.usersStorage. cbn. fold (V2Full.usersStorage st).
      repeat split; intros k; try apply get_insert_kept; auto.
    + apply V2Full_createUserProfile_Err in Hc. subst. auto.
  - destruct (V2Full.updateUserProfile st userId payload)
      as [[user|e] st'] eqn:Hc; cbn [snd].
    + apply V2Full_updateUserProfile_Ok in Hc. cbv zeta in Hc.
      destruct Hc as (old & _ & _ & _ & _ & _ & ->).
      unfold V2Full.usersStorage. cbn. fold (V2Full.usersStorage st).
      repeat split; intros k; try apply get_insert_kept; auto.
    + apply V2Full_updateUserProfile_Err in Hc. subst. auto.
  - destruct (V2Full.createSongRequest st payload requestId time)
      as [[x|e] st'] eqn:Hc; cbn [snd].
    + apply V2Full_createSongRequest_Ok in Hc.
      destruct Hc as (_ & _ & _ & _ & ->). auto.
    + apply V2Full_createSongRequest_Err in Hc. subst. auto.
  - destruct (V2Full_tip_frame st payload tipId time)
      as (Hu & _ & Hk & _ & He & _).
    rewrite Hu, Hk, He. auto.
  - destruct (V2Full_rating_frame st payload ratingId time)
      as (Hu & _ & Hk & _ & He & _).
    rewrite Hu, Hk, He. auto.
  - destruct (V2Full.createEvent st payload eventId time)
      as [[x|e] st'] eqn:Hc; cbn [snd].
    + apply V2Full_createEvent_Ok in Hc.
      destruct Hc as (_ & _ & _ & _ & _ & _ & ->). cbn.
      repeat split; intros k; try apply get_insert_kept; auto.
    + apply V2Full_createEvent_Err in Hc. subst. auto.
  - destruct (V2Full.createPlaylist st payload playlistId time)
      as [[x|e] st'] eqn:Hc; cbn [snd].
    + apply V2Full_createPlaylist_Ok in Hc.
      destruct Hc as (_ & _ & _ & ->). auto.
    + apply V2Full_createPlaylist_Err in Hc. subst. auto.
Qed.

Lemma V2Full_run_keys_kept calls : forall st,
  (forall k, get (V2Full.usersStorage st) k <> None ->
             get (V2Full.usersStorage (V2Full.run st calls)) k <> None)
  /\ (forall k, get (V2Full.contactsStorage st) k <> None ->
                get (V2Full.contactsStorage (V2Full.run st calls)) k <> None)
  /\ (forall k, get (V2Full.eventsStorage st) k <> None ->
                get (V2Full.eventsStorage (V2Full.run st calls)) k <> None).
Proof.
  induction calls as [|c calls IH]; intros st; simpl.
  - auto.
  - destruct (IH (V2Full.step st c)) as (Hu & Hk & He).
    destruct (V2Full_step_keys_kept st c) as (Hu1 & Hk1 & He1).
    repeat split; intros k H; auto.
Qed.

(** X2.  A contact that is registered stays registered whatever calls
    follow, also when its owner moves to another contact: a later
    [createUserProfile] with it is turned down and changes nothing. *)
Theorem V2Full_contact_stays_taken st calls payload userId time :
  get (V2Full.contactsStorage st) (trim (User.contact payload)) <> None ->
  V2Full.createUserProfile (V2Full.run st calls) payload userId time
  = (Err V2.Error.InvalidPayload, V2Full.run st calls).
Proof.
  intros H. apply (V2Full_run_keys_kept calls st) in H.
  unfold V2Full.createUserProfile, V2.createError. cbv zeta.
  destruct (falsy _ || falsy _ || _ || _ || _); [reflexivity|].
  destruct (get _ _); [reflexivity|]. now elim H.
Qed.

(** X3.  A profile that [createUserProfile] returns is the one
    [getUserProfile] finds under the new identifier; it holds the trimmed
    name and contact, is active and has no points; the profiles under the
    other identifiers and the tips, ratings and leaderboard stay as they
    were. *)
Theorem V2Full_created_profile_is_found st payload userId time user st' :
  V2Full.createUserProfile st payload userId time = (Ok user, st') ->
  V2Full.getUserProfile st' userId = Ok user
  /\ user = User.mk userId (trim (User.name payload)) (trim (User.contact payload))
              time Active (User.role payload) 0
  /\ (forall other, other <> userId ->
        V2Full.getUserProfile st' other = V2Full.getUserProfile st other)
  /\ V2Full.tipsStorage st' = V2Full.tipsStorage st
  /\ V2Full.ratingsStorage st' = V2Full.ratingsStorage st
  /\ V2Full.leaderboardStorage st' = V2Full.leaderboardStorage st.
Proof.
  intros Hc. apply V2Full_createUserProfile_Ok in Hc. cbv zeta in Hc.
  destruct Hc as (_ & _ & _ & Huser & ->).
  unfold V2Full.getUserProfile, V2Full.usersStorage. cbn.
  fold (V2Full.usersStorage st).
  rewrite get_insert_eq. repeat split; try assumption.
  intros other Hne. now rewrite get_insert_ne.
Qed.

Lemma V2Full_step_profileSound st c :
  (forall userId user,
     get (V2Full.usersStorage st) userId = Some user ->
     V2Full.profileSound userId user) ->
  forall userId user,
    get (V2Full.usersStorage (V2Full.step st c)) userId = Some user ->
    V2Full.profileSound userId user.
Proof.
  intros Hinv.
  destruct c as [payload userId time | userId payload | payload requestId time
                | payload tipId time | payload ratingId time
                | payload eventId time | payload playlistId time];
    cbn [V2Full.step].
  - destruct (V2Full.createUserProfile st payload userId time)
      as [[user|e] st'] eqn:Hc; cbn [snd].
    + apply V2Full_createUserProfile_Ok in Hc. cbv zeta in Hc.
      destruct Hc as (Hname & Hcontact & _ & Huser & ->).
      unfold V2Full.usersStorage. cbn. fold (V2Full.usersStorage st).
      intros userId0 user0.
      destruct (String.eqb_spec userId0 userId) as [->|Hne].
      * rewrite get_insert_eq. intros H. inversion H; subst user0.
        rewrite Huser. repeat split; assumption.
      * rewrite get_insert_ne by exact Hne. apply Hinv.
    + apply V2Full_createUserProfile_Err in Hc. now subst.
  - destruct (V2Full.updateUserProfile st userId payload)
      as [[user|e] st'] eqn:Hc; cbn [snd].
    + apply V2Full_updateUserProfile_Ok in Hc. cbv zeta in Hc.
      destruct Hc as (old & Hold & Hname & Hcontact & _ & Huser & ->).
      unfold V2Full.usersStorage. cbn. fold (V2Full.usersStorage st).
      intros userId0 user0.
      destruct (String.eqb_spec userId0 userId) as [->|Hne].
      * rewrite get_insert_eq. intros H. inversion H; subst user0.
        destruct (Hinv _ _ Hold) as (Hi & Hs & Hp & _).
        rewrite Huser. repeat split; assumption.
      * rewrite get_insert_ne by exact Hne. apply Hinv.
    + apply V2Full_updateUserProfile_Err in Hc. now subst.
  - destruct (V2Full.createSongRequest st payload requestId time)
      as [[x|e] st'] eqn:Hc; cbn [snd].
    + apply V2Full_createSongRequest_Ok in Hc.
      destruct Hc as (_ & _ & _ & _ & ->). exact Hinv.
    + apply V2Full_createSongRequest_Err in Hc. now subst.
  - destruct (V2Full_tip_frame st payload tipId time) as (Hu & _).
    rewrite Hu. exact Hinv.
  - destruct (V2Full_rating_frame st payload ratingId time) as (Hu & _).
    rewrite Hu. exact Hinv.
  - destruct (V2Full.createEvent st payload eventId time)
      as [[x|e] st'] eqn:Hc; cbn [snd].
    + apply V2Full_createEvent_Ok in Hc.
      destruct Hc as (_ & _ & _ & _ & _ & _ & ->). exact Hinv.
    + apply V2Full_createEvent_Err in Hc. now subst.
  - destruct (V2Full.createPlaylist st payload playlistId time)
      as [[x|e] st'] eqn:Hc; cbn [snd].
    + apply V2Full_createPlaylist_Ok in Hc.
      destruct Hc as (_ & _ & _ & ->). exact Hinv.
    + apply V2Full_createPlaylist_Err in Hc. now subst.
Qed.

(** X4.  Whatever calls the canister has served, a profile found under an
    identifier carries that identifier, is active, has no points and has a
    name and a contact that are not empty: no call deactivates a profile or
    awards points. *)
Theorem V2Full_profiles_sound calls userId user :
  get (V2Full.usersStorage (V2Full.run V2Full.init calls)) userId = Some user ->
  V2Full.profileSound userId user.
Proof.
  revert userId user.
  apply (V2Full_run_invariant
           (fun st => forall userId user,
                get (V2Full.usersStorage st) userId = Some user ->
                V2Full.profileSound userId user)).
  - intros st c. apply V2Full_step_profileSound.
  - intros userId user H. discriminate.
Qed.

Lemma V2Full_step_eventSound st c :
  (forall eventId event,
     get (V2Full.eventsStorage st) eventId = Some event ->
     V2Full.eventSound eventId event) ->
  forall eventId event,
    get (V2Full.eventsStorage (V2Full.step st c)) eventId = Some event ->
    V2Full.eventSound eventId event.
Proof.
  intros Hinv.
  destruct c as [payload userId time | userId payload | payload requestId time
                | payload tipId time | payload ratingId time
                | payload eventId time | payload playlistId time];
    cbn [V2Full.step].
  - destruct (V2Full.createUserProfile st payload userId time)
      as [[user|e] st'] eqn:Hc; cbn [snd].
    + apply V2Full_createUserProfile_Ok in Hc. cbv zeta in Hc.
      destruct Hc as (_ & _ & _ & _ & ->). exact Hinv.
    + apply V2Full_createUserProfile_Err in Hc. now subst.
  - destruct (V2Full.updateUserProfile st userId payload)
      as [[user|e] st'] eqn:Hc; cbn [snd].
    + apply V2Full_updateUserProfile_Ok in Hc. cbv zeta in Hc.
      destruct Hc as (old & _ & _ & _ & _ & _ & ->). exact Hinv.
    + apply V2Full_updateUserProfile_Err in Hc. now subst.
  - destruct (V2Full.createSongRequest st payload requestId time)
      as [[x|e] st'] eqn:Hc; cbn [snd].
    + apply V2Full_createSongRequest_Ok in Hc.
      destruct Hc as (_ & _ & _ & _ & ->). exact Hinv.
    + apply V2Full_createSongRequest_Err in Hc. now subst.
  - destruct (V2Full_tip_frame st payload tipId time) as (_ & _ & _ & _ & He & _).
    rewrite He. exact Hinv.
  - destruct (V2Full_rating_frame st payload ratingId time)
      as (_ & _ & _ & _ & He & _).
    rewrite He. exact Hinv.
  - destruct (V2Full.createEvent st payload eventId time)
      as [[x|e] st'] eqn:Hc; cbn [snd].
    + apply V2Full_createEvent_Ok in Hc.
      destruct Hc as (Hn & Hd & Hv & Hcap & Hsch & Hev & ->). cbn.
      intros eventId0 event0.
      destruct (String.eqb_spec eventId0 eventId) as [->|Hne].
      * rewrite get_insert_eq. intros H. inversion H; subst event0.
        rewrite Hev. repeat split; assumption.
      * rewrite get_insert_ne by exact Hne. apply Hinv.
    + apply V2Full_createEvent_Err in Hc. now subst.
  - destruct (V2Full.createPlaylist st payload playlistId time)
      as [[x|e] st'] eqn:Hc; cbn [snd].
    + apply V2Full_createPlaylist_Ok in Hc.
      destruct Hc as (_ & _ & _ & ->). exact Hinv.
    + apply V2Full_createPlaylist_Err in Hc. now subst.
Qed.

(** X5.  Whatever calls the canister has served, an event found under an
    identifier carries that identifier, has a positive capacity, is
    scheduled after the time it was created at and has a name, a DJ name
    and a venue that are not empty. *)
Theorem V2Full_events_sound calls eventId event :
  get (V2Full.eventsStorage (V2Full.run V2Full.init calls)) eventId = Some event ->
  V2Full.eventSound eventId event.
Proof.
  revert eventId event.
  apply (V2Full_run_invariant
           (fun st => forall eventId event,
                get (V2Full.eventsStorage st) eventId = Some event ->
                V2Full.eventSound eventId event)).
  - intros st c. apply V2Full_step_eventSound.
  - intros eventId event H. discriminate.
Qed.

(** The records that a step files: each names a user, or an event, that is
    stored when the step starts. *)
Lemma V2Full_step_records st c :
  let st' := V2Full.step st c in
  (V2Full.tipsStorage st' = V2Full.tipsStorage st
   \/ exists tipId tip,
        V2Full.tipsStorage st' = insert (V2Full.tipsStorage st) tipId tip
        /\ get (V2Full.usersStorage st) (Tip.user_id tip) <> None)
  /\ (V2Full.ratingsStorage st' = V2Full.ratingsStorage st
      \/ exists ratingId rating,
           V2Full.ratingsStorage st' = insert (V2Full.ratingsStorage st) ratingId rating
           /\ get (V2Full.usersStorage st) (Rating.user_id rating) <> None)
  /\ (V2Full.songRequestsStorage st' = V2Full.songRequestsStorage st
      \/ exists requestId request,
           V2Full.songRequestsStorage st'
           = insert (V2Full.songRequestsStorage st) requestId request
           /\ get (V2Full.usersStorage st) (SongRequest.user_id request) <> None)
  /\ (V2Full.playlistsStorage st' = V2Full.playlistsStorage st
      \/ exists playlistId playlist,
           V2Full.playlistsStorage st'
           = insert (V2Full.playlistsStorage st) playlistId playlist
           /\ get (V2Full.eventsStorage st) (Playlist.event_id playlist) <> None).
Proof.
  destruct c as [payload userId time | userId payload | payload requestId time
                | payload tipId time | payload ratingId time
                | payload eventId time | payload playlistId time];
    cbn [V2Full.step].
  - destruct (V2Full.createUserProfile st payload userId time)
      as [[user|e] st'] eqn:Hc; cbn [snd].
    + apply V2Full_createUserProfile_Ok in Hc. cbv zeta in Hc.
      destruct Hc as (_ & _ & _ & _ & ->). cbn. auto.
    + apply V2Full_createUserProfile_Err in Hc. subst. cbn. auto.
  - destruct (V2Full.updateUserProfile st userId payload)
      as [[user|e] st'] eqn:Hc; cbn [snd].
    + apply V2Full_updateUserProfile_Ok in Hc. cbv zeta in Hc.
      destruct Hc as (old & _ & _ & _ & _ & _ & ->). cbn. auto.
    + apply V2Full_updateUserProfile_Err in Hc. subst. cbn. auto.
  - destruct (V2Full.createSongRequest st payload requestId time)
      as [[x|e] st'] eqn:Hc; cbn [snd].
    + apply V2Full_createSongRequest_Ok in Hc.
      destruct Hc as (user & Hu & _ & Hx & ->). cbn.
      repeat split; auto. right. exists requestId, x. split; [reflexivity|].
      rewrite Hx. cbn. congruence.
    + apply V2Full_createSongRequest_Err in Hc. subst. cbn. auto.
  - destruct (V2Full_tip_frame st payload tipId time)
      as (_ & Hr & _ & Hs & _ & Hp).
    cbv zeta. rewrite Hr, Hs, Hp. repeat split; auto.
    unfold V2Full.createTip, V2Full.tipsStorage, V2Full.usersStorage. cbn.
    destruct (V2.createTip (V2Full.core st) payload tipId time)
      as [[tip|e] c] eqn:Hc; cbn.
    + right. exists tipId, tip.
      destruct (V2_createTip_Ok_record _ _ _ _ _ _ Hc) as (Htip & Hu & _).
      apply V2_createTip_Ok in Hc. cbv zeta in Hc.
      destruct Hc as (_ & _ & _ & Ht & _).
      split; [exact Ht|]. rewrite Htip. exact Hu.
    + apply V2_createTip_Err in Hc. subst. auto.
  - destruct (V2Full_rating_frame st payload ratingId time)
      as (_ & Ht & _ & Hs & _ & Hp).
    cbv zeta. rewrite Ht, Hs, Hp. repeat split; auto.
    unfold V2Full.createRating, V2Full.ratingsStorage, V2Full.usersStorage. cbn.
    destruct (V2.createRating (V2Full.core st) payload ratingId time)
      as [[r|e] c] eqn:Hc; cbn.
    + right. exists ratingId, r.
      destruct (V2_createRating_Ok_record _ _ _ _ _ _ Hc) as (Hrec & Hu & _).
      apply V2_createRating_Ok in Hc. cbv zeta in Hc.
      destruct Hc as (_ & _ & _ & Hr & _).
      split; [exact Hr|]. rewrite Hrec. exact Hu.
    + apply V2_createRating_Err in Hc. subst. auto.
  - destruct (V2Full.createEvent st payload eventId time)
      as [[x|e] st'] eqn:Hc; cbn [snd].
    + apply V2Full_createEvent_Ok in Hc.
      destruct Hc as (_ & _ & _ & _ & _ & _ & ->). cbn. auto.
    + apply V2Full_createEvent_Err in Hc. subst. cbn. auto.
  - destruct (V2Full.createPlaylist st payload playlistId time)
      as [[x|e] st'] eqn:Hc; cbn [snd].
    + apply V2Full_createPlaylist_Ok in Hc.
      destruct Hc as (He & _ & Hx & ->). cbn.
      repeat split; auto. right. exists playlistId, x. split; [reflexivity|].
      rewrite Hx. exact He.
    + apply V2Full_createPlaylist_Err in Hc. subst. cbn. auto.
Qed.

Lemma Forall_values_step {V K : Type} (m m' : StableBTreeMap.t V)
  (target target' : StableBTreeMap.t K) (f : V -> string) :
  (forall k, get target k <> None -> get target' k <> None) ->
  (m' = m \/ exists id v, m' = insert m id v /\ get target (f v) <> None) ->
  Forall (fun v => get target (f v) <> None) (values m) ->
  Forall (fun v => get target' (f v) <> None) (values m').
Proof.
  intros Hkept Hm Hall. rewrite Forall_forall in *.
  destruct Hm as [->|(id & v & -> & Hv)]; intros x Hx.
  - auto.
  - apply In_values_insert in Hx. destruct Hx as [->|Hx]; auto.
Qed.

Lemma V2Full_step_references st c :
  V2Full.references st -> V2Full.references (V2Full.step st c).
Proof.
  intros (Ht & Hr & Hs & Hp).
  destruct (V2Full_step_keys_kept st c) as (Hu & _ & He).
  destruct (V2Full_step_records st c) as (Ht' & Hr' & Hs' & Hp').
  repeat split.
  - exact (Forall_values_step _ _ _ _ Tip.user_id Hu Ht' Ht).
  - exact (Forall_values_step _ _ _ _ Rating.user_id Hu Hr' Hr).
  - exact (Forall_values_step _ _ _ _ SongRequest.user_id Hu Hs' Hs).
  - exact (Forall_values_step _ _ _ _ Playlist.event_id He Hp' Hp).
Qed.

(** X6.  Whatever calls the canister has served, every stored tip, rating
    and song request names a stored user and every stored playlist names a
    stored event. *)
Theorem V2Full_references_resolve calls :
  V2Full.references (V2Full.run V2Full.init calls).
Proof.
  apply (V2Full_run_invariant V2Full.references).
  - intros st c. apply V2Full_step_references.
  - repeat split; constructor.
Qed.

End V2FullFacts.

(** ** The leaderboard against the records it is built from *)

Lemma sumZ_app l1 l2 : sumZ (l1 ++ l2) = sumZ l1 + sumZ l2.
Proof. induction l1 as [|x l1 IH]; simpl; lia. Qed.

Lemma sumZ_filter_Permutation {A : Type} (f : A -> Z) (p : A -> bool) l l' :
  Permutation l l' ->
  sumZ (map f (filter p l)) = sumZ (map f (filter p l')).
Proof.
  induction 1 as [|x l l' _ IH|x y l|l l' l'' _ IH1 _ IH2]; simpl.
  - reflexivity.
  - destruct (p x); simpl; lia.
  - destruct (p x), (p y); simpl; lia.
  - lia.
Qed.

Lemma length_filter_Permutation {A : Type} (p : A -> bool) l l' :
  Permutation l l' ->
  List.length (filter p l) = List.length (filter p l').
Proof.
  induction 1 as [|x l l' _ IH|x y l|l l' l'' _ IH1 _ IH2]; simpl.
  - reflexivity.
  - destruct (p x); simpl; lia.
  - destruct (p x), (p y); simpl; lia.
  - lia.
Qed.

Lemma sumZ_filter_cons {A : Type} (f : A -> Z) (p : A -> bool) x l :
  sumZ (map f (filter p (x :: l)))
  = (if p x then f x else 0) + sumZ (map f (filter p l)).
Proof. simpl. destruct (p x); simpl; lia. Qed.

Lemma length_filter_cons {A : Type} (p : A -> bool) x l :
  Z.of_nat (List.length (filter p (x :: l)))
  = (if p x then 1 else 0) + Z.of_nat (List.length (filter p l)).
Proof. simpl. destruct (p x); simpl List.length; lia. Qed.

Lemma Permutation_filter {A : Type} (p : A -> bool) l l' :
  Permutation l l' -> Permutation (filter p l) (filter p l').
Proof.
  induction 1 as [|x l l' _ IH|x y l|l l' l'' _ IH1 _ IH2]; simpl.
  - constructor.
  - destruct (p x); [now constructor|exact IH].
  - destruct (p x), (p y); try reflexivity. apply perm_swap.
  - now transitivity (filter p l').
Qed.

Lemma key_lt_neq_sym (k k' : string) : key_lt k k' -> (k =? k')%string = false.
Proof. intros H. rewrite String.eqb_sym. now apply key_lt_neq. Qed.

(** A key below every key of a store is not a key of it. *)
Lemma get_below {V : Type} (m : StableBTreeMap.t V) k :
  Forall (key_lt k) (keys m) -> get m k = None.
Proof.
  unfold keys. induction m as [|[k' v'] m IH]; intros H; simpl; [reflexivity|].
  inversion H as [|? ? Hlt Hall]; subst. cbn [fst] in Hlt.
  rewrite (key_lt_neq_sym _ _ Hlt). now apply IH.
Qed.

(** Two stores with ascending keys that answer every lookup alike are the
    same store. *)
Lemma store_ext {V : Type} (m1 : StableBTreeMap.t V) : forall m2,
  ascending m1 -> ascending m2 ->
  (forall k, get m1 k = get m2 k) -> m1 = m2.
Proof.
  unfold ascending.
  induction m1 as [|[k1 v1] m1 IH]; intros [|[k2 v2] m2] H1 H2 Hget.
  - reflexivity.
  - specialize (Hget k2). simpl in Hget. rewrite String.eqb_refl in Hget.
    discriminate.
  - specialize (Hget k1). simpl in Hget. rewrite String.eqb_refl in Hget.
    discriminate.
  - cbn [keys map fst] in H1, H2.
    inversion H1 as [|? ? Hs1 Hall1]; subst.
    inversion H2 as [|? ? Hs2 Hall2]; subst.
    fold (keys m1) in *. fold (keys m2) in *.
    destruct (String.compare k1 k2) eqn:Hc.
    + apply String.compare_eq_iff in Hc. subst k2.
      pose proof (Hget k1) as Hk. simpl in Hk. rewrite String.eqb_refl in Hk.
      inversion Hk; subst v2. f_equal.
      apply IH; try assumption.
      intros k. destruct (String.eqb_spec k k1) as [->|Hne].
      * now rewrite !get_below.
      * specialize (Hget k). simpl in Hget.
        apply String.eqb_neq in Hne. now rewrite Hne in Hget.
    + exfalso. specialize (Hget k1). simpl in Hget.
      rewrite String.eqb_refl, (key_lt_neq_sym _ _ Hc) in Hget.
      rewrite get_below in Hget; [discriminate|].
      eapply Forall_impl; [|exact Hall2]. intros k. now apply key_lt_trans.
    + exfalso. apply compare_Gt_lt in Hc. specialize (Hget k2). simpl in Hget.
      rewrite String.eqb_refl, (key_lt_neq_sym _ _ Hc) in Hget.
      rewrite get_below in Hget; [discriminate|].
      eapply Forall_impl; [|exact Hall1]. intros k. now apply key_lt_trans.
Qed.

Section V2LedgerFacts.
Context {js : JsString}.

Lemma V2_step_users st c : V2.usersStorage (V2.step st c) = V2.usersStorage st.
Proof.
  destruct c as [payload tipId time | payload ratingId time]; simpl.
  - destruct (V2.createTip st payload tipId time) as [[tip|e] st'] eqn:Hc; simpl.
    + apply V2_createTip_Ok in Hc. cbv zeta in Hc. tauto.
    + apply V2_createTip_Err in Hc. now subst.
  - destruct (V2.createRating st payload ratingId time) as [[r|e] st'] eqn:Hc; simpl.
    + apply V2_createRating_Ok in Hc. cbv zeta in Hc. tauto.
    + apply V2_createRating_Err in Hc. now subst.
Qed.

Lemma V2_run_users calls : forall st,
  V2.usersStorage (V2.run st calls) = V2.usersStorage st.
Proof.
  unfold V2.run.
  induction calls as [|c calls IH]; intros st; simpl; [reflexivity|].
  now rewrite IH, V2_step_users.
Qed.

Lemma V2_step_rejected st c : V2.accepted st c = false -> V2.step st c = st.
Proof.
  destruct c as [payload tipId time | payload ratingId time]; simpl.
  - destruct (V2.createTip st payload tipId time) as [[tip|e] st'] eqn:Hc; simpl.
    + discriminate.
    + intros _. now apply V2_createTip_Err in Hc.
  - destruct (V2.createRating st payload ratingId time) as [[r|e] st'] eqn:Hc; simpl.
    + discriminate.
    + intros _. now apply V2_createRating_Err in Hc.
Qed.

(** Whether a call is accepted depends on the users store alone. *)
Lemma V2_accepted_users st st' c :
  V2.usersStorage st = V2.usersStorage st' -> V2.accepted st c = V2.accepted st' c.
Proof.
  intros E.
  destruct c as [payload tipId time | payload ratingId time]; simpl.
  - unfold V2.createTip. cbv zeta. rewrite E.
    destruct (falsy _ || falsy _ || _ || _); [reflexivity|].
    destruct (get (V2.usersStorage st') _); [|reflexivity].
    destruct (is_DJ _); [reflexivity|].
    destruct (V2.findDJ _ _); reflexivity.
  - unfold V2.createRating. cbv zeta. rewrite E.
    destruct (falsy _ || falsy _ || _ || _ || _); [reflexivity|].
    destruct (get (V2.usersStorage st') _); [|reflexivity].
    destruct (V2.findDJ _ _); reflexivity.
Qed.

(** The entry that an accepted call writes under its key. *)
Lemma V2_step_accepted st c :
  V2.accepted st c = true ->
  let key := V2Ledger.callKey c in
  0 <= V2Ledger.tipShare c
  /\ 0 <= V2Ledger.countShare c <= V2Ledger.pointShare c
  /\ V2Ledger.pointShare c <= 5 * V2Ledger.countShare c
  /\ 0 < V2Ledger.tipShare c + V2Ledger.countShare c
  /\ V2.resolve (V2.usersStorage st) key <> None
  /\ exists entry,
       V2.leaderboardStorage (V2.step st c)
       = insert (V2.leaderboardStorage st) key entry
       /\ E2.total_tips entry = V2.totalTipsOf st key + V2Ledger.tipShare c
       /\ E2.total_ratings entry
          = V2Ledger.totalRatingsOf st key + V2Ledger.countShare c
       /\ E2.total_rating_points entry
          = V2Ledger.totalPointsOf st key + V2Ledger.pointShare c
       /\ E2.dj_name entry
          = match get (V2.leaderboardStorage st) key with
            | Some old => E2.dj_name old
            | None => key
            end.
Proof.
  unfold V2.totalTipsOf, V2Ledger.totalRatingsOf, V2Ledger.totalPointsOf.
  destruct c as [payload tipId time | payload ratingId time]; simpl.
  - destruct (V2.createTip st payload tipId time) as [[tip|e] st'] eqn:Hc; simpl;
      [intros _|discriminate].
    destruct (V2_createTip_Ok_record _ _ _ _ _ _ Hc) as (_ & _ & Hd).
    apply V2_createTip_Ok in Hc. cbv zeta in Hc.
    destruct Hc as (Hpos & _ & _ & _ & Hl).
    repeat split; try lia; try exact Hd.
    eexists. split; [exact Hl|].
    destruct (get (V2.leaderboardStorage st) _); simpl; repeat split; lia.
  - destruct (V2.createRating st payload ratingId time) as [[r|e] st'] eqn:Hc; simpl;
      [intros _|discriminate].
    destruct (V2_createRating_Ok_record _ _ _ _ _ _ Hc) as (_ & _ & Hd).
    apply V2_createRating_Ok in Hc. cbv zeta in Hc.
    destruct Hc as (Hr & _ & _ & _ & Hl).
    repeat split; try lia; try exact Hd.
    eexists. split; [exact Hl|].
    destruct (get (V2.leaderboardStorage st) _); simpl; repeat split; lia.
Qed.

(** How one call moves the three counters of a key. *)
Lemma V2_step_counters st c key :
  let b := V2.accepted st c && (V2Ledger.callKey c =? key)%string in
  V2.totalTipsOf (V2.step st c) key
  = V2.totalTipsOf st key + (if b then V2Ledger.tipShare c else 0)
  /\ V2Ledger.totalRatingsOf (V2.step st c) key
     = V2Ledger.totalRatingsOf st key + (if b then V2Ledger.countShare c else 0)
  /\ V2Ledger.totalPointsOf (V2.step st c) key
     = V2Ledger.totalPointsOf st key + (if b then V2Ledger.pointShare c else 0)
  /\ (b = false ->
      get (V2.leaderboardStorage (V2.step st c)) key
      = get (V2.leaderboardStorage st) key)
  /\ (b = true -> get (V2.leaderboardStorage (V2.step st c)) key <> None).
Proof.
  destruct (V2.accepted st c) eqn:Ha; cbn [andb].
  - destruct (V2_step_accepted st c Ha) as (_ & _ & _ & _ & _ & entry & Hl & Ht & Hr & Hp & _).
    unfold V2.totalTipsOf, V2Ledger.totalRatingsOf, V2Ledger.totalPointsOf in *.
    rewrite Hl.
    destruct (String.eqb_spec (V2Ledger.callKey c) key) as [<-|Hne]; cbv zeta.
    + rewrite get_insert_eq. repeat split; try assumption; discriminate.
    + rewrite get_insert_ne by (now apply not_eq_sym).
      repeat split; try lia; discriminate.
  - rewrite (V2_step_rejected st c Ha). cbv zeta.
    repeat split; try lia; discriminate.
Qed.

(** How one call moves the sums over the stored tips and ratings of a
    key. *)
Lemma V2_step_ledger st c key :
  V2Ledger.freshId st c ->
  let b := V2.accepted st c && (V2Ledger.callKey c =? key)%string in
  sumZ (map Tip.amount (V2Ledger.tipsOf (V2.step st c) key))
  = sumZ (map Tip.amount (V2Ledger.tipsOf st key))
    + (if b then V2Ledger.tipShare c else 0)
  /\ Z.of_nat (List.length (V2Ledger.ratingsOf (V2.step st c) key))
     = Z.of_nat (List.length (V2Ledger.ratingsOf st key))
       + (if b then V2Ledger.countShare c else 0)
  /\ sumZ (map Rating.rating (V2Ledger.ratingsOf (V2.step st c) key))
     = sumZ (map Rating.rating (V2Ledger.ratingsOf st key))
       + (if b then V2Ledger.pointShare c else 0).
Proof.
  intros Hfresh.
  destruct (V2.accepted st c) eqn:Ha; cbn [andb];
    [|rewrite (V2_step_rejected st c Ha); cbv beta iota zeta; lia].
  unfold V2Ledger.tipsOf, V2Ledger.ratingsOf.
  destruct c as [payload tipId time | payload ratingId time];
    cbn [V2.step V2Ledger.callKey V2Ledger.tipShare V2Ledger.countShare
         V2Ledger.pointShare V2Ledger.freshId V2.accepted] in *.
  - destruct (V2.createTip st payload tipId time) as [[tip|e] st'] eqn:Hc;
      [|discriminate]. cbn [snd].
    destruct (V2_createTip_Ok_record _ _ _ _ _ _ Hc) as (Htip & _).
    apply V2_createTip_Ok in Hc. cbv zeta in Hc.
    destruct Hc as (_ & _ & -> & -> & _).
    rewrite (sumZ_filter_Permutation _ _ _ _
               (values_insert_fresh _ _ tip Hfresh)).
    rewrite sumZ_filter_cons. subst tip. cbn [Tip.dj_name Tip.amount].
    destruct (_ =? key)%string; lia.
  - destruct (V2.createRating st payload ratingId time) as [[r|e] st'] eqn:Hc;
      [|discriminate]. cbn [snd].
    destruct (V2_createRating_Ok_record _ _ _ _ _ _ Hc) as (Hrec & _).
    apply V2_createRating_Ok in Hc. cbv zeta in Hc.
    destruct Hc as (_ & _ & -> & -> & _).
    rewrite (sumZ_filter_Permutation _ _ _ _
               (values_insert_fresh _ _ r Hfresh)).
    rewrite (length_filter_Permutation _ _ _
               (values_insert_fresh _ _ r Hfresh)).
    rewrite sumZ_filter_cons, length_filter_cons. subst r.
    cbn [Rating.dj_name Rating.rating].
    destruct (_ =? key)%string; lia.
Qed.

Lemma V2_step_agrees st c :
  V2Ledger.freshId st c ->
  (forall key, V2Ledger.agrees st key) ->
  forall key, V2Ledger.agrees (V2.step st c) key.
Proof.
  intros Hfresh Hinv key. destruct (Hinv key) as (Ht & Hr & Hp).
  destruct (V2_step_counters st c key) as (Ht1 & Hr1 & Hp1 & _).
  destruct (V2_step_ledger st c key Hfresh) as (Ht2 & Hr2 & Hp2).
  cbv zeta in *. unfold V2Ledger.agrees. lia.
Qed.

Lemma V2_wellKeyed_insert m key entry :
  V2Ledger.wellKeyed m -> E2.dj_name entry = key ->
  V2Ledger.wellKeyed (insert m key entry).
Proof.
  intros [Ha Hn] He. split; [now apply ascending_insert|].
  rewrite Forall_forall in *.
  intros p Hp. apply In_insert in Hp. destruct Hp as [->|Hp]; auto.
Qed.

Lemma V2_wellKeyed_get m key entry :
  V2Ledger.wellKeyed m -> get m key = Some entry -> E2.dj_name entry = key.
Proof.
  intros [_ Hn] Hg. apply get_In in Hg.
  rewrite Forall_forall in Hn. exact (Hn _ Hg).
Qed.

Lemma V2_step_wellKeyed st c :
  V2Ledger.wellKeyed (V2.leaderboardStorage st) ->
  V2Ledger.wellKeyed (V2.leaderboardStorage (V2.step st c)).
Proof.
  intros Hw. destruct (V2.accepted st c) eqn:Ha.
  - destruct (V2_step_accepted st c Ha)
      as (_ & _ & _ & _ & _ & entry & -> & _ & _ & _ & Hn).
    apply V2_wellKeyed_insert; [exact Hw|]. rewrite Hn.
    destruct (get _ _) as [old|] eqn:Hg; [|reflexivity].
    eapply V2_wellKeyed_get; eassumption.
  - now rewrite (V2_step_rejected st c Ha).
Qed.

Lemma V2_run_wellKeyed calls : forall st,
  V2Ledger.wellKeyed (V2.leaderboardStorage st) ->
  V2Ledger.wellKeyed (V2.leaderboardStorage (V2.run st calls)).
Proof.
  unfold V2.run.
  induction calls as [|c calls IH]; intros st H; simpl; [exact H|].
  apply IH, V2_step_wellKeyed, H.
Qed.

Lemma V2_run_snoc st calls c :
  V2.run st (calls ++ [c]) = V2.step (V2.run st calls) c.
Proof. unfold V2.run. now rewrite fold_left_app. Qed.

Lemma filter_snoc {A : Type} (p : A -> bool) l x :
  filter p (l ++ [x]) = filter p l ++ (if p x then [x] else []).
Proof. rewrite filter_app. reflexivity. Qed.

(** The counters of an entry that equals the recount of a list of calls. *)
Lemma V2_recount_counters st key calls :
  get (V2.leaderboardStorage st) key = V2Ledger.recount key calls ->
  let mine := filter (fun c => (V2Ledger.callKey c =? key)%string) calls in
  V2.totalTipsOf st key = sumZ (map V2Ledger.tipShare mine)
  /\ V2Ledger.totalRatingsOf st key = sumZ (map V2Ledger.countShare mine)
  /\ V2Ledger.totalPointsOf st key = sumZ (map V2Ledger.pointShare mine)
  /\ match get (V2.leaderboardStorage st) key with
     | Some old => E2.dj_name old
     | None => key
     end = key.
Proof.
  unfold V2.totalTipsOf, V2Ledger.totalRatingsOf, V2Ledger.totalPointsOf,
    V2Ledger.recount.
  intros ->. cbv zeta.
  destruct (filter _ calls); cbn [E2.total_tips E2.total_ratings
    E2.total_rating_points E2.dj_name]; repeat split; reflexivity.
Qed.

Lemma V2_recount_snoc_other key calls c :
  (V2Ledger.callKey c =? key)%string = false ->
  V2Ledger.recount key (calls ++ [c]) = V2Ledger.recount key calls.
Proof.
  intros H. unfold V2Ledger.recount. rewrite filter_snoc, H, app_nil_r.
  reflexivity.
Qed.

Lemma V2_recount_snoc_same key calls c :
  V2Ledger.callKey c = key ->
  let mine := filter (fun c => (V2Ledger.callKey c =? key)%string) calls in
  let total_ratings := sumZ (map V2Ledger.countShare mine) + V2Ledger.countShare c in
  let total_rating_points :=
    sumZ (map V2Ledger.pointShare mine) + V2Ledger.pointShare c in
  V2Ledger.recount key (calls ++ [c])
  = Some (E2.mk key (sumZ (map V2Ledger.tipShare mine) + V2Ledger.tipShare c)
            total_ratings total_rating_points
            (if total_ratings =? 0 then S754_zero false
             else f64_div (Number total_rating_points) (Number total_ratings))).
Proof.
  intros <-. cbv zeta. unfold V2Ledger.recount.
  rewrite filter_snoc, String.eqb_refl.
  assert (E : forall f : V2.Call -> Z, forall l,
             sumZ (map f (l ++ [c])) = sumZ (map f l) + f c).
  { intros f l. rewrite map_app, sumZ_app. simpl. lia. }
  destruct (filter _ calls ++ [c]) as [|x l] eqn:Hl.
  - now destruct (filter _ calls).
  - rewrite <- Hl, !E. reflexivity.
Qed.

Lemma V2_run_recount users calls key :
  get (V2.leaderboardStorage (V2.run (V2.init users) calls)) key
  = V2Ledger.recount key (filter (V2.accepted (V2.init users)) calls).
Proof.
  induction calls as [|c calls IH] using rev_ind; [reflexivity|].
  rewrite V2_run_snoc, filter_snoc.
  set (st := V2.run (V2.init users) calls) in *.
  assert (Hsound : Forall V2.sound (values (V2.leaderboardStorage (V2.step st c)))).
  { apply V2_step_sound. subst st. apply V2_run_sound. constructor. }
  rewrite (V2_accepted_users (V2.init users) st c)
    by (subst st; now rewrite V2_run_users).
  destruct (V2.accepted st c) eqn:Ha.
  - destruct (String.eqb_spec (V2Ledger.callKey c) key) as [E|Hne].
    + destruct (V2_step_accepted st c Ha)
        as (_ & _ & _ & _ & _ & entry & Hl & Ht & Hr & Hp & Hn).
      cbv zeta in *. rewrite (V2_recount_snoc_same key _ c E). cbv zeta.
      rewrite E in *. clear E.
      destruct (V2_recount_counters st key _ IH) as (Ht0 & Hr0 & Hp0 & Hn0).
      cbv zeta in *. rewrite Hl, get_insert_eq.
      assert (Hs : V2.sound entry).
      { rewrite Forall_forall in Hsound. apply Hsound.
        rewrite Hl. eapply get_In_values, get_insert_eq. }
      destruct Hs as (Hnn & _ & Hpos & Hzero).
      rewrite <- Ht0, <- Hr0, <- Hp0, <- Ht, <- Hr, <- Hp. rewrite Hn0 in Hn.
      destruct entry as [n t r p a].
      cbn [E2.dj_name E2.total_tips E2.total_ratings E2.total_rating_points
           E2.avg_rating] in *.
      subst n. do 2 f_equal.
      destruct (Z.eqb_spec r 0) as [Hr1|Hr1].
      * now apply Hzero.
      * apply Hpos. lia.
    + destruct (V2_step_counters st c key) as (_ & _ & _ & Hsame & _).
      cbv zeta in Hsame. rewrite Ha in Hsame. cbn [andb] in Hsame.
      apply String.eqb_neq in Hne. rewrite (Hsame Hne).
      now rewrite V2_recount_snoc_other.
  - rewrite (V2_step_rejected st c Ha), app_nil_r. exact IH.
Qed.

(** A sequence of calls that are all accepted is its own list of accepted
    calls. *)
Lemma V2_allAccepted_filter calls : forall st,
  V2.allAccepted st calls -> filter (V2.accepted st) calls = calls.
Proof.
  induction calls as [|c calls IH]; intros st Hacc; [reflexivity|].
  destruct Hacc as (Ha & Hacc). cbn [filter]. rewrite Ha. f_equal.
  rewrite <- (IH _ Hacc) at 2. apply filter_ext.
  intros c'. apply V2_accepted_users. now rewrite V2_step_users.
Qed.

Lemma V2_recount_Permutation key calls calls' :
  Permutation calls calls' ->
  V2Ledger.recount key calls = V2Ledger.recount key calls'.
Proof.
  intros HP. unfold V2Ledger.recount.
  set (p := fun c => (V2Ledger.callKey c =? key)%string).
  assert (Hmine : Permutation (filter p calls) (filter p calls'))
    by now apply Permutation_filter.
  assert (Hsum : forall f : V2.Call -> Z,
             sumZ (map f (filter p calls)) = sumZ (map f (filter p calls'))).
  { intros f. now apply sumZ_filter_Permutation. }
  destruct (filter p calls) as [|x l] eqn:E1, (filter p calls') as [|x' l'] eqn:E2.
  - reflexivity.
  - apply Permutation_nil in Hmine. discriminate.
  - apply Permutation_sym, Permutation_nil in Hmine. discriminate.
  - now rewrite !Hsum.
Qed.

Lemma V2_run_Permutation users calls calls' :
  Permutation calls calls' ->
  V2.leaderboardStorage (V2.run (V2.init users) calls')
  = V2.leaderboardStorage (V2.run (V2.init users) calls).
Proof.
  intros HP. apply store_ext.
  - apply V2_run_wellKeyed. split; constructor.
  - apply V2_run_wellKeyed. split; constructor.
  - intros key. rewrite !V2_run_recount.
    apply V2_recount_Permutation, Permutation_sym, Permutation_filter, HP.
Qed.

End V2LedgerFacts.

(** ** The range of the stored average *)

Lemma SFcompare_finite_positive m1 e1 m2 e2 :
  SFcompare (S754_finite false m1 e1) (S754_finite false m2 e2)
  = Some match e1 ?= e2 with
         | Lt => Lt
         | Gt => Gt
         | Eq => (m1 ?= m2)%positive
         end.
Proof. reflexivity. Qed.

(** A binary64 number within half a unit in the last place of a quotient
    between [1] and [5] lies between [1] and [5] itself: both bounds are
    binary64 numbers. *)
Lemma f64_within_half_ulp_range S N x :
  0 < N -> N <= S <= 5 * N ->
  f64_within_half_ulp S N x ->
  f64_ge x (Number 1) = true /\ f64_ge (Number 5) x = true.
Proof.
  intros HN HS (m & e & -> & Hm & He & Hacc).
  change (Number 1) with (S754_finite false 4503599627370496 (-52)).
  change (Number 5) with (S754_finite false 5629499534213120 (-50)).
  assert (HP : 0 < 2 ^ (- e)) by (apply Z.pow_pos_nonneg; lia).
  set (P := 2 ^ (- e)) in *.
  assert (Hacc' : - N <= 2 * (N * Z.pos m - S * P) <= N) by lia.
  clear Hacc.
  assert (HSP : N * P <= S * P <= 5 * N * P).
  { split; apply Z.mul_le_mono_nonneg_r; lia. }
  assert (Hlo : P <= Z.pos m).
  { destruct (Z_lt_le_dec (Z.pos m) P) as [Hlt|]; [|assumption].
    assert (N * (Z.pos m + 1) <= N * P) by (apply Z.mul_le_mono_nonneg_l; lia).
    lia. }
  assert (Hhi : Z.pos m <= 5 * P).
  { destruct (Z_lt_le_dec (5 * P) (Z.pos m)) as [Hlt|]; [|assumption].
    assert (N * (5 * P + 1) <= N * Z.pos m)
      by (apply Z.mul_le_mono_nonneg_l; lia).
    lia. }
  assert (H53 : 2 ^ 53 = 9007199254740992) by reflexivity.
  assert (H52 : 2 ^ 52 = 4503599627370496) by reflexivity.
  rewrite H53, H52 in Hm.
  assert (He52 : -52 <= e).
  { destruct (Z_lt_le_dec e (-52)) as [Hlt|]; [|assumption].
    assert (2 ^ 53 <= P) by (apply Z.pow_le_mono_r; lia). lia. }
  assert (He50 : e <= -50).
  { destruct (Z_lt_le_dec (-50) e) as [Hlt|]; [|assumption].
    assert (H49 : P <= 2 ^ 49) by (apply Z.pow_le_mono_r; lia).
    change (2 ^ 49) with 562949953421312 in H49. lia. }
  unfold f64_ge. rewrite !SFcompare_finite_positive. split.
  - destruct (Z.compare_spec e (-52)) as [E|E|E]; [|lia|reflexivity].
    destruct (Pos.compare_spec m 4503599627370496) as [E'|E'|E'];
      try reflexivity.
    subst e P. change (2 ^ (- -52)) with 4503599627370496 in Hlo.
    apply Pos2Z.pos_lt_pos in E'. clear - Hlo E'. lia.
  - destruct (Z.compare_spec (-50) e) as [E|E|E]; [|lia|reflexivity].
    destruct (Pos.compare_spec 5629499534213120 m) as [E'|E'|E'];
      try reflexivity.
    subst e P. change (2 ^ (- -50)) with 1125899906842624 in Hhi.
    apply Pos2Z.pos_lt_pos in E'. clear - Hhi E'. lia.
Qed.

Lemma V2_sound_range entry :
  V2.sound entry ->
  0 < E2.total_ratings entry ->
  E2.total_rating_points entry < 2 ^ 53 ->
  f64_ge (E2.avg_rating entry) (Number 1) = true
  /\ f64_ge (Number 5) (E2.avg_rating entry) = true.
Proof.
  intros (_ & Hp & Hc & _) Hpos Hsmall.
  apply (f64_within_half_ulp_range (E2.total_rating_points entry)
           (E2.total_ratings entry)); [exact Hpos|exact Hp|].
  rewrite (Hc Hpos). apply f64_div_Number_accurate; lia.
Qed.

(** ** The leaderboard of the whole canister *)

Section V2FullLeaderboard.
Context {js : JsString}.

(** A step of the canister is a step of [V2] on the four stores of [core],
    or leaves the tips, the ratings and the leaderboard alone. *)
Lemma V2Full_step_core st c :
  match V2Full.coreCall c with
  | Some c2 => V2Full.core (V2Full.step st c) = V2.step (V2Full.core st) c2
  | None =>
      V2Full.tipsStorage (V2Full.step st c) = V2Full.tipsStorage st
      /\ V2Full.ratingsStorage (V2Full.step st c) = V2Full.ratingsStorage st
      /\ V2Full.leaderboardStorage (V2Full.step st c) = V2Full.leaderboardStorage st
  end.
Proof.
  destruct c as [payload userId time | userId payload | payload requestId time
                | payload tipId time | payload ratingId time
                | payload eventId time | payload playlistId time];
    cbn [V2Full.step V2Full.coreCall]; try reflexivity.
  - destruct (V2Full.createUserProfile st payload userId time)
      as [[user|e] st'] eqn:Hc; cbn [snd].
    + apply V2Full_createUserProfile_Ok in Hc. cbv zeta in Hc.
      destruct Hc as (_ & _ & _ & _ & ->). cbn. auto.
    + apply V2Full_createUserProfile_Err in Hc. subst. auto.
  - destruct (V2Full.updateUserProfile st userId payload)
      as [[user|e] st'] eqn:Hc; cbn [snd].
    + apply V2Full_updateUserProfile_Ok in Hc. cbv zeta in Hc.
      destruct Hc as (old & _ & _ & _ & _ & _ & ->). cbn. auto.
    + apply V2Full_updateUserProfile_Err in Hc. subst. auto.
  - destruct (V2Full.createSongRequest st payload requestId time)
      as [[x|e] st'] eqn:Hc; cbn [snd].
    + apply V2Full_createSongRequest_Ok in Hc.
      destruct Hc as (_ & _ & _ & _ & ->). cbn. auto.
    + apply V2Full_createSongRequest_Err in Hc. subst. auto.
  - destruct (V2Full.createEvent st payload eventId time)
      as [[x|e] st'] eqn:Hc; cbn [snd].
    + apply V2Full_createEvent_Ok in Hc.
      destruct Hc as (_ & _ & _ & _ & _ & _ & ->). cbn. auto.
    + apply V2Full_createEvent_Err in Hc. subst. auto.
  - destruct (V2Full.createPlaylist st payload playlistId time)
      as [[x|e] st'] eqn:Hc; cbn [snd].
    + apply V2Full_createPlaylist_Ok in Hc.
      destruct Hc as (_ & _ & _ & ->). cbn. auto.
    + apply V2Full_createPlaylist_Err in Hc. subst. auto.
Qed.

(** A property of the tips, the ratings and the leaderboard that every step
    of [V2] keeps is kept by every step of the canister. *)
Lemma V2Full_step_lift (P : StableBTreeMap.t Tip.t -> StableBTreeMap.t Rating.t ->
                            StableBTreeMap.t E2.t -> Prop) st c :
  (forall c2,
     V2Full.coreCall c = Some c2 ->
     P (V2.tipsStorage (V2Full.core st)) (V2.ratingsStorage (V2Full.core st))
       (V2.leaderboardStorage (V2Full.core st)) ->
     P (V2.tipsStorage (V2.step (V2Full.core st) c2))
       (V2.ratingsStorage (V2.step (V2Full.core st) c2))
       (V2.leaderboardStorage (V2.step (V2Full.core st) c2))) ->
  P (V2Full.tipsStorage st) (V2Full.ratingsStorage st) (V2Full.leaderboardStorage st) ->
  P (V2Full.tipsStorage (V2Full.step st c)) (V2Full.ratingsStorage (V2Full.step st c))
    (V2Full.leaderboardStorage (V2Full.step st c)).
Proof.
  intros Hstep H. pose proof (V2Full_step_core st c) as Hc.
  destruct (V2Full.coreCall c) as [c2|].
  - unfold V2Full.tipsStorage, V2Full.ratingsStorage, V2Full.leaderboardStorage.
    rewrite Hc. now apply Hstep.
  - destruct Hc as (-> & -> & ->). exact H.
Qed.

Lemma V2Full_run_sound calls :
  Forall V2.sound
    (values (V2Full.leaderboardStorage (V2Full.run V2Full.init calls))).
Proof.
  apply (V2Full_run_invariant
           (fun st => Forall V2.sound (values (V2Full.leaderboardStorage st)))).
  - intros st c.
    apply (V2Full_step_lift (fun _ _ l => Forall V2.sound (values l))).
    intros c2 _. apply V2_step_sound.
  - constructor.
Qed.

Lemma V2Full_run_wellKeyed calls :
  V2Ledger.wellKeyed (V2Full.leaderboardStorage (V2Full.run V2Full.init calls)).
Proof.
  apply (V2Full_run_invariant
           (fun st => V2Ledger.wellKeyed (V2Full.leaderboardStorage st))).
  - intros st c.
    apply (V2Full_step_lift (fun _ _ l => V2Ledger.wellKeyed l)).
    intros c2 _. apply V2_step_wellKeyed.
  - split; constructor.
Qed.

(** X9.  Whatever calls the canister has served, the stored average of an
    entry with at least one rating is a binary64 number between [1] and
    [5], as long as the rating points stay below [2^53]. *)
Theorem V2Full_average_between_1_and_5 calls key entry :
  get (V2Full.leaderboardStorage (V2Full.run V2Full.init calls)) key = Some entry ->
  0 < E2.total_ratings entry ->
  E2.total_rating_points entry < 2 ^ 53 ->
  f64_ge (E2.avg_rating entry) (Number 1) = true
  /\ f64_ge (Number 5) (E2.avg_rating entry) = true.
Proof.
  intros Hg. apply V2_sound_range.
  pose proof (V2Full_run_sound calls) as Hs. rewrite Forall_forall in Hs.
  apply Hs. eapply get_In_values, Hg.
Qed.

Lemma V2Full_step_agrees st c :
  V2Full.freshId st c ->
  (forall key, V2Ledger.agrees (V2Full.core st) key) ->
  forall key, V2Ledger.agrees (V2Full.core (V2Full.step st c)) key.
Proof.
  intros Hfresh Hinv. pose proof (V2Full_step_core st c) as Hc.
  destruct c as [payload userId time | userId payload | payload requestId time
                | payload tipId time | payload ratingId time
                | payload eventId time | payload playlistId time];
    cbn [V2Full.coreCall] in Hc;
    try (rewrite Hc; apply V2_step_agrees; [exact Hfresh|exact Hinv]);
    destruct Hc as (Ht & Hr & Hl); intros key;
    unfold V2Ledger.agrees, V2Ledger.tipsOf, V2Ledger.ratingsOf, V2.totalTipsOf,
      V2Ledger.totalRatingsOf, V2Ledger.totalPointsOf,
      V2Full.tipsStorage, V2Full.ratingsStorage, V2Full.leaderboardStorage in *;
    rewrite Ht, Hr, Hl; apply Hinv.
Qed.

Lemma V2Full_run_agrees calls : forall st,
  V2Full.freshIds st calls ->
  (forall key, V2Ledger.agrees (V2Full.core st) key) ->
  forall key, V2Ledger.agrees (V2Full.core (V2Full.run st calls)) key.
Proof.
  induction calls as [|c calls IH]; intros st Hfresh Hinv; [exact Hinv|].
  destruct Hfresh as (Hc & Hfresh).
  apply (IH (V2Full.step st c) Hfresh). now apply V2Full_step_agrees.
Qed.

(** X10.  As long as every tip and every rating is filed under an
    identifier that is not in use, the three counters of every leaderboard
    entry agree with the records in the tips and ratings stores:
    [total_tips] is the sum of the amounts of the stored tips filed under
    the name, [total_ratings] the number of the stored ratings filed under
    it and [total_rating_points] the sum of those ratings. *)
Theorem V2Full_leaderboard_agrees_with_records calls key :
  V2Full.freshIds V2Full.init calls ->
  V2Ledger.agrees (V2Full.core (V2Full.run V2Full.init calls)) key.
Proof.
  intros Hfresh. apply V2Full_run_agrees; [exact Hfresh|].
  intros k. repeat split.
Qed.

Lemma V2_step_monotone st c key :
  V2.totalTipsOf st key <= V2.totalTipsOf (V2.step st c) key
  /\ V2Ledger.totalRatingsOf st key <= V2Ledger.totalRatingsOf (V2.step st c) key
  /\ V2Ledger.totalPointsOf st key <= V2Ledger.totalPointsOf (V2.step st c) key
  /\ (get (V2.leaderboardStorage st) key <> None ->
      get (V2.leaderboardStorage (V2.step st c)) key <> None).
Proof.
  destruct (V2_step_counters st c key) as (Ht & Hr & Hp & Hsame & Hnew).
  cbv zeta in *.
  destruct (V2.accepted st c && (V2Ledger.callKey c =? key)%string) eqn:Hb.
  - apply andb_prop in Hb. destruct Hb as (Ha & _).
    destruct (V2_step_accepted st c Ha) as (H1 & H2 & H3 & _).
    repeat split; try lia. intros _. now apply Hnew.
  - rewrite (Hsame eq_refl). repeat split; try lia. auto.
Qed.

Lemma V2Full_step_monotone st c key :
  V2.totalTipsOf (V2Full.core st) key
  <= V2.totalTipsOf (V2Full.core (V2Full.step st c)) key
  /\ V2Ledger.totalRatingsOf (V2Full.core st) key
     <= V2Ledger.totalRatingsOf (V2Full.core (V2Full.step st c)) key
  /\ V2Ledger.totalPointsOf (V2Full.core st) key
     <= V2Ledger.totalPointsOf (V2Full.core (V2Full.step st c)) key
  /\ (get (V2Full.leaderboardStorage st) key <> None ->
      get (V2Full.leaderboardStorage (V2Full.step st c)) key <> None).
Proof.
  pose proof (V2Full_step_core st c) as Hc.
  destruct (V2Full.coreCall c) as [c2|].
  - unfold V2Full.leaderboardStorage. rewrite Hc. apply V2_step_monotone.
  - destruct Hc as (_ & _ & Hl).
    unfold V2.totalTipsOf, V2Ledger.totalRatingsOf, V2Ledger.totalPointsOf,
      V2Full.leaderboardStorage in *.
    rewrite Hl. repeat split; try lia. auto.
Qed.

(** X11.  No call of the canister lowers a counter of a leaderboard entry or
    removes an entry: along every sequence of update calls [total_tips],
    [total_ratings] and [total_rating_points] of every name only grow, and a
    name that has an entry keeps one. *)
Theorem V2Full_counters_never_decrease calls : forall st key,
  V2.totalTipsOf (V2Full.core st) key
  <= V2.totalTipsOf (V2Full.core (V2Full.run st calls)) key
  /\ V2Ledger.totalRatingsOf (V2Full.core st) key
     <= V2Ledger.totalRatingsOf (V2Full.core (V2Full.run st calls)) key
  /\ V2Ledger.totalPointsOf (V2Full.core st) key
     <= V2Ledger.totalPointsOf (V2Full.core (V2Full.run st calls)) key
  /\ (get (V2Full.leaderboardStorage st) key <> None ->
      get (V2Full.leaderboardStorage (V2Full.run st calls)) key <> None).
Proof.
  induction calls as [|c calls IH]; intros st key.
  - simpl. repeat split; try lia. auto.
  - change (V2Full.run st (c :: calls))
      with (V2Full.run (V2Full.step st c) calls).
    destruct (IH (V2Full.step st c) key) as (H1 & H2 & H3 & H4).
    destruct (V2Full_step_monotone st c key) as (G1 & G2 & G3 & G4).
    repeat split; try lia. auto.
Qed.

End V2FullLeaderboard.

(** ** The queries after a run of tips and ratings *)

Section V2QueryFacts.
Context {js : JsString}.

Lemma V2_step_resolves st c :
  Forall (fun entry => V2.resolve (V2.usersStorage st) (E2.dj_name entry) <> None)
    (values (V2.leaderboardStorage st)) ->
  Forall (fun entry => V2.resolve (V2.usersStorage st) (E2.dj_name entry) <> None)
    (values (V2.leaderboardStorage (V2.step st c))).
Proof.
  intros Hinv. destruct (V2.accepted st c) eqn:Ha.
  - destruct (V2_step_accepted st c Ha)
      as (_ & _ & _ & _ & Hd & entry & -> & _ & _ & _ & Hn).
    cbv zeta in *. rewrite Forall_forall in *.
    intros x Hx. apply In_values_insert in Hx. destruct Hx as [->|Hx]; [|auto].
    rewrite Hn. destruct (get _ _) as [old|] eqn:Hg; [|exact Hd].
    apply Hinv. eapply get_In_values, Hg.
  - now rewrite (V2_step_rejected st c Ha).
Qed.

Lemma V2_run_resolves_from calls : forall st,
  Forall (fun entry => V2.resolve (V2.usersStorage st) (E2.dj_name entry) <> None)
    (values (V2.leaderboardStorage st)) ->
  Forall (fun entry => V2.resolve (V2.usersStorage st) (E2.dj_name entry) <> None)
    (values (V2.leaderboardStorage (V2.run st calls))).
Proof.
  unfold V2.run.
  induction calls as [|c calls IH]; intros st H; simpl; [exact H|].
  rewrite <- (V2_step_users st c). apply IH.
  rewrite V2_step_users. now apply V2_step_resolves.
Qed.

Lemma V2_run_resolves users calls :
  Forall (fun entry => V2.resolve users (E2.dj_name entry) <> None)
    (values (V2.leaderboardStorage (V2.run (V2.init users) calls))).
Proof. apply (V2_run_resolves_from calls (V2.init users)). constructor. Qed.

Lemma flat_map_resolved {A B : Type} (f : A -> option B) (l : list A) :
  Forall (fun a => f a <> None) l ->
  Forall2 (fun a b => f a = Some b) l
    (flat_map (fun a => match f a with Some b => [b] | None => [] end) l).
Proof.
  induction 1 as [|a l Ha _ IH]; simpl; [constructor|].
  destruct (f a) as [b|] eqn:E; [|congruence].
  now constructor.
Qed.

(** X13.  After a run of tips and ratings over a fixed set of profiles, the
    rating-floor search answers one profile for every entry at or above the
    floor, in the order of the entries, and answers [NotFound] only when no
    entry is at or above the floor: no entry is dropped. *)
Theorem V2_search_answers_every_entry users calls rating :
  let st := V2.run (V2.init users) calls in
  let above :=
    filter (fun entry => f64_ge (E2.avg_rating entry) rating)
      (values (V2.leaderboardStorage st)) in
  match V2.searchDJsByRating st rating with
  | Ok djs =>
      Forall2 (fun entry dj => V2.resolve users (E2.dj_name entry) = Some dj)
        above djs
  | Err e => e = V2.Error.NotFound /\ above = []
  end.
Proof.
  intros st above.
  assert (H : Forall2 (fun entry dj => V2.resolve users (E2.dj_name entry) = Some dj)
                above (V2.resolvedAbove st rating)).
  { unfold V2.resolvedAbove. fold above.
    replace (V2.usersStorage st) with users
      by (unfold st; now rewrite V2_run_users).
    apply (flat_map_resolved (fun entry => V2.resolve users (E2.dj_name entry))).
    pose proof (V2_run_resolves users calls) as Hall.
    rewrite Forall_forall in *. intros x Hx. apply Hall.
    unfold above in Hx. apply filter_In in Hx. exact (proj1 Hx). }
  rewrite V2_searchDJsByRating_resolved.
  destruct (V2.resolvedAbove st rating); [|exact H].
  split; [reflexivity|]. now inversion H.
Qed.

End V2QueryFacts.

(** ** The stored tips and ratings *)

Section V2RecordFacts.
Context {js : JsString}.

Lemma V2_step_records_sound st c :
  (forall tipId tip,
     get (V2.tipsStorage st) tipId = Some tip -> V2Ledger.tipSound tipId tip)
  /\ (forall ratingId rating,
        get (V2.ratingsStorage st) ratingId = Some rating ->
        V2Ledger.ratingSound ratingId rating) ->
  (forall tipId tip,
     get (V2.tipsStorage (V2.step st c)) tipId = Some tip ->
     V2Ledger.tipSound tipId tip)
  /\ (forall ratingId rating,
        get (V2.ratingsStorage (V2.step st c)) ratingId = Some rating ->
        V2Ledger.ratingSound ratingId rating).
Proof.
  intros (Ht & Hr).
  destruct c as [payload tipId time | payload ratingId time]; simpl.
  - destruct (V2.createTip st payload tipId time) as [[tip|e] st'] eqn:Hc; simpl.
    + destruct (V2_createTip_Ok_record _ _ _ _ _ _ Hc) as (Htip & _).
      apply V2_createTip_Ok in Hc. cbv zeta in Hc.
      destruct Hc as (Hpos & _ & -> & -> & _).
      split; [|exact Hr]. intros tipId0 tip0.
      destruct (String.eqb_spec tipId0 tipId) as [->|Hne].
      * rewrite get_insert_eq. intros H. inversion H; subst tip0.
        rewrite Htip. repeat split. exact Hpos.
      * rewrite get_insert_ne by exact Hne. apply Ht.
    + apply V2_createTip_Err in Hc. subst. auto.
  - destruct (V2.createRating st payload ratingId time) as [[r|e] st'] eqn:Hc; simpl.
    + destruct (V2_createRating_Ok_record _ _ _ _ _ _ Hc) as (Hrec & _).
      apply V2_createRating_Ok in Hc. cbv zeta in Hc.
      destruct Hc as (Hrange & _ & -> & -> & _).
      split; [exact Ht|]. intros ratingId0 rating0.
      destruct (String.eqb_spec ratingId0 ratingId) as [->|Hne].
      * rewrite get_insert_eq. intros H. inversion H; subst rating0.
        rewrite Hrec. repeat split; apply Hrange.
      * rewrite get_insert_ne by exact Hne. apply Hr.
    + apply V2_createRating_Err in Hc. subst. auto.
Qed.

(** X14.  Whatever calls the canister has served, a tip found under an
    identifier carries that identifier, has a positive amount and is
    pending, and a rating found under an identifier carries that identifier
    and has a value from 1 to 5. *)
Theorem V2Full_tips_and_ratings_sound calls :
  let st := V2Full.run V2Full.init calls in
  (forall tipId tip,
     get (V2Full.tipsStorage st) tipId = Some tip -> V2Ledger.tipSound tipId tip)
  /\ (forall ratingId rating,
        get (V2Full.ratingsStorage st) ratingId = Some rating ->
        V2Ledger.ratingSound ratingId rating).
Proof.
  apply (V2Full_run_invariant
           (fun st =>
              (forall tipId tip,
                 get (V2Full.tipsStorage st) tipId = Some tip ->
                 V2Ledger.tipSound tipId tip)
              /\ (forall ratingId rating,
                    get (V2Full.ratingsStorage st) ratingId = Some rating ->
                    V2Ledger.ratingSound ratingId rating))).
  - intros st c.
    apply (V2Full_step_lift
             (fun tips ratings _ =>
                (forall tipId tip,
                   get tips tipId = Some tip -> V2Ledger.tipSound tipId tip)
                /\ (forall ratingId rating,
                      get ratings ratingId = Some rating ->
                      V2Ledger.ratingSound ratingId rating))).
    intros c2 _. apply V2_step_records_sound.
  - split; intros ? ? H; discriminate.
Qed.

End V2RecordFacts.

(** ** The listings of the profiles and of the leaderboard *)

Lemma get_Some_In_keys {V : Type} (m : StableBTreeMap.t V) k v :
  get m k = Some v -> In k (keys m).
Proof.
  intros H. apply get_In in H. unfold keys.
  change k with (fst (k, v)). now apply in_map.
Qed.

(** In a store with ascending keys a lookup in the tail is a lookup in the
    whole store. *)
Lemma get_tail {V : Type} (m : StableBTreeMap.t V) k0 v0 k v :
  ascending ((k0, v0) :: m) -> get m k = Some v -> get ((k0, v0) :: m) k = Some v.
Proof.
  unfold ascending. cbn [keys map fst]. intros Ha Hg.
  inversion Ha as [|? ? _ Hall]; subst.
  rewrite Forall_forall in Hall.
  pose proof (Hall _ (get_Some_In_keys _ _ _ Hg)) as Hlt.
  simpl. now rewrite (key_lt_neq _ _ Hlt).
Qed.

Lemma ascending_tail {V : Type} (m : StableBTreeMap.t V) p :
  ascending (p :: m) -> ascending m.
Proof. unfold ascending. cbn [keys map]. now inversion 1. Qed.

Lemma In_values_get {V : Type} (m : StableBTreeMap.t V) v :
  ascending m -> In v (values m) -> exists k, get m k = Some v.
Proof.
  induction m as [|[k0 v0] m IH]; intros Ha Hin; [destruct Hin|].
  destruct Hin as [<-|Hin].
  - exists k0. simpl. now rewrite String.eqb_refl.
  - destruct (IH (ascending_tail _ _ Ha) Hin) as (k & Hg).
    exists k. now apply get_tail.
Qed.

(** The values of a store with ascending keys differ under a function that
    no two entries agree on. *)
Lemma NoDup_values {V A : Type} (f : V -> A) (m : StableBTreeMap.t V) :
  ascending m ->
  (forall k1 k2 v1 v2,
     get m k1 = Some v1 -> get m k2 = Some v2 -> f v1 = f v2 -> k1 = k2) ->
  NoDup (map f (values m)).
Proof.
  induction m as [|[k0 v0] m IH]; intros Ha Hinj; [constructor|].
  cbn [values map snd]. fold (values m). constructor.
  - intros Hin. apply in_map_iff in Hin. destruct Hin as (v & Hf & Hin).
    destruct (In_values_get m v (ascending_tail _ _ Ha) Hin) as (k & Hg).
    assert (E : k0 = k).
    { apply (Hinj k0 k v0 v); [|now apply get_tail|now symmetry].
      simpl. now rewrite String.eqb_refl. }
    subst k. unfold ascending in Ha. cbn [keys map fst] in Ha.
    inversion Ha as [|? ? _ Hall]; subst. rewrite Forall_forall in Hall.
    pose proof (Hall _ (get_Some_In_keys _ _ _ Hg)) as Hlt.
    unfold key_lt in Hlt. rewrite compare_refl in Hlt. discriminate.
  - apply IH; [exact (ascending_tail _ _ Ha)|].
    intros k1 k2 v1 v2 H1 H2. apply Hinj; now apply get_tail.
Qed.

Section V2ListingFacts.
Context {js : JsString}.

Lemma V2Full_step_users_ascending st c :
  ascending (V2Full.usersStorage st) ->
  ascending (V2Full.usersStorage (V2Full.step st c)).
Proof.
  intros Ha.
  destruct c as [payload userId time | userId payload | payload requestId time
                | payload tipId time | payload ratingId time
                | payload eventId time | payload playlistId time];
    cbn [V2Full.step].
  - destruct (V2Full.createUserProfile st payload userId time)
      as [[user|e] st'] eqn:Hc; cbn [snd].
    + apply V2Full_createUserProfile_Ok in Hc. cbv zeta in Hc.
      destruct Hc as (_ & _ & _ & _ & ->).
      unfold V2Full.usersStorage. cbn. now apply ascending_insert.
    + apply V2Full_createUserProfile_Err in Hc. now subst.
  - destruct (V2Full.updateUserProfile st userId payload)
      as [[user|e] st'] eqn:Hc; cbn [snd].
    + apply V2Full_updateUserProfile_Ok in Hc. cbv zeta in Hc.
      destruct Hc as (old & _ & _ & _ & _ & _ & ->).
      unfold V2Full.usersStorage. cbn. now apply ascending_insert.
    + apply V2Full_updateUserProfile_Err in Hc. now subst.
  - destruct (V2Full.createSongRequest st payload requestId time)
      as [[x|e] st'] eqn:Hc; cbn [snd].
    + apply V2Full_createSongRequest_Ok in Hc.
      destruct Hc as (_ & _ & _ & _ & ->). exact Ha.
    + apply V2Full_createSongRequest_Err in Hc. now subst.
  - destruct (V2Full_tip_frame st payload tipId time) as (Hu & _).
    now rewrite Hu.
  - destruct (V2Full_rating_frame st payload ratingId time) as (Hu & _).
    now rewrite Hu.
  - destruct (V2Full.createEvent st payload eventId time)
      as [[x|e] st'] eqn:Hc; cbn [snd].
    + apply V2Full_createEvent_Ok in Hc.
      destruct Hc as (_ & _ & _ & _ & _ & _ & ->). exact Ha.
    + apply V2Full_createEvent_Err in Hc. now subst.
  - destruct (V2Full.createPlaylist st payload playlistId time)
      as [[x|e] st'] eqn:Hc; cbn [snd].
    + apply V2Full_createPlaylist_Ok in Hc.
      destruct Hc as (_ & _ & _ & ->). exact Ha.
    + apply V2Full_createPlaylist_Err in Hc. now subst.
Qed.

(** X15.  Whatever calls the canister has served, [getUserProfiles] lists
    no two profiles with the same contact and no two profiles with the same
    identifier. *)
Theorem V2Full_profiles_listed_once calls users :
  V2Full.getUserProfiles (V2Full.run V2Full.init calls) = Ok users ->
  NoDup (map User.contact users) /\ NoDup (map User.id users).
Proof.
  unfold V2Full.getUserProfiles, V2.createError. cbv zeta.
  destruct (_ =? 0); [discriminate|]. intros H. inversion H; subst users.
  set (st := V2Full.run V2Full.init calls).
  assert (Ha : ascending (V2Full.usersStorage st)).
  { apply (V2Full_run_invariant (fun st => ascending (V2Full.usersStorage st))).
    - intros s c. apply V2Full_step_users_ascending.
    - constructor. }
  assert (Hidx : V2Full.contactIndexed st).
  { apply (V2Full_run_invariant V2Full.contactIndexed).
    - intros s c. apply V2Full_step_contactIndexed.
    - intros userId user Hg. discriminate. }
  assert (Hsound : forall userId user,
             get (V2Full.usersStorage st) userId = Some user ->
             V2Full.profileSound userId user).
  { apply (V2Full_run_invariant
             (fun st => forall userId user,
                  get (V2Full.usersStorage st) userId = Some user ->
                  V2Full.profileSound userId user)).
    - intros s c. apply V2Full_step_profileSound.
    - intros userId user Hg. discriminate. }
  split; apply NoDup_values; try exact Ha.
  - intros k1 k2 v1 v2 H1 H2 E. apply Hidx in H1, H2. rewrite E in H1. congruence.
  - intros k1 k2 v1 v2 H1 H2 E.
    destruct (Hsound _ _ H1) as (<- & _). destruct (Hsound _ _ H2) as (<- & _).
    exact E.
Qed.

(** X8.  Whatever calls the canister has served, an [Ok] answer of
    [getLeaderboard] holds one entry for every name that has one: no name
    is listed twice, and an entry is listed exactly when it is the entry
    stored under its [dj_name]. *)
Theorem V2Full_leaderboard_lists_each_name_once calls entries :
  let st := V2Full.run V2Full.init calls in
  V2Full.getLeaderboard st = Ok entries ->
  NoDup (map E2.dj_name entries)
  /\ forall entry,
       In entry entries <->
       get (V2Full.leaderboardStorage st) (E2.dj_name entry) = Some entry.
Proof.
  intros st.
  unfold V2Full.getLeaderboard, V2.getLeaderboard, V2.createError. cbv zeta.
  destruct (_ =? 0); [discriminate|]. intros H. inversion H; subst entries.
  pose proof (V2Full_run_wellKeyed calls) as Hw. fold st in Hw.
  fold (V2Full.leaderboardStorage st). set (m := V2Full.leaderboardStorage st) in *.
  split.
  - apply NoDup_values; [exact (proj1 Hw)|].
    intros k1 k2 v1 v2 H1 H2 E.
    rewrite <- (V2_wellKeyed_get _ _ _ Hw H1), <- (V2_wellKeyed_get _ _ _ Hw H2).
    exact E.
  - intros entry. split.
    + intros Hin. destruct (In_values_get m entry (proj1 Hw) Hin) as (k & Hg).
      now rewrite (V2_wellKeyed_get _ _ _ Hw Hg).
    + apply get_In_values.
Qed.

End V2ListingFacts.

(** ** Who may take a contact *)

Section V2ContactFacts.
Context {js : JsString}.

(** X16.  While [contactsStorage] indexes the profiles, the contact of a
    stored profile cannot be taken: [createUserProfile] with it and
    [updateUserProfile] of another profile with it answer [InvalidPayload]
    and change nothing.  A profile can be updated under the contact it has:
    that update is accepted whenever the name and the contact are not blank. *)
Theorem V2Full_contact_belongs_to_its_owner st ownerId owner payload :
  V2Full.contactIndexed st ->
  get (V2Full.usersStorage st) ownerId = Some owner ->
  User.contact owner = trim (User.contact payload) ->
  (forall userId time,
     V2Full.createUserProfile st payload userId time
     = (Err V2.Error.InvalidPayload, st))
  /\ (forall userId,
        userId <> ownerId ->
        get (V2Full.usersStorage st) userId <> None ->
        V2Full.updateUserProfile st userId payload
        = (Err V2.Error.InvalidPayload, st))
  /\ (falsy (User.name payload) = false ->
      falsy (User.contact payload) = false ->
      trim (User.name payload) <> "" ->
      trim (User.contact payload) <> "" ->
      exists updatedUser st',
        V2Full.updateUserProfile st ownerId payload = (Ok updatedUser, st')
        /\ V2Full.getUserProfile st' ownerId = Ok updatedUser
        /\ User.contact updatedUser = User.contact owner
        /\ User.id updatedUser = User.id owner
        /\ User.created_at updatedUser = User.created_at owner
        /\ User.status updatedUser = User.status owner
        /\ User.points updatedUser = User.points owner).
Proof.
  intros Hidx Hg Hc. pose proof (Hidx _ _ Hg) as Hk. rewrite Hc in Hk.
  repeat split.
  - intros userId time. unfold V2Full.createUserProfile, V2.createError. cbv zeta.
    destruct (falsy _ || falsy _ || _ || _ || _); [reflexivity|].
    now rewrite Hk.
  - intros userId Hne Hex.
    unfold V2Full.updateUserProfile, V2.createError. cbv zeta.
    destruct (falsy _ || falsy _ || _ || _ || _); [reflexivity|].
    destruct (get (V2Full.usersStorage st) userId); [|now elim Hex].
    rewrite Hk. apply not_eq_sym, String.eqb_neq in Hne. now rewrite Hne.
  - intros Hn Hcn Htn Htc.
    unfold V2Full.updateUserProfile, V2.createError. cbv zeta.
    apply String.eqb_neq in Htn, Htc.
    rewrite Hn, Hcn, Htn, Htc, Hg, Hk, String.eqb_refl. cbn.
    eexists _, _. split; [reflexivity|].
    unfold V2Full.getUserProfile, V2Full.usersStorage. cbn.
    rewrite get_insert_eq. repeat split. now rewrite Hc.
Qed.

End V2ContactFacts.

(** ** The guards of a tip and of a rating, and a call that is repeated *)

Lemma insert_insert {V : Type} (m : StableBTreeMap.t V) k v v' :
  insert (insert m k v) k v' = insert m k v'.
Proof.
  induction m as [|[k0 v0] m IH]; simpl.
  - now rewrite compare_refl.
  - destruct (String.compare k k0) eqn:Hc; simpl.
    + now rewrite compare_refl.
    + now rewrite compare_refl.
    + now rewrite Hc, IH.
Qed.

Section V2AcceptanceFacts.
Context {js : JsString}.

(** [find] answers when some element passes the test. *)
Lemma find_In_Some {A : Type} (p : A -> bool) (l : list A) x :
  In x l -> p x = true -> find p l <> None.
Proof.
  intros Hin Hp Hnone. exact (eq_true_false_abs _ Hp (find_none p l Hnone x Hin)).
Qed.

(** When the guards of [createTip] and of [createRating] let a call
    through: it depends on the payload and on the users store alone. *)
Lemma V2_accepted_iff st :
  (forall payload tipId time,
     V2.accepted st (V2.CreateTip payload tipId time) = true <->
     Tip.dj_name payload <> "" /\ Tip.user_id payload <> ""
     /\ trim (Tip.dj_name payload) <> "" /\ 0 < Tip.amount payload
     /\ (exists user,
           get (V2.usersStorage st) (Tip.user_id payload) = Some user
           /\ is_DJ (User.role user) = false)
     /\ exists dj,
          In dj (values (V2.usersStorage st))
          /\ is_DJ (User.role dj) = true
          /\ toLowerCase (User.name dj) = toLowerCase (trim (Tip.dj_name payload)))
  /\ (forall payload ratingId time,
        V2.accepted st (V2.CreateRating payload ratingId time) = true <->
        Rating.dj_name payload <> "" /\ Rating.user_id payload <> ""
        /\ trim (Rating.dj_name payload) <> "" /\ 1 <= Rating.rating payload <= 5
        /\ get (V2.usersStorage st) (Rating.user_id payload) <> None
        /\ exists dj,
             In dj (values (V2.usersStorage st))
             /\ is_DJ (User.role dj) = true
             /\ toLowerCase (User.name dj)
                = toLowerCase (trim (Rating.dj_name payload))).
Proof.
  split.
  - intros payload tipId time. cbn [V2.accepted]. unfold V2.createTip, falsy.
    cbv zeta. split.
    + destruct (Tip.dj_name payload =? "")%string eqn:E1; [discriminate|].
      destruct (Tip.user_id payload =? "")%string eqn:E2; [discriminate|].
      destruct (trim (Tip.dj_name payload) =? "")%string eqn:E3; [discriminate|].
      destruct (Tip.amount payload <=? 0) eqn:E4; [discriminate|]. cbn [orb].
      destruct (get (V2.usersStorage st) _) as [user|] eqn:Hu; [|discriminate].
      destruct (is_DJ (User.role user)) eqn:Hr; [discriminate|].
      unfold V2.findDJ.
      destruct (find _ _) as [dj|] eqn:Hd; [|discriminate]. intros _.
      apply String.eqb_neq in E1, E2, E3. apply Z.leb_gt in E4.
      apply find_some in Hd. destruct Hd as (Hin & Hp).
      apply andb_prop in Hp. destruct Hp as (Hn & Hdj).
      apply String.eqb_eq in Hn.
      repeat split; try assumption; eauto.
    + intros (E1 & E2 & E3 & E4 & (user & Hu & Hr) & dj & Hin & Hdj & Hn).
      apply String.eqb_neq in E1, E2, E3. apply Z.leb_gt in E4.
      rewrite E1, E2, E3, E4, Hu, Hr. cbn [orb].
      unfold V2.findDJ.
      destruct (find _ _) eqn:Hd; [reflexivity|].
      exfalso. revert Hd. apply (find_In_Some _ _ dj Hin).
      rewrite Hn, String.eqb_refl, Hdj. reflexivity.
  - intros payload ratingId time. cbn [V2.accepted]. unfold V2.createRating, falsy.
    cbv zeta. split.
    + destruct (Rating.dj_name payload =? "")%string eqn:E1; [discriminate|].
      destruct (Rating.user_id payload =? "")%string eqn:E2; [discriminate|].
      destruct (trim (Rating.dj_name payload) =? "")%string eqn:E3; [discriminate|].
      destruct (Rating.rating payload <? 1) eqn:E4; [discriminate|].
      destruct (Rating.rating payload >? 5) eqn:E5; [discriminate|]. cbn [orb].
      destruct (get (V2.usersStorage st) _) as [user|] eqn:Hu; [|discriminate].
      unfold V2.findDJ.
      destruct (find _ _) as [dj|] eqn:Hd; [|discriminate]. intros _.
      apply String.eqb_neq in E1, E2, E3. apply Z.ltb_ge in E4.
      rewrite Z.gtb_ltb in E5. apply Z.ltb_ge in E5.
      apply find_some in Hd. destruct Hd as (Hin & Hp).
      apply andb_prop in Hp. destruct Hp as (Hn & Hdj).
      apply String.eqb_eq in Hn.
      repeat split; try assumption; try discriminate; eauto.
    + intros (E1 & E2 & E3 & (E4 & E5) & Hu & dj & Hin & Hdj & Hn).
      apply String.eqb_neq in E1, E2, E3. apply Z.ltb_ge in E4.
      assert (E6 : (Rating.rating payload >? 5) = false)
        by (rewrite Z.gtb_ltb; now apply Z.ltb_ge).
      rewrite E1, E2, E3, E4, E6. cbn [orb].
      destruct (get (V2.usersStorage st) _); [|now elim Hu].
      unfold V2.findDJ.
      destruct (find _ _) eqn:Hd; [reflexivity|].
      exfalso. revert Hd. apply (find_In_Some _ _ dj Hin).
      rewrite Hn, String.eqb_refl, Hdj. reflexivity.
Qed.

(** A call that passes the guards passes them again, and a second run to
    the end adds its share again, while the tips and ratings stores hold
    one record under the identifier. *)
Lemma V2_step_twice st c :
  V2.accepted st c = true ->
  let key := V2Ledger.callKey c in
  let once := V2.step st c in
  let twice := V2.step once c in
  V2.accepted once c = true
  /\ V2.totalTipsOf twice key = V2.totalTipsOf st key + 2 * V2Ledger.tipShare c
  /\ V2Ledger.totalRatingsOf twice key
     = V2Ledger.totalRatingsOf st key + 2 * V2Ledger.countShare c
  /\ V2Ledger.totalPointsOf twice key
     = V2Ledger.totalPointsOf st key + 2 * V2Ledger.pointShare c
  /\ V2.tipsStorage twice = V2.tipsStorage once
  /\ V2.ratingsStorage twice = V2.ratingsStorage once.
Proof.
  intros Ha key once twice.
  assert (Ha' : V2.accepted once c = true).
  { rewrite <- Ha. apply V2_accepted_users. apply V2_step_users. }
  destruct (V2_step_counters st c key) as (Ht1 & Hr1 & Hp1 & _).
  destruct (V2_step_counters once c key) as (Ht2 & Hr2 & Hp2 & _).
  cbv zeta in Ht1, Hr1, Hp1, Ht2, Hr2, Hp2.
  unfold key in Ht1, Hr1, Hp1, Ht2, Hr2, Hp2.
  rewrite Ha, String.eqb_refl in Ht1, Hr1, Hp1.
  rewrite Ha', String.eqb_refl in Ht2, Hr2, Hp2.
  cbn [andb] in Ht1, Hr1, Hp1, Ht2, Hr2, Hp2.
  fold key once in Ht1, Hr1, Hp1, Ht2, Hr2, Hp2. fold twice in Ht2, Hr2, Hp2.
  split; [exact Ha'|]. repeat split; try lia.
  - subst twice once.
    destruct c as [payload tipId time | payload ratingId time];
      cbn [V2.step V2.accepted] in *.
    + destruct (V2.createTip st payload tipId time) as [[tip|e] st1] eqn:Hc1;
        [|discriminate]. cbn [snd] in *.
      destruct (V2.createTip st1 payload tipId time) as [[tip'|e] st2] eqn:Hc2;
        [|discriminate]. cbn [snd].
      destruct (V2_createTip_Ok_record _ _ _ _ _ _ Hc1) as (E1 & _).
      destruct (V2_createTip_Ok_record _ _ _ _ _ _ Hc2) as (E2 & _).
      apply V2_createTip_Ok in Hc1, Hc2. cbv zeta in Hc1, Hc2.
      destruct Hc1 as (_ & _ & _ & Hs1 & _). destruct Hc2 as (_ & _ & _ & Hs2 & _).
      rewrite Hs2, Hs1, E1, E2. apply insert_insert.
    + destruct (V2.createRating st payload ratingId time) as [[r|e] st1] eqn:Hc1;
        [|discriminate]. cbn [snd] in *.
      destruct (V2.createRating st1 payload ratingId time) as [[r'|e] st2] eqn:Hc2;
        [|discriminate]. cbn [snd].
      apply V2_createRating_Ok in Hc1, Hc2. cbv zeta in Hc1, Hc2.
      destruct Hc1 as (_ & _ & Hs1 & _). destruct Hc2 as (_ & _ & Hs2 & _).
      now rewrite Hs2.
  - subst twice once.
    destruct c as [payload tipId time | payload ratingId time];
      cbn [V2.step V2.accepted] in *.
    + destruct (V2.createTip st payload tipId time) as [[tip|e] st1] eqn:Hc1;
        [|discriminate]. cbn [snd] in *.
      destruct (V2.createTip st1 payload tipId time) as [[tip'|e] st2] eqn:Hc2;
        [|discriminate]. cbn [snd].
      apply V2_createTip_Ok in Hc1, Hc2. cbv zeta in Hc1, Hc2.
      destruct Hc1 as (_ & _ & Hs1 & _). destruct Hc2 as (_ & _ & Hs2 & _).
      now rewrite Hs2.
    + destruct (V2.createRating st payload ratingId time) as [[r|e] st1] eqn:Hc1;
        [|discriminate]. cbn [snd] in *.
      destruct (V2.createRating st1 payload ratingId time) as [[r'|e] st2] eqn:Hc2;
        [|discriminate]. cbn [snd].
      destruct (V2_createRating_Ok_record _ _ _ _ _ _ Hc1) as (E1 & _).
      destruct (V2_createRating_Ok_record _ _ _ _ _ _ Hc2) as (E2 & _).
      apply V2_createRating_Ok in Hc1, Hc2. cbv zeta in Hc1, Hc2.
      destruct Hc1 as (_ & _ & _ & Hs1 & _). destruct Hc2 as (_ & _ & _ & Hs2 & _).
      rewrite Hs2, Hs1, E1, E2. apply insert_insert.
Qed.

End V2AcceptanceFacts.

(** ** The leaderboard within the range of [nat64] *)

Lemma nat64_range_spec n : V2Nat64.nat64_range n = true <-> 0 <= n < 2 ^ 64.
Proof.
  unfold V2Nat64.nat64_range. rewrite andb_true_iff, Z.leb_le, Z.ltb_lt. tauto.
Qed.

Section V2Nat64Facts.
Context {js : JsString}.

(** The counters of the entry that a call writes. *)
Lemma V2Nat64_written st c :
  V2.accepted st c = true ->
  let key := V2Ledger.callKey c in
  exists entry,
    V2Nat64.written st c = Some entry
    /\ E2.total_tips entry = V2.totalTipsOf st key + V2Ledger.tipShare c
    /\ E2.total_ratings entry
       = V2Ledger.totalRatingsOf st key + V2Ledger.countShare c
    /\ E2.total_rating_points entry
       = V2Ledger.totalPointsOf st key + V2Ledger.pointShare c.
Proof.
  intros Ha key. unfold V2Nat64.written. rewrite Ha.
  destruct (V2_step_accepted st c Ha)
    as (_ & _ & _ & _ & _ & entry & Hl & Ht & Hr & Hp & _).
  exists entry. fold key. rewrite Hl, get_insert_eq. auto.
Qed.

(** A call returns [Ok] when it passes its guards and the three counters it
    writes are in the range of [nat64]. *)
Lemma V2Nat64_returnsOk st c :
  let key := V2Ledger.callKey c in
  V2Nat64.returnsOk st c
  = V2.accepted st c
    && (V2Nat64.nat64_range (V2.totalTipsOf st key + V2Ledger.tipShare c)
        && V2Nat64.nat64_range
             (V2Ledger.totalRatingsOf st key + V2Ledger.countShare c)
        && V2Nat64.nat64_range
             (V2Ledger.totalPointsOf st key + V2Ledger.pointShare c)).
Proof.
  intros key. unfold V2Nat64.returnsOk, V2Nat64.traps.
  destruct (V2.accepted st c) eqn:Ha; [|reflexivity].
  destruct (V2Nat64_written st c Ha) as (entry & -> & Ht & Hr & Hp).
  fold key in Ht, Hr, Hp. unfold V2Nat64.encodes.
  rewrite Ht, Hr, Hp, negb_involutive. reflexivity.
Qed.

(** A step within the range is a step of [V2] that returns [Ok], or changes
    nothing. *)
Lemma V2Nat64_step_cases st c :
  (V2Nat64.returnsOk st c = true /\ V2.accepted st c = true
   /\ V2Nat64.step st c = V2.step st c)
  \/ (V2Nat64.returnsOk st c = false /\ V2Nat64.step st c = st).
Proof.
  unfold V2Nat64.returnsOk, V2Nat64.step, V2Nat64.traps, V2Nat64.written.
  destruct (V2.accepted st c) eqn:Ha.
  - destruct (get _ _) as [entry|]; [destruct (V2Nat64.encodes entry)|]; cbn; auto.
  - right. split; [reflexivity|]. now apply V2_step_rejected.
Qed.

(** A run within the range is the run of the calls that return [Ok]. *)
Lemma V2Nat64_run_served calls : forall st,
  V2Nat64.run st calls = V2.run st (V2Nat64.served st calls)
  /\ V2.allAccepted st (V2Nat64.served st calls).
Proof.
  induction calls as [|c calls IH]; intros st; [split; [reflexivity|exact I]|].
  change (V2Nat64.run st (c :: calls))
    with (V2Nat64.run (V2Nat64.step st c) calls).
  cbn [V2Nat64.served].
  destruct (IH (V2Nat64.step st c)) as (Hrun & Hacc).
  destruct (V2Nat64_step_cases st c) as [(-> & Ha & Hs)|(-> & Hs)].
  - rewrite Hs in *. split; [exact Hrun|]. split; assumption.
  - rewrite Hs in *. split; assumption.
Qed.

Lemma V2_run_monotone calls : forall st key,
  V2.totalTipsOf st key <= V2.totalTipsOf (V2.run st calls) key
  /\ V2Ledger.totalRatingsOf st key <= V2Ledger.totalRatingsOf (V2.run st calls) key
  /\ V2Ledger.totalPointsOf st key <= V2Ledger.totalPointsOf (V2.run st calls) key.
Proof.
  induction calls as [|c calls IH]; intros st key; [simpl; lia|].
  change (V2.run st (c :: calls)) with (V2.run (V2.step st c) calls).
  destruct (IH (V2.step st c) key) as (H1 & H2 & H3).
  destruct (V2_step_monotone st c key) as (G1 & G2 & G3 & _). lia.
Qed.

(** When the counters start at or above zero and end in the range, no call
    of the run traps. *)
Lemma V2Nat64_run_no_trap calls : forall st,
  (forall key,
     0 <= V2.totalTipsOf st key /\ 0 <= V2Ledger.totalRatingsOf st key
     /\ 0 <= V2Ledger.totalPointsOf st key) ->
  (forall key,
     V2.totalTipsOf (V2.run st calls) key < 2 ^ 64
     /\ V2Ledger.totalRatingsOf (V2.run st calls) key < 2 ^ 64
     /\ V2Ledger.totalPointsOf (V2.run st calls) key < 2 ^ 64) ->
  V2Nat64.run st calls = V2.run st calls.
Proof.
  induction calls as [|c calls IH]; intros st Hlow Hhigh; [reflexivity|].
  change (V2Nat64.run st (c :: calls))
    with (V2Nat64.run (V2Nat64.step st c) calls).
  change (V2.run st (c :: calls)) with (V2.run (V2.step st c) calls) in *.
  assert (Hs : V2Nat64.step st c = V2.step st c).
  { destruct (V2Nat64_step_cases st c) as [(_ & _ & Hs)|(Hr & Hs)]; [exact Hs|].
    rewrite Hs. destruct (V2.accepted st c) eqn:Ha;
      [|symmetry; now apply V2_step_rejected].
    exfalso. rewrite V2Nat64_returnsOk, Ha in Hr. cbv zeta in Hr.
    set (key := V2Ledger.callKey c) in *.
    destruct (V2_step_counters st c key) as (Ht & Hn & Hp & _).
    cbv zeta in Ht, Hn, Hp. unfold key in Ht, Hn, Hp.
    rewrite Ha, String.eqb_refl in Ht, Hn, Hp. cbn [andb] in Ht, Hn, Hp.
    fold key in Ht, Hn, Hp.
    destruct (V2_step_accepted st c Ha) as (S1 & S2 & S3 & _).
    destruct (V2_run_monotone calls (V2.step st c) key) as (M1 & M2 & M3).
    destruct (Hlow key) as (L1 & L2 & L3). destruct (Hhigh key) as (U1 & U2 & U3).
    assert (E : forall n, 0 <= n < 2 ^ 64 -> V2Nat64.nat64_range n = true)
      by (intros n; apply nat64_range_spec).
    rewrite !E in Hr by lia. discriminate. }
  rewrite Hs. apply IH.
  - intros key. destruct (Hlow key) as (L1 & L2 & L3).
    destruct (V2_step_monotone st c key) as (G1 & G2 & G3 & _). lia.
  - exact Hhigh.
Qed.

(** The totals that fit bound the counters of the run. *)
Lemma V2Nat64_fits_bound users calls key :
  V2Nat64.fits users calls = true ->
  V2.totalTipsOf (V2.run (V2.init users) calls) key < 2 ^ 64
  /\ V2Ledger.totalRatingsOf (V2.run (V2.init users) calls) key < 2 ^ 64
  /\ V2Ledger.totalPointsOf (V2.run (V2.init users) calls) key < 2 ^ 64.
Proof.
  intros Hfits.
  unfold V2.totalTipsOf, V2Ledger.totalRatingsOf, V2Ledger.totalPointsOf.
  rewrite V2_run_recount.
  set (passing := filter (V2.accepted (V2.init users)) calls) in *.
  destruct (V2Ledger.recount key passing) as [entry|] eqn:Hrec;
    [|repeat split; reflexivity].
  assert (He : V2Nat64.encodes entry = true).
  { unfold V2Nat64.fits in Hfits. fold passing in Hfits.
    rewrite forallb_forall in Hfits.
    assert (Hmine : exists c, In c passing /\ V2Ledger.callKey c = key).
    { unfold V2Ledger.recount in Hrec.
      destruct (filter (fun c => (V2Ledger.callKey c =? key)%string) passing)
        as [|c l] eqn:Hf; [discriminate|].
      assert (Hin : In c (filter (fun c => (V2Ledger.callKey c =? key)%string)
                            passing)) by (rewrite Hf; now left).
      apply filter_In in Hin. destruct Hin as (Hin & Hk).
      exists c. split; [exact Hin|]. now apply String.eqb_eq. }
    destruct Hmine as (c & Hin & Hk).
    specialize (Hfits c Hin). now rewrite Hk, Hrec in Hfits. }
  unfold V2Nat64.encodes in He.
  apply andb_prop in He. destruct He as (He & H3).
  apply andb_prop in He. destruct He as (H1 & H2).
  apply nat64_range_spec in H1, H2, H3. lia.
Qed.

Lemma V2Nat64_run_fits users calls :
  V2Nat64.fits users calls = true ->
  V2Nat64.run (V2.init users) calls = V2.run (V2.init users) calls.
Proof.
  intros Hfits. apply V2Nat64_run_no_trap.
  - intros key. cbn. lia.
  - intros key. now apply V2Nat64_fits_bound.
Qed.

Lemma V2Nat64_fits_Permutation users calls calls' :
  Permutation calls calls' ->
  V2Nat64.fits users calls = true -> V2Nat64.fits users calls' = true.
Proof.
  intros HP. unfold V2Nat64.fits. cbv zeta.
  assert (Hp : Permutation (filter (V2.accepted (V2.init users)) calls)
                 (filter (V2.accepted (V2.init users)) calls'))
    by now apply Permutation_filter.
  rewrite !forallb_forall. intros H c Hin.
  rewrite <- (V2_recount_Permutation _ _ _ Hp).
  apply H. eapply Permutation_in; [apply Permutation_sym, Hp|exact Hin].
Qed.

(** X7.  The leaderboard after a run is the recount of the calls that
    returned [Ok]: the entry under a key holds the sum of their tips, the
    count and the sum of their ratings filed under that key, and the Number
    quotient of the last two; a key that none of them has holds no entry.
    A call that passes its guards returns [Ok] unless a counter it writes
    leaves the range of [nat64]; when the totals of the run fit, the calls
    that returned [Ok] are the calls that pass the guards. *)
Theorem V2_leaderboard_is_recount users calls key :
  let entry :=
    get (V2.leaderboardStorage (V2Nat64.run (V2.init users) calls)) key in
  entry = V2Ledger.recount key (V2Nat64.served (V2.init users) calls)
  /\ (V2Nat64.fits users calls = true ->
      entry = V2Ledger.recount key (filter (V2.accepted (V2.init users)) calls)).
Proof.
  intros entry. unfold entry. split.
  - destruct (V2Nat64_run_served calls (V2.init users)) as (-> & Hacc).
    rewrite V2_run_recount. now rewrite (V2_allAccepted_filter _ _ Hacc).
  - intros Hfits. rewrite (V2Nat64_run_fits _ _ Hfits). apply V2_run_recount.
Qed.

(** X12.  As long as the totals fit the range of [nat64], the leaderboard
    does not depend on the order the tips and ratings arrive in: two
    sequences with the same calls leave the same leaderboard store, so
    [getLeaderboard] and [searchDJsByRating] answer alike after either. *)
Theorem V2_leaderboard_order_independent users calls calls' :
  Permutation calls calls' ->
  V2Nat64.fits users calls = true ->
  let st := V2Nat64.run (V2.init users) calls in
  let st' := V2Nat64.run (V2.init users) calls' in
  V2.leaderboardStorage st' = V2.leaderboardStorage st
  /\ V2.getLeaderboard st' = V2.getLeaderboard st
  /\ forall rating, V2.searchDJsByRating st' rating = V2.searchDJsByRating st rating.
Proof.
  intros HP Hfits st st'.
  pose proof (V2Nat64_fits_Permutation _ _ _ HP Hfits) as Hfits'.
  unfold st, st'.
  rewrite (V2Nat64_run_fits _ _ Hfits), (V2Nat64_run_fits _ _ Hfits').
  assert (Hl : V2.leaderboardStorage (V2.run (V2.init users) calls')
               = V2.leaderboardStorage (V2.run (V2.init users) calls))
    by now apply V2_run_Permutation.
  unfold V2.getLeaderboard, V2.searchDJsByRating.
  rewrite Hl, !V2_run_users. auto.
Qed.

(** X17.  Whether [createTip] and [createRating] return [Ok] depends on the
    payload, on the users store and on the counters of the entry of the
    name, not on the identifier or the time.  A tip returns [Ok] exactly
    when the DJ name is not blank, the user identifier is not empty, the
    amount is positive, the user is stored without the DJ role, some stored
    profile with the DJ role has the trimmed name up to letter case, and
    the counters of the entry with the amount added are in the range of
    [nat64]; a rating exactly when the names are as for a tip, the rating
    is from 1 to 5, the user is stored, the DJ is found in the same way, and
    the counters with the rating added are in the range. *)
Theorem V2_acceptance st :
  (forall payload tipId time,
     let key := trim (Tip.dj_name payload) in
     V2Nat64.returnsOk st (V2.CreateTip payload tipId time) = true <->
     (Tip.dj_name payload <> "" /\ Tip.user_id payload <> ""
      /\ trim (Tip.dj_name payload) <> "" /\ 0 < Tip.amount payload
      /\ (exists user,
            get (V2.usersStorage st) (Tip.user_id payload) = Some user
            /\ is_DJ (User.role user) = false)
      /\ exists dj,
           In dj (values (V2.usersStorage st))
           /\ is_DJ (User.role dj) = true
           /\ toLowerCase (User.name dj) = toLowerCase (trim (Tip.dj_name payload)))
     /\ 0 <= V2.totalTipsOf st key + Tip.amount payload < 2 ^ 64
     /\ 0 <= V2Ledger.totalRatingsOf st key < 2 ^ 64
     /\ 0 <= V2Ledger.totalPointsOf st key < 2 ^ 64)
  /\ (forall payload ratingId time,
        let key := trim (Rating.dj_name payload) in
        V2Nat64.returnsOk st (V2.CreateRating payload ratingId time) = true <->
        (Rating.dj_name payload <> "" /\ Rating.user_id payload <> ""
         /\ trim (Rating.dj_name payload) <> "" /\ 1 <= Rating.rating payload <= 5
         /\ get (V2.usersStorage st) (Rating.user_id payload) <> None
         /\ exists dj,
              In dj (values (V2.usersStorage st))
              /\ is_DJ (User.role dj) = true
              /\ toLowerCase (User.name dj)
                 = toLowerCase (trim (Rating.dj_name payload)))
        /\ 0 <= V2.totalTipsOf st key < 2 ^ 64
        /\ 0 <= V2Ledger.totalRatingsOf st key + 1 < 2 ^ 64
        /\ 0 <= V2Ledger.totalPointsOf st key + Rating.rating payload < 2 ^ 64).
Proof.
  destruct (V2_accepted_iff st) as (Htip & Hrating).
  split.
  - intros payload tipId time key.
    rewrite V2Nat64_returnsOk, !andb_true_iff, !nat64_range_spec, Htip.
    cbn [V2Ledger.callKey V2Ledger.tipShare V2Ledger.countShare
         V2Ledger.pointShare]. fold key.
    rewrite !Z.add_0_r. tauto.
  - intros payload ratingId time key.
    rewrite V2Nat64_returnsOk, !andb_true_iff, !nat64_range_spec, Hrating.
    cbn [V2Ledger.callKey V2Ledger.tipShare V2Ledger.countShare
         V2Ledger.pointShare]. fold key.
    rewrite !Z.add_0_r. tauto.
Qed.

(** X18.  The leaderboard has no memory of the calls it has counted: a tip
    or a rating that returned [Ok] and is sent a second time, with the same
    identifier and time, returns [Ok] again exactly when the counters with
    twice its share are in the range of [nat64]; it is then counted again,
    while the tips and ratings stores hold one record under that
    identifier.  Otherwise the second call changes nothing. *)
Theorem V2_repeated_call_counts_twice st c :
  V2Nat64.returnsOk st c = true ->
  let key := V2Ledger.callKey c in
  let once := V2Nat64.step st c in
  let twice := V2Nat64.step once c in
  V2Nat64.returnsOk once c
  = V2Nat64.nat64_range (V2.totalTipsOf st key + 2 * V2Ledger.tipShare c)
    && V2Nat64.nat64_range
         (V2Ledger.totalRatingsOf st key + 2 * V2Ledger.countShare c)
    && V2Nat64.nat64_range
         (V2Ledger.totalPointsOf st key + 2 * V2Ledger.pointShare c)
  /\ (V2Nat64.returnsOk once c = true ->
      V2.totalTipsOf twice key = V2.totalTipsOf st key + 2 * V2Ledger.tipShare c
      /\ V2Ledger.totalRatingsOf twice key
         = V2Ledger.totalRatingsOf st key + 2 * V2Ledger.countShare c
      /\ V2Ledger.totalPointsOf twice key
         = V2Ledger.totalPointsOf st key + 2 * V2Ledger.pointShare c
      /\ V2.tipsStorage twice = V2.tipsStorage once
      /\ V2.ratingsStorage twice = V2.ratingsStorage once)
  /\ (V2Nat64.returnsOk once c = false -> twice = once).
Proof.
  intros Hok key once twice.
  destruct (V2Nat64_step_cases st c) as [(_ & Ha & Hs)|(Hr & _)]; [|congruence].
  assert (Ha' : V2.accepted once c = true).
  { unfold once. rewrite Hs, <- Ha. apply V2_accepted_users, V2_step_users. }
  destruct (V2_step_twice st c Ha) as (_ & Ht & Hn & Hp & Hts & Hrs).
  cbv zeta in Ht, Hn, Hp, Hts, Hrs. fold key in Ht, Hn, Hp.
  repeat split.
  - rewrite V2Nat64_returnsOk, Ha'. cbv zeta. fold key. cbn [andb].
    destruct (V2_step_counters st c key) as (Ht1 & Hn1 & Hp1 & _).
    cbv zeta in Ht1, Hn1, Hp1. unfold key in Ht1, Hn1, Hp1.
    rewrite Ha, String.eqb_refl in Ht1, Hn1, Hp1. cbn [andb] in Ht1, Hn1, Hp1.
    fold key in Ht1, Hn1, Hp1. unfold once. rewrite Hs, Ht1, Hn1, Hp1.
    rewrite <- !Z.add_assoc, !Z.add_diag. reflexivity.
  - destruct (V2Nat64_step_cases once c) as [(_ & _ & Hs2)|(Hr & _)];
      [|congruence].
    unfold twice. rewrite Hs2. unfold once. rewrite Hs. exact Ht.
  - destruct (V2Nat64_step_cases once c) as [(_ & _ & Hs2)|(Hr & _)];
      [|congruence].
    unfold twice. rewrite Hs2. unfold once. rewrite Hs. exact Hn.
  - destruct (V2Nat64_step_cases once c) as [(_ & _ & Hs2)|(Hr & _)];
      [|congruence].
    unfold twice. rewrite Hs2. unfold once. rewrite Hs. exact Hp.
  - destruct (V2Nat64_step_cases once c) as [(_ & _ & Hs2)|(Hr & _)];
      [|congruence].
    unfold twice. rewrite Hs2. unfold once. rewrite Hs. exact Hts.
  - destruct (V2Nat64_step_cases once c) as [(_ & _ & Hs2)|(Hr & _)];
      [|congruence].
    unfold twice. rewrite Hs2. unfold once. rewrite Hs. exact Hrs.
  - intros Hr. destruct (V2Nat64_step_cases once c) as [(Hr' & _)|(_ & Hs2)];
      [congruence|exact Hs2].
Qed.

End V2Nat64Facts.

(** ** One DJ under two spellings, and tips at the end of the range *)


(** A tip that passes every guard does not return [Ok] when the entry holds
    the largest [nat64]: the leaderboard, and with it the tips store, stay as
    they were. *)
Example V2Nat64_tip_at_the_bound :
  let st := V2Nat64.run (js := AsciiText.builtins) (V2.init Scenario.users)
              [Journey.largeTip Journey.largest "t1"] in
  let c := Journey.largeTip 1 "t2" in
  V2.totalTipsOf st "Nova" = 2 ^ 64 - 1
  /\ V2.accepted (js := AsciiText.builtins) st c = true
  /\ V2Nat64.returnsOk (js := AsciiText.builtins) st c = false
  /\ V2Nat64.step (js := AsciiText.builtins) st c = st.
Proof. cbv zeta. repeat split; vm_compute; reflexivity. Qed.

(** At the bound the order of two tips decides which of them is counted. *)
Example V2Nat64_order_at_the_bound :
  let run := V2Nat64.run (js := AsciiText.builtins) (V2.init Scenario.users) in
  V2.totalTipsOf
    (run [Journey.largeTip Journey.largest "t1"; Journey.largeTip 1 "t2"]) "Nova"
  = 2 ^ 64 - 1
  /\ V2.totalTipsOf
       (run [Journey.largeTip 1 "t2"; Journey.largeTip Journey.largest "t1"]) "Nova"
     = 1.
Proof. cbv zeta. split; vm_compute; reflexivity. Qed.

(** ** The whole canister of the revision with [avg_rating : nat64] *)

Lemma get_remove_eq {V : Type} (m : StableBTreeMap.t V) k : get (remove m k) k = None.
Proof.
  unfold remove. induction m as [|[k' v'] m IH]; simpl; [reflexivity|].
  destruct (String.eqb_spec k' k) as [->|Hne]; simpl; [exact IH|].
  destruct (String.eqb_spec k k'); [congruence|exact IH].
Qed.

Lemma get_remove_ne {V : Type} (m : StableBTreeMap.t V) k k0 :
  k0 <> k -> get (remove m k) k0 = get m k0.
Proof.
  intros Hne. unfold remove.
  induction m as [|[k' v'] m IH]; simpl; [reflexivity|].
  destruct (String.eqb_spec k' k) as [->|Hne']; simpl.
  - destruct (String.eqb_spec k0 k); [congruence|exact IH].
  - now rewrite IH.
Qed.

Section V1FullFacts.
Context {js : JsString}.

Lemma V1Full_createUserProfile_Err st payload userId time e st' :
  V1Full.createUserProfile st payload userId time = (Err e, st') -> st' = st.
Proof. unfold V1Full.createUserProfile. rejected_call. Qed.

Lemma V1Full_createUserProfile_Ok st payload userId time user st' :
  V1Full.createUserProfile st payload userId time = (Ok user, st') ->
  Forall (fun stored =>
            User.contact stored <> V1Full.UserProfilePayload.contact payload)
    (values (V1Full.usersStorage st))
  /\ user = User.mk userId (V1Full.UserProfilePayload.name payload)
              (V1Full.UserProfilePayload.contact payload) time Active
              (V1Full.UserProfilePayload.role payload) 0
  /\ st' = V1Full.withUsers st (insert (V1Full.usersStorage st) userId user).
Proof.
  unfold V1Full.createUserProfile. cbv zeta.
  destruct (falsy _ || falsy _ || _); [discriminate|].
  destruct (existsb _ _) eqn:He; [discriminate|].
  intros H. inversion H; subst; clear H.
  repeat split. rewrite Forall_forall. intros stored Hin E.
  assert (Ht : existsb
                 (fun user =>
                    (User.contact user
                     =? V1Full.UserProfilePayload.contact payload)%string)
                 (values (V1Full.usersStorage st)) = true).
  { apply existsb_exists. exists stored. split; [exact Hin|].
    now apply String.eqb_eq. }
  congruence.
Qed.

Lemma V1Full_deleteUserProfile_Err st userId e st' :
  V1Full.deleteUserProfile st userId = (Err e, st') -> st' = st.
Proof. unfold V1Full.deleteUserProfile. rejected_call. Qed.

Lemma V1Full_deleteUserProfile_Ok st userId b st' :
  V1Full.deleteUserProfile st userId = (Ok b, st') ->
  b = true
  /\ get (V1Full.usersStorage st) userId <> None
  /\ st' = V1Full.withUsers st (remove (V1Full.usersStorage st) userId).
Proof.
  unfold V1Full.deleteUserProfile.
  destruct (get _ _) eqn:Hg; [|discriminate].
  intros H. inversion H; subst. repeat split. discriminate.
Qed.

(** X19.  A profile that [deleteUserProfile] deletes is gone: looking it up
    or deleting it again answers [NotFound]; the other profiles stay, and so
    do the tips, the ratings and the leaderboard, with the entries of a
    deleted DJ. *)
Theorem V1Full_deleted_profile_is_gone st userId b st' :
  V1Full.deleteUserProfile st userId = (Ok b, st') ->
  V1Full.getUserProfile st' userId = Err V1.Error.NotFound
  /\ V1Full.deleteUserProfile st' userId = (Err V1.Error.NotFound, st')
  /\ (forall other, other <> userId ->
        V1Full.getUserProfile st' other = V1Full.getUserProfile st other)
  /\ V1.tipsStorage (V1Full.core st') = V1.tipsStorage (V1Full.core st)
  /\ V1.ratingsStorage (V1Full.core st') = V1.ratingsStorage (V1Full.core st)
  /\ V1.leaderboardStorage (V1Full.core st')
     = V1.leaderboardStorage (V1Full.core st).
Proof.
  intros Hc. apply V1Full_deleteUserProfile_Ok in Hc.
  destruct Hc as (_ & _ & ->).
  unfold V1Full.getUserProfile, V1Full.deleteUserProfile, V1Full.usersStorage.
  cbn. fold (V1Full.usersStorage st).
  rewrite get_remove_eq. repeat split.
  intros other Hne. now rewrite get_remove_ne.
Qed.

Lemma V1Full_tip_users st payload tipId time :
  V1Full.usersStorage (snd (V1Full.createTip st payload tipId time))
  = V1Full.usersStorage st
  /\ V1Full.eventsStorage (snd (V1Full.createTip st payload tipId time))
     = V1Full.eventsStorage st.
Proof.
  unfold V1Full.createTip, V1Full.usersStorage. simpl.
  destruct (V1.createTip (V1Full.core st) payload tipId time) as [[tip|e] c] eqn:Hc;
    simpl.
  - apply V1_createTip_Ok in Hc. cbv zeta in Hc. intuition.
  - apply V1_createTip_Err in Hc. subst c. intuition.
Qed.

Lemma V1Full_rating_users st payload ratingId time :
  V1Full.usersStorage (snd (V1Full.createRating st payload ratingId time))
  = V1Full.usersStorage st
  /\ V1Full.eventsStorage (snd (V1Full.createRating st payload ratingId time))
     = V1Full.eventsStorage st.
Proof.
  unfold V1Full.createRating, V1Full.usersStorage. simpl.
  destruct (V1.createRating (V1Full.core st) payload ratingId time)
    as [[r|e] c] eqn:Hc; simpl.
  - apply V1_createRating_Ok in Hc. cbv zeta in Hc. intuition.
  - apply V1_createRating_Err in Hc. subst c. intuition.
Qed.

(** The users store after a step: unchanged, or with one profile put under
    a key, or with one key removed. *)
Lemma V1Full_step_users st c :
  let users := V1Full.usersStorage st in
  let users' := V1Full.usersStorage (V1Full.step st c) in
  users' = users
  \/ (exists userId user,
        users' = insert users userId user
        /\ (V1Full.isUpdateUserProfile c = false ->
            Forall (fun stored => User.contact stored <> User.contact user)
              (values users)))
  \/ (exists userId, users' = remove users userId).
Proof.
  destruct c; cbn [V1Full.step V1Full.isUpdateUserProfile].
  - destruct (V1Full.createUserProfile st payload userId time)
      as [[user|e] st'] eqn:Hc; cbn [snd].
    + apply V1Full_createUserProfile_Ok in Hc. destruct Hc as (Hall & Hu & ->).
      right. left. exists userId, user. split; [reflexivity|].
      intros _. rewrite Hu. exact Hall.
    + apply V1Full_createUserProfile_Err in Hc. subst. now left.
  - unfold V1Full.updateUserProfile.
    destruct (falsy _ || falsy _ || _); [now left|].
    destruct (get _ _); [|now left].
    right. left. eexists _, _. split; [reflexivity|]. discriminate.
  - destruct (V1Full.deleteUserProfile st userId) as [[b|e] st'] eqn:Hc; cbn [snd].
    + apply V1Full_deleteUserProfile_Ok in Hc. destruct Hc as (_ & _ & ->).
      right. right. now exists userId.
    + apply V1Full_deleteUserProfile_Err in Hc. subst. now left.
  - unfold V1Full.createEvent.
    destruct (falsy _ || falsy _ || _ || _ || _); now left.
  - unfold V1Full.updateEvent.
    destruct (falsy _ || falsy _ || _ || _); [now left|].
    destruct (get _ _); now left.
  - unfold V1Full.deleteEvent. destruct (get _ _); now left.
  - unfold V1Full.createSongRequest.
    destruct (falsy _ || falsy _); [now left|].
    destruct (get _ _); [|now left].
    destruct (is_DJ _); now left.
  - left. apply V1Full_tip_users.
  - left. apply V1Full_rating_users.
  - unfold V1Full.createPlaylist.
    destruct (falsy _ || _ || falsy _); [now left|].
    destruct (get _ _); now left.
Qed.

Lemma V1Full_step_uniqueContacts st c :
  V1Full.isUpdateUserProfile c = false ->
  V1Full.uniqueContacts (V1Full.usersStorage st) ->
  V1Full.uniqueContacts (V1Full.usersStorage (V1Full.step st c)).
Proof.
  intros Hc Hinv.
  destruct (V1Full_step_users st c) as [->|[(userId & user & -> & Hall)|(userId & ->)]].
  - exact Hinv.
  - specialize (Hall Hc). rewrite Forall_forall in Hall.
    intros id1 id2 u1 u2.
    destruct (String.eqb_spec id1 userId) as [->|Hne1];
      destruct (String.eqb_spec id2 userId) as [->|Hne2]; try reflexivity.
    + rewrite get_insert_eq, get_insert_ne by exact Hne2.
      intros H1 H2 E. inversion H1; subst u1.
      apply get_In_values in H2. now elim (Hall _ H2).
    + rewrite get_insert_eq, get_insert_ne by exact Hne1.
      intros H1 H2 E. inversion H2; subst u2.
      apply get_In_values in H1. now elim (Hall _ H1).
    + rewrite !get_insert_ne by assumption. apply Hinv.
  - intros id1 id2 u1 u2.
    destruct (String.eqb_spec id1 userId) as [->|Hne1];
      [rewrite get_remove_eq; discriminate|].
    destruct (String.eqb_spec id2 userId) as [->|Hne2];
      [rewrite get_remove_eq; discriminate|].
    rewrite !get_remove_ne by assumption. apply Hinv.
Qed.

(** X20.  Along every sequence of update calls without [updateUserProfile]
    the contacts of the stored profiles stay distinct: [createUserProfile]
    turns down a contact that a stored profile has, and the other calls
    add no profile. *)
Theorem V1Full_contacts_stay_unique calls : forall st,
  Forall (fun c => V1Full.isUpdateUserProfile c = false) calls ->
  V1Full.uniqueContacts (V1Full.usersStorage st) ->
  V1Full.uniqueContacts (V1Full.usersStorage (V1Full.run st calls)).
Proof.
  induction calls as [|c calls IH]; intros st Hcalls Hinv; [exact Hinv|].
  inversion Hcalls; subst.
  apply (IH (V1Full.step st c)); [assumption|].
  now apply V1Full_step_uniqueContacts.
Qed.

(** The events store after a step: unchanged, or with one sound event put
    under a key, or with one key removed. *)
Lemma V1Full_step_events st c :
  let events := V1Full.eventsStorage st in
  let events' := V1Full.eventsStorage (V1Full.step st c) in
  events' = events
  \/ (exists eventId event,
        events' = insert events eventId event
        /\ ((forall k e, get events k = Some e -> V1Full.eventSound k e) ->
            V1Full.eventSound eventId event))
  \/ (exists eventId, events' = remove events eventId).
Proof.
  destruct c; cbn [V1Full.step].
  - unfold V1Full.createUserProfile.
    destruct (falsy _ || falsy _ || _); [now left|].
    destruct (existsb _ _); now left.
  - unfold V1Full.updateUserProfile.
    destruct (falsy _ || falsy _ || _); [now left|].
    destruct (get _ _); now left.
  - unfold V1Full.deleteUserProfile. destruct (get _ _); now left.
  - unfold V1Full.createEvent.
    destruct (falsy _ || falsy _ || _ || _ || _) eqn:Hv; [now left|].
    right. left. eexists _, _. split; [reflexivity|]. intros _.
    repeat (apply orb_false_elim in Hv;
            let H := fresh "Hg" in destruct Hv as [Hv H]).
    apply Z.leb_gt in Hg0. apply String.eqb_neq in Hv, Hg1, Hg2.
    repeat split; assumption.
  - unfold V1Full.updateEvent.
    destruct (falsy _ || falsy _ || _ || _) eqn:Hv; [now left|].
    destruct (get _ _) as [old|] eqn:Hold; [|now left].
    right. left. eexists _, _. split; [reflexivity|]. intros Hinv.
    repeat (apply orb_false_elim in Hv;
            let H := fresh "Hg" in destruct Hv as [Hv H]).
    apply Z.leb_gt in Hg. apply String.eqb_neq in Hv, Hg0, Hg1.
    destruct (Hinv _ _ Hold) as (Hid & _).
    repeat split; assumption.
  - unfold V1Full.deleteEvent. destruct (get _ _); [|now left].
    right. right. now eexists.
  - unfold V1Full.createSongRequest.
    destruct (falsy _ || falsy _); [now left|].
    destruct (get _ _); [|now left].
    destruct (is_DJ _); now left.
  - left. apply V1Full_tip_users.
  - left. apply V1Full_rating_users.
  - unfold V1Full.createPlaylist.
    destruct (falsy _ || _ || falsy _); [now left|].
    destruct (get _ _); now left.
Qed.

Lemma V1Full_run_invariant (P : V1Full.State -> Prop) :
  (forall st c, P st -> P (V1Full.step st c)) ->
  forall calls st, P st -> P (V1Full.run st calls).
Proof.
  intros Hstep. induction calls as [|c calls IH]; intros st H; simpl.
  - exact H.
  - apply IH, Hstep, H.
Qed.

(** X21.  Whatever calls the canister has served, an event found under an
    identifier carries that identifier, has a positive capacity and has a
    name, a DJ name and a venue that are not empty: [updateEvent] keeps the
    identifier and checks the new fields as [createEvent] does. *)
Theorem V1Full_events_sound calls eventId event :
  get (V1Full.eventsStorage (V1Full.run V1Full.init calls)) eventId = Some event ->
  V1Full.eventSound eventId event.
Proof.
  revert eventId event.
  apply (V1Full_run_invariant
           (fun st => forall eventId event,
                get (V1Full.eventsStorage st) eventId = Some event ->
                V1Full.eventSound eventId event)).
  - intros st c Hinv eventId event.
    destruct (V1Full_step_events st c) as [->|[(k & e & -> & He)|(k & ->)]].
    + apply Hinv.
    + destruct (String.eqb_spec eventId k) as [->|Hne].
      * rewrite get_insert_eq. intros H. inversion H; subst. now apply He.
      * rewrite get_insert_ne by exact Hne. apply Hinv.
    + destruct (String.eqb_spec eventId k) as [->|Hne].
      * rewrite get_remove_eq. discriminate.
      * rewrite get_remove_ne by exact Hne. apply Hinv.
  - intros eventId event H. discriminate.
Qed.

(** X22.  [getPlaylistByEventId] answers [NotFound] for every argument and
    every content of the playlist store: it compares the [text] field
    [event_id] to its [nat64] argument with [===]. *)
Theorem V1Full_getPlaylistByEventId_finds_nothing st event_id :
  V1Full.getPlaylistByEventId st event_id = Err V1.Error.NotFound.
Proof.
  unfold V1Full.getPlaylistByEventId. cbv zeta.
  assert (E : forall l : list Playlist.t,
             filter (fun playlist =>
                       V1Full.strict_equal_text_nat64
                         (Playlist.event_id playlist) event_id) l = []).
  { induction l as [|x l IH]; simpl; [reflexivity|exact IH]. }
  now rewrite E.
Qed.

End V1FullFacts.

(** ** The properties of the whole canisters on the concrete runs *)

Lemma V2Full_contacts_identify_profiles_witness :
  V2Full.contactIndexed V2Full.init
  /\ let st' := V2Full.run (js := AsciiText.builtins) V2Full.init Journey.calls in
     V2Full.contactIndexed st'
     /\ forall userId1 userId2 user1 user2,
          get (V2Full.usersStorage st') userId1 = Some user1 ->
          get (V2Full.usersStorage st') userId2 = Some user2 ->
          User.contact user1 = User.contact user2 ->
          userId1 = userId2.
Proof.
  assert (H : V2Full.contactIndexed V2Full.init)
    by (intros userId user Hg; discriminate Hg).
  split; [exact H|].
  exact (V2Full_contacts_identify_profiles (js := AsciiText.builtins)
           V2Full.init Journey.calls H).
Defined.

Lemma V2Full_contact_stays_taken_witness :
  let payload := Journey.profile "Eve" " nova@example.org " Admin in
  let st := V2Full.run (js := AsciiText.builtins) Journey.registered Journey.later in
  get (V2Full.contactsStorage Journey.registered)
    (trim (JsString := AsciiText.builtins) (User.contact payload)) <> None
  /\ V2Full.createUserProfile (js := AsciiText.builtins) st payload "eve-1" 200
     = (Err V2.Error.InvalidPayload, st).
Proof.
  split.
  - vm_compute. discriminate.
  - apply (V2Full_contact_stays_taken (js := AsciiText.builtins)).
    vm_compute. discriminate.
Defined.

Lemma V2Full_created_profile_is_found_witness :
  V2Full.createUserProfile (js := AsciiText.builtins) V2Full.init
    (Journey.profile " Nova " "nova@example.org" DJ) "dj-1" 1
  = (Ok Journey.storedNova, Journey.registered)
  /\ V2Full.getUserProfile Journey.registered "dj-1" = Ok Journey.storedNova.
Proof.
  split.
  - vm_compute. reflexivity.
  - apply (V2Full_created_profile_is_found (js := AsciiText.builtins) V2Full.init
             (Journey.profile " Nova " "nova@example.org" DJ) "dj-1" 1).
    vm_compute. reflexivity.
Defined.

Lemma V2Full_profiles_sound_witness :
  get (V2Full.usersStorage Journey.final) "fan-1" = Some Journey.storedAnn
  /\ V2Full.profileSound "fan-1" Journey.storedAnn.
Proof.
  split.
  - vm_compute. reflexivity.
  - apply (V2Full_profiles_sound (js := AsciiText.builtins) Journey.calls).
    vm_compute. reflexivity.
Defined.

Lemma V2Full_events_sound_witness :
  get (V2Full.eventsStorage Journey.final) "e1" = Some Journey.storedLaunch
  /\ V2Full.eventSound "e1" Journey.storedLaunch.
Proof.
  split.
  - vm_compute. reflexivity.
  - apply (V2Full_events_sound (js := AsciiText.builtins) Journey.calls).
    vm_compute. reflexivity.
Defined.

Lemma V2Full_leaderboard_lists_each_name_once_witness :
  V2Full.getLeaderboard
    (V2Full.run (js := AsciiText.builtins) V2Full.init Journey.calls2)
  = Ok [Journey.novaEntry; Journey.zaraEntry]
  /\ NoDup (map E2.dj_name [Journey.novaEntry; Journey.zaraEntry])
  /\ forall entry,
       In entry [Journey.novaEntry; Journey.zaraEntry] <->
       get (V2Full.leaderboardStorage
              (V2Full.run (js := AsciiText.builtins) V2Full.init Journey.calls2))
           (E2.dj_name entry) = Some entry.
Proof.
  split.
  - vm_compute. reflexivity.
  - apply (V2Full_leaderboard_lists_each_name_once (js := AsciiText.builtins)
             Journey.calls2 [Journey.novaEntry; Journey.zaraEntry]).
    vm_compute. reflexivity.
Defined.

Lemma V2Full_average_between_1_and_5_witness :
  get (V2Full.leaderboardStorage Journey.final) "Nova" = Some Journey.novaEntry
  /\ f64_ge (E2.avg_rating Journey.novaEntry) (Number 1) = true
  /\ f64_ge (Number 5) (E2.avg_rating Journey.novaEntry) = true.
Proof.
  split.
  - vm_compute. reflexivity.
  - apply (V2Full_average_between_1_and_5 (js := AsciiText.builtins)
             Journey.calls "Nova").
    + vm_compute. reflexivity.
    + vm_compute. reflexivity.
    + vm_compute. reflexivity.
Defined.

Lemma V2Full_leaderboard_agrees_with_records_witness :
  V2Full.freshIds (js := AsciiText.builtins) V2Full.init Journey.calls
  /\ V2Ledger.agrees
       (V2Full.core (V2Full.run (js := AsciiText.builtins) V2Full.init Journey.calls))
       "Nova".
Proof.
  split.
  - vm_compute. repeat split.
  - apply (V2Full_leaderboard_agrees_with_records (js := AsciiText.builtins)).
    vm_compute. repeat split.
Defined.

Lemma V2_leaderboard_is_recount_witness :
  let st0 := V2.init Scenario.users in
  let atBound := [Journey.largeTip Journey.largest "t1"; Journey.largeTip 1 "t2"] in
  (V2Nat64.fits (js := AsciiText.builtins) Scenario.users Scenario.calls = true
   /\ get (V2.leaderboardStorage
             (V2Nat64.run (js := AsciiText.builtins) st0 Scenario.calls)) "Nova"
      = V2Ledger.recount (js := AsciiText.builtins) "Nova"
          (filter (V2.accepted (js := AsciiText.builtins) st0) Scenario.calls))
  /\ V2Nat64.served (js := AsciiText.builtins) st0 atBound
     = [Journey.largeTip Journey.largest "t1"]
  /\ get (V2.leaderboardStorage
            (V2Nat64.run (js := AsciiText.builtins) st0 atBound)) "Nova"
     = V2Ledger.recount (js := AsciiText.builtins) "Nova"
         (V2Nat64.served (js := AsciiText.builtins) st0 atBound).
Proof.
  cbv zeta. split; [split|split].
  - vm_compute. reflexivity.
  - apply (proj2 (V2_leaderboard_is_recount (js := AsciiText.builtins)
                    Scenario.users Scenario.calls "Nova")).
    vm_compute. reflexivity.
  - vm_compute. reflexivity.
  - exact (proj1 (V2_leaderboard_is_recount (js := AsciiText.builtins)
                    Scenario.users
                    [Journey.largeTip Journey.largest "t1"; Journey.largeTip 1 "t2"]
                    "Nova")).
Defined.

Lemma V2_leaderboard_order_independent_witness :
  Permutation Scenario.calls (rev Scenario.calls)
  /\ V2Nat64.fits (js := AsciiText.builtins) Scenario.users Scenario.calls = true
  /\ V2.leaderboardStorage
       (V2Nat64.run (js := AsciiText.builtins) (V2.init Scenario.users)
          (rev Scenario.calls))
     = V2.leaderboardStorage
         (V2Nat64.run (js := AsciiText.builtins) (V2.init Scenario.users)
            Scenario.calls).
Proof.
  split; [apply Permutation_rev|]. split; [vm_compute; reflexivity|].
  apply (V2_leaderboard_order_independent (js := AsciiText.builtins)
           Scenario.users Scenario.calls (rev Scenario.calls)).
  - apply Permutation_rev.
  - vm_compute. reflexivity.
Defined.

Lemma V2Full_tips_and_ratings_sound_witness :
  V2Ledger.tipSound "t1" Scenario.storedTip
  /\ V2Ledger.ratingSound "r2" (Scenario.storedRating "r2" 3 105).
Proof.
  split.
  - apply (V2Full_tips_and_ratings_sound (js := AsciiText.builtins) Journey.calls).
    vm_compute. reflexivity.
  - apply (V2Full_tips_and_ratings_sound (js := AsciiText.builtins) Journey.calls).
    vm_compute. reflexivity.
Defined.

Lemma V2Full_profiles_listed_once_witness :
  V2Full.getUserProfiles Journey.final = Ok [Journey.storedNova; Journey.storedAnn]
  /\ NoDup (map User.contact [Journey.storedNova; Journey.storedAnn])
  /\ NoDup (map User.id [Journey.storedNova; Journey.storedAnn]).
Proof.
  split.
  - vm_compute. reflexivity.
  - apply (V2Full_profiles_listed_once (js := AsciiText.builtins) Journey.calls).
    vm_compute. reflexivity.
Defined.

Lemma V2Full_contact_belongs_to_its_owner_witness :
  let st := V2Full.run (js := AsciiText.builtins) V2Full.init Journey.calls in
  let payload := Journey.profile "Ann" " nova@example.org" RegularUser in
  V2Full.contactIndexed st
  /\ get (V2Full.usersStorage st) "dj-1" = Some Journey.storedNova
  /\ V2Full.updateUserProfile (js := AsciiText.builtins) st "fan-1" payload
     = (Err V2.Error.InvalidPayload, st).
Proof.
  intros st payload.
  assert (Hidx : V2Full.contactIndexed st).
  { apply (V2Full_run_invariant (js := AsciiText.builtins) V2Full.contactIndexed).
    - intros s c. apply V2Full_step_contactIndexed.
    - intros userId user Hg. discriminate Hg. }
  split; [exact Hidx|]. split; [vm_compute; reflexivity|].
  apply (V2Full_contact_belongs_to_its_owner (js := AsciiText.builtins)
           st "dj-1" Journey.storedNova payload Hidx).
  - vm_compute. reflexivity.
  - vm_compute. reflexivity.
  - discriminate.
  - vm_compute. discriminate.
Defined.

Lemma V2_repeated_call_counts_twice_witness :
  let st := V2.init Scenario.users in
  let c := V2.CreateTip (Scenario.tip "fan-1" 10) "t1" 101 in
  let once := V2Nat64.step (js := AsciiText.builtins) st c in
  let twice := V2Nat64.step (js := AsciiText.builtins) once c in
  let half := Journey.largeTip (2 ^ 63) "t1" in
  let onceHalf := V2Nat64.step (js := AsciiText.builtins) st half in
  (V2Nat64.returnsOk (js := AsciiText.builtins) st c = true
   /\ V2Nat64.returnsOk (js := AsciiText.builtins) once c = true
   /\ V2.totalTipsOf twice "Nova" = 0 + 2 * 10
   /\ V2.tipsStorage twice = V2.tipsStorage once)
  /\ V2Nat64.returnsOk (js := AsciiText.builtins) st half = true
  /\ V2Nat64.returnsOk (js := AsciiText.builtins) onceHalf half = false
  /\ V2Nat64.step (js := AsciiText.builtins) onceHalf half = onceHalf.
Proof.
  cbv zeta. split; [|split; [|split]].
  - assert (H : V2Nat64.returnsOk (js := AsciiText.builtins)
                  (V2.init Scenario.users)
                  (V2.CreateTip (Scenario.tip "fan-1" 10) "t1" 101) = true)
      by (vm_compute; reflexivity).
    assert (H' : V2Nat64.returnsOk (js := AsciiText.builtins)
                   (V2Nat64.step (js := AsciiText.builtins)
                      (V2.init Scenario.users)
                      (V2.CreateTip (Scenario.tip "fan-1" 10) "t1" 101))
                   (V2.CreateTip (Scenario.tip "fan-1" 10) "t1" 101) = true)
      by (vm_compute; reflexivity).
    destruct (V2_repeated_call_counts_twice (js := AsciiText.builtins)
                (V2.init Scenario.users)
                (V2.CreateTip (Scenario.tip "fan-1" 10) "t1" 101) H)
      as (_ & Hok & _).
    destruct (Hok H') as (Ht & _ & _ & Hs & _).
    split; [exact H|]. split; [exact H'|]. split; [exact Ht|exact Hs].
  - vm_compute. reflexivity.
  - vm_compute. reflexivity.
  - assert (H : V2Nat64.returnsOk (js := AsciiText.builtins)
                  (V2.init Scenario.users) (Journey.largeTip (2 ^ 63) "t1") = true)
      by (vm_compute; reflexivity).
    destruct (V2_repeated_call_counts_twice (js := AsciiText.builtins)
                (V2.init Scenario.users) (Journey.largeTip (2 ^ 63) "t1") H)
      as (_ & _ & Hno).
    apply Hno. vm_compute. reflexivity.
Defined.

Lemma V1Full_deleted_profile_is_gone_witness :
  V1Full.deleteUserProfile Journey.before1 "fan-2" = (Ok true, Journey.final1)
  /\ V1Full.getUserProfile Journey.final1 "fan-2" = Err V1.Error.NotFound.
Proof.
  split.
  - vm_compute. reflexivity.
  - apply (V1Full_deleted_profile_is_gone Journey.before1 "fan-2" true).
    vm_compute. reflexivity.
Defined.

Lemma V1Full_contacts_stay_unique_witness :
  Forall (fun c => V1Full.isUpdateUserProfile c = false) Journey.calls1
  /\ V1Full.uniqueContacts (V1Full.usersStorage V1Full.init)
  /\ V1Full.uniqueContacts
       (V1Full.usersStorage
          (V1Full.run (js := AsciiText.builtins) V1Full.init Journey.calls1)).
Proof.
  assert (Hc : Forall (fun c => V1Full.isUpdateUserProfile c = false) Journey.calls1)
    by (repeat constructor).
  assert (Hu : V1Full.uniqueContacts (V1Full.usersStorage V1Full.init))
    by (intros userId1 userId2 user1 user2 Hg; discriminate Hg).
  split; [exact Hc|]. split; [exact Hu|].
  exact (V1Full_contacts_stay_unique (js := AsciiText.builtins)
           Journey.calls1 V1Full.init Hc Hu).
Defined.

Lemma V1Full_events_sound_witness :
  get (V1Full.eventsStorage Journey.final1) "e1" = Some Journey.storedLaunch1
  /\ V1Full.eventSound "e1" Journey.storedLaunch1.
Proof.
  split.
  - vm_compute. reflexivity.
  - apply (V1Full_events_sound (js := AsciiText.builtins) Journey.calls1).
    vm_compute. reflexivity.
Defined.
